(** * marketing-portal: proxy endpoints and polling client

    A shallow embedding of the JavaScript sources

    - [api/marketing/generate_dm_list.js]  (CSV validation, header expansion,
      result-URL rewriting, the submit handler),
    - [api/marketing/generate_leads.js]    (payload validation, the submit
      handler),
    - [api/results.js]                     (the fetch-result handler),
    - [src/utils/polling.js]               (backoff generator, polling loop),
    - [src/utils/download.js]              (the download trigger),

    followed by the properties of the asynchronous job-result retrieval
    protocol that these files implement.

    JavaScript strings are sequences of UTF-16 code units and are modelled as
    [list N]; numbers that the code only compares or adds on small integers
    are modelled in [Z]. *)

From Stdlib Require Import String Ascii DecimalString.
From Stdlib Require Import List ZArith NArith Bool Lia.
Import ListNotations.

Set Warnings "-register-all".

(* ================================================================== *)
(** * Part I: definitions                                              *)
(* ================================================================== *)

(** ** JavaScript strings *)

Module JsString.

(** A string is its sequence of UTF-16 code units. *)
Definition jsstring := list N.

(** [js "abc"] is the JavaScript literal ['abc'] (ASCII literals only). *)
Definition js (s : string) : jsstring :=
  map N_of_ascii (list_ascii_of_string s).

Fixpoint eqb (s t : jsstring) : bool :=
  match s, t with
  | [], [] => true
  | c :: s', d :: t' => N.eqb c d && eqb s' t'
  | _, _ => false
  end.

(** [s.startsWith(p)] *)
Fixpoint startsWith (p s : jsstring) : bool :=
  match p, s with
  | [], _ => true
  | c :: p', d :: s' => N.eqb c d && startsWith p' s'
  | _ :: _, [] => false
  end.

(** [s.endsWith(p)] *)
Definition endsWith (p s : jsstring) : bool :=
  startsWith (rev p) (rev s).

(** [s.includes(p)] *)
Fixpoint includes (p s : jsstring) : bool :=
  startsWith p s ||
  match s with
  | [] => false
  | _ :: s' => includes p s'
  end.

(** [lines.join(sep)] *)
Fixpoint join (sep : jsstring) (l : list jsstring) : jsstring :=
  match l with
  | [] => []
  | [x] => x
  | x :: rest => x ++ sep ++ join sep rest
  end.

Definition LF : N := 10.
Definition CR : N := 13.
Definition BOM : N := 65279.

(** ECMAScript [WhiteSpace] and [LineTerminator] code points, the ones
    [String.prototype.trim] removes. *)
Definition isWhiteSpace (c : N) : bool :=
  ((9 <=? c) && (c <=? 13) || (c =? 32) || (c =? 160) || (c =? 5760)
   || (8192 <=? c) && (c <=? 8202) || (c =? 8232) || (c =? 8233)
   || (c =? 8239) || (c =? 8287) || (c =? 12288) || (c =? 65279))%N.

Fixpoint trimStart (s : jsstring) : jsstring :=
  match s with
  | [] => []
  | c :: s' => if isWhiteSpace c then trimStart s' else s
  end.

(** [s.trim()] *)
Definition trim (s : jsstring) : jsstring :=
  rev (trimStart (rev (trimStart s))).

(** [s.replace(/^\uFEFF/, '')]: one leading byte-order mark is removed. *)
Definition stripBOM (s : jsstring) : jsstring :=
  match s with
  | c :: s' => if N.eqb c BOM then s' else s
  | [] => []
  end.

(** [s.split(/\r?\n/)]: a line feed, together with a carriage return
    standing immediately before it, separates two lines.  The result is
    never the empty array. *)
Fixpoint splitLines (s : jsstring) : list jsstring :=
  match s with
  | [] => [[]]
  | c :: rest =>
      if N.eqb c LF then [] :: splitLines rest
      else
        let keep :=
          match splitLines rest with
          | l :: ls => (c :: l) :: ls
          | [] => [[c]]
          end in
        if N.eqb c CR then
          match rest with
          | d :: rest' => if N.eqb d LF then [] :: splitLines rest' else keep
          | [] => keep
          end
        else keep
  end.

(** [s.split('\n')] *)
Fixpoint splitLF (s : jsstring) : list jsstring :=
  match s with
  | [] => [[]]
  | c :: rest =>
      if N.eqb c LF then [] :: splitLF rest
      else match splitLF rest with
           | l :: ls => (c :: l) :: ls
           | [] => [[c]]
           end
  end.

(** [s.replace(/\/+$/, '')] *)
Fixpoint dropLeadingSlashes (s : jsstring) : jsstring :=
  match s with
  | [] => []
  | c :: s' => if N.eqb c 47 then dropLeadingSlashes s' else s
  end.

Definition stripTrailingSlashes (s : jsstring) : jsstring :=
  rev (dropLeadingSlashes (rev s)).

(** Decimal rendering of a non-negative integer, as [String(n)] gives it. *)
Definition digits (n : N) : jsstring :=
  js (NilEmpty.string_of_uint (N.to_uint n)).

End JsString.
Import JsString.

(** Exceptions, as far as the code inspects them: [e.name], [e.message] and
    the [status] property that the polling loop attaches to the errors it
    creates. *)
Record Exn := mkExn {
  exnName : jsstring;
  exnMessage : jsstring;
  exnStatus : option N
}.

(** ** src/utils/polling.js: the backoff generator *)

Module Polling.

(** The body of [function* backoffIterator]: the loop runs while
    [attempt < maxAttempts]; [n] counts the iterations that remain.  Each
    iteration yields [Math.min(b, capMs)] and then advances
    [(a, b) := (b, a + b)].  The generator has no effect besides its yields,
    so it is modelled by the list of the values it yields, in order. *)
Fixpoint backoffLoop (n : nat) (a b capMs : Z) : list Z :=
  match n with
  | O => []
  | S n' => Z.min b capMs :: backoffLoop n' b (a + b) capMs
  end.

Definition backoffIterator (maxAttempts : nat) (capMs : Z) : list Z :=
  backoffLoop maxAttempts 1000 2000 capMs.

Definition defaultMaxAttempts : nat := 60.
Definition defaultCapMs : Z := 15000.

(** *** The polling loop *)

(** [new DOMException('Aborted', 'AbortError')] *)
Definition AbortError : Exn := mkExn (js "AbortError") (js "Aborted") None.

(** [const err = new Error(msg); err.status = status;] *)
Definition statusError (msg : jsstring) (status : N) : Exn :=
  mkExn (js "Error") msg (Some status).

(** What one [await fetch(resultUrl, ...)] gives: a response, of which the
    loop reads [status] and, for an unexpected status, [text()] (the empty
    string when reading the text fails), or a rejection.  A fetch that the
    signal interrupts in flight rejects with an [AbortError]. *)
Inductive Reply :=
| Response (status : N) (text : jsstring)
| FetchRejects (e : Exn).

(** When the caller's [AbortSignal] fires.  [AtEntry k]: the signal is
    found aborted by the check that opens iteration [k] (it fired before the
    call for [k = 0], or while the reply of fetch [k - 1] was being handled,
    before the timer of that iteration was armed; such a timer runs to its
    end, an abort listener added to an aborted signal is never called).
    [InWait k]: it fires while the loop is suspended in the wait of
    iteration [k]. *)
Inductive AbortPoint :=
| AtEntry (k : nat)
| InWait (k : nat).

(** The environment of one polling session.  [signal = None] stands for a
    call without [signal] as well as for a signal that never fires: the code
    reads it only through [signal?.aborted] and the abort listener. *)
Record Env := mkEnv {
  signal : option AbortPoint;
  onTick : bool;
  reply : nat -> Reply
}.

Inductive Event :=
| EvFetch (url : jsstring)
| EvTick (attempt : nat) (status : N) (message : jsstring)
| EvWait (delay : Z)
| EvDownload (url : jsstring).

(** [pollForReady] resolves with [{ ready: true }] or rejects. *)
Inductive Outcome :=
| Resolved (ready : bool)
| Rejected (e : Exn).

Definition abortedAtEntry (env : Env) (attempt : nat) : bool :=
  match signal env with
  | Some (AtEntry k) => Nat.leb k attempt
  | _ => false
  end.

Definition abortedInWait (env : Env) (attempt : nat) : bool :=
  match signal env with
  | Some (InWait k) => Nat.eqb k attempt
  | _ => false
  end.

(** [if (onTick) onTick({ attempt, status, message })] *)
Definition tick (env : Env) (attempt : nat) (status : N) (msg : jsstring)
  : list Event :=
  if onTick env then [EvTick attempt status msg] else [].

(** How a block of statements completes. *)
Inductive Completion :=
| Normal
| Return
| Throw (e : Exn).

(** The [try] block of one iteration, after the fetch has been issued. *)
Definition tryBlock (env : Env) (attempt : nat) : Completion * list Event :=
  match reply env attempt with
  | FetchRejects e => (Throw e, [])
  | Response status text =>
      if N.eqb status 200 then
        (Return, tick env attempt 200 (js "ready"))
      else if N.eqb status 202 then
        (Normal, tick env attempt 202 (js "not ready"))
      else if N.eqb status 400 then
        let msg := js "Invalid or malformed token." in
        (Throw (statusError msg 400), tick env attempt 400 msg)
      else if N.eqb status 410 then
        let msg := js "Result expired. Please start a new job." in
        (Throw (statusError msg 410), tick env attempt 410 msg)
      else
        let msg := js "Unexpected status " ++ digits status ++
                   match text with
                   | [] => []
                   | _ => js ": " ++ text
                   end in
        (Throw (statusError msg status), tick env attempt status msg)
  end.

(** The [catch (e)] clause that encloses the [try] block: an exception named
    ['AbortError'] is thrown again, any other one is reported through
    [onTick] with status 0 and the loop goes on to the wait. *)
Definition catchClause (env : Env) (attempt : nat) (e : Exn)
  : Completion * list Event :=
  if JsString.eqb (exnName e) (js "AbortError") then (Throw e, [])
  else
    (Normal,
     tick env attempt 0
       match exnMessage e with
       | [] => js "Network error"
       | m => m
       end).

Definition tryCatch (env : Env) (attempt : nat) : Completion * list Event :=
  match tryBlock env attempt with
  | (Throw e, evs) =>
      let (c, evs') := catchClause env attempt e in (c, evs ++ evs')
  | r => r
  end.

(** The [for (;;)] loop of [pollForReady].  [it] holds what the backoff
    iterator has still to yield; every iteration that does not leave the
    loop takes one value from it, and the loop ends with the timed-out
    error once [it.next().value] is [undefined]. *)
Fixpoint pollLoop (env : Env) (resultUrl : jsstring) (it : list Z)
    (attempt : nat) : Outcome * list Event :=
  if abortedAtEntry env attempt then (Rejected AbortError, [])
  else
    match tryCatch env attempt with
    | (Return, evs) => (Resolved true, EvFetch resultUrl :: evs)
    | (Throw e, evs) => (Rejected e, EvFetch resultUrl :: evs)
    | (Normal, evs) =>
        match it with
        | [] =>
            (Rejected (statusError (js "Polling timed out") 504),
             EvFetch resultUrl :: evs)
        | delay :: it' =>
            if abortedInWait env attempt then
              (Rejected AbortError,
               EvFetch resultUrl :: evs ++ [EvWait delay])
            else
              let (o, rest) := pollLoop env resultUrl it' (S attempt) in
              (o, EvFetch resultUrl :: evs ++ EvWait delay :: rest)
        end
    end.

Definition pollForReady (env : Env) (resultUrl : jsstring)
  : Outcome * list Event :=
  pollLoop env resultUrl
    (backoffIterator defaultMaxAttempts defaultCapMs) 0.

(** src/utils/download.js, [triggerBrowserDownload(url)]: one navigation of
    the user agent to [url]; its only effect on the session is that it
    happened. *)
Definition triggerBrowserDownload (url : jsstring) : list Event :=
  [EvDownload url].

Definition waitAndDownload (env : Env) (resultUrl : jsstring)
  : Outcome * list Event :=
  match pollForReady env resultUrl with
  | (Resolved true, evs) =>
      (Resolved true, evs ++ triggerBrowserDownload resultUrl)
  | r => r
  end.

(** Counters over the event log of a session. *)
Definition isFetch (e : Event) : bool :=
  match e with EvFetch _ => true | _ => false end.
Definition isWait (e : Event) : bool :=
  match e with EvWait _ => true | _ => false end.
Definition isDownload (e : Event) : bool :=
  match e with EvDownload _ => true | _ => false end.
Definition isTick (e : Event) : bool :=
  match e with EvTick _ _ _ => true | _ => false end.

Definition fetchCalls (log : list Event) : nat := length (filter isFetch log).
Definition waits (log : list Event) : nat := length (filter isWait log).
Definition downloads (log : list Event) : nat :=
  length (filter isDownload log).

End Polling.

(** ** JavaScript values, as JSON carries them *)

Module Js.

(** A number is carried by its canonical rendering ([Number::toString]),
    which determines it; the code never computes with the numbers of a
    payload. *)
Inductive value :=
| Undefined
| Null
| Bool (b : bool)
| Num (repr : jsstring)
| Str (s : jsstring)
| Arr (items : list value)
| Obj (props : list (jsstring * value)).

(** [typeof v] *)
Definition typeof (v : value) : jsstring :=
  match v with
  | Undefined => js "undefined"
  | Bool _ => js "boolean"
  | Num _ => js "number"
  | Str _ => js "string"
  | Null | Arr _ | Obj _ => js "object"
  end.

(** [Array.isArray(v)] *)
Definition isArray (v : value) : bool :=
  match v with Arr _ => true | _ => false end.

(** [!v] is [false]: the truthy values. *)
Definition truthy (v : value) : bool :=
  match v with
  | Undefined | Null => false
  | Bool b => b
  | Num r => negb (JsString.eqb r (js "0") || JsString.eqb r (js "NaN"))
  | Str s => match s with [] => false | _ => true end
  | Arr _ | Obj _ => true
  end.

Fixpoint lookup (key : jsstring) (props : list (jsstring * value)) : value :=
  match props with
  | [] => Undefined
  | (k, v) :: rest => if JsString.eqb k key then v else lookup key rest
  end.

(** [v.key] for a key that is neither an index nor a built-in property:
    [None] is the [TypeError] of reading a property of [null] or
    [undefined]. *)
Definition getProp (key : jsstring) (v : value) : option value :=
  match v with
  | Undefined | Null => None
  | Obj props => Some (lookup key props)
  | _ => Some Undefined
  end.

(** Assignment of an own property: an existing key keeps its place, a new
    one goes last. *)
Fixpoint setProp (key : jsstring) (v : value) (props : list (jsstring * value))
  : list (jsstring * value) :=
  match props with
  | [] => [(key, v)]
  | (k, w) :: rest =>
      if JsString.eqb k key then (k, v) :: rest
      else (k, w) :: setProp key v rest
  end.

Fixpoint indexed (i : N) (items : list value) : list (jsstring * value) :=
  match items with
  | [] => []
  | x :: rest => (digits i, x) :: indexed (N.succ i) rest
  end.

(** The own enumerable properties that [{ ...v }] copies. *)
Definition spread (v : value) : list (jsstring * value) :=
  match v with
  | Obj props => props
  | Arr items => indexed 0 items
  | Str s => indexed 0 (map (fun c => Str [c]) s)
  | _ => []
  end.

(** [String(v)] *)
Fixpoint toString (v : value) : jsstring :=
  match v with
  | Undefined => js "undefined"
  | Null => js "null"
  | Bool true => js "true"
  | Bool false => js "false"
  | Num r => r
  | Str s => s
  | Arr items =>
      JsString.join (js ",")
        (map (fun x => match x with
                       | Undefined | Null => []
                       | _ => toString x
                       end) items)
  | Obj _ => js "[object Object]"
  end.

End Js.

(** ** Built-ins of the platform that the proxy code calls *)

Module Builtin.

Definition hexDigit (n : N) : N :=
  if (n <? 10)%N then (48 + n)%N else (55 + n)%N.

(** ["%XY"] for every byte, upper-case digits. *)
Definition percent (bytes : list N) : jsstring :=
  flat_map (fun b => [37; hexDigit (b / 16); hexDigit (b mod 16)]%N) bytes.

(** UTF-8 encoding of a code point. *)
Definition utf8 (cp : N) : list N :=
  (if cp <? 128 then [cp]
   else if cp <? 2048 then [192 + cp / 64; 128 + cp mod 64]
   else if cp <? 65536 then
     [224 + cp / 4096; 128 + (cp / 64) mod 64; 128 + cp mod 64]
   else
     [240 + cp / 262144; 128 + (cp / 4096) mod 64;
      128 + (cp / 64) mod 64; 128 + cp mod 64])%N.

Definition isAlnum (c : N) : bool :=
  ((48 <=? c) && (c <=? 57) || (65 <=? c) && (c <=? 90)
   || (97 <=? c) && (c <=? 122))%N.

(** The characters [encodeURIComponent] leaves as they are:
    letters, digits and [- _ . ! ~ * ' ( )]. *)
Definition isUnreserved (c : N) : bool :=
  isAlnum c ||
  existsb (N.eqb c) [45; 95; 46; 33; 126; 42; 39; 40; 41]%N.

Definition isLeadSurrogate (c : N) : bool :=
  ((55296 <=? c) && (c <=? 56319))%N.
Definition isTrailSurrogate (c : N) : bool :=
  ((56320 <=? c) && (c <=? 57343))%N.

(** The code point that a lead and a trail surrogate stand for. *)
Definition surrogatePair (c d : N) : N :=
  (65536 + (c - 55296) * 1024 + (d - 56320))%N.

(** [encodeURIComponent(s)]; [None] is the [URIError] thrown at a surrogate
    code unit that has no partner. *)
Fixpoint encodeURIComponent (s : jsstring) : option jsstring :=
  match s with
  | [] => Some []
  | c :: rest =>
      if isUnreserved c then
        option_map (cons c) (encodeURIComponent rest)
      else if isLeadSurrogate c then
        match rest with
        | d :: rest' =>
            if isTrailSurrogate d then
              option_map (app (percent (utf8 (surrogatePair c d))))
                         (encodeURIComponent rest')
            else None
        | [] => None
        end
      else if isTrailSurrogate c then None
      else option_map (app (percent (utf8 c))) (encodeURIComponent rest)
  end.

Fixpoint takeNotAmp (s : jsstring) : jsstring :=
  match s with
  | [] => []
  | c :: rest => if N.eqb c 38 then [] else c :: takeNotAmp rest
  end.

(** [/[?&]token=([^&]+)/.exec(s)]: the first capture group of the leftmost
    match, [None] when there is no match. *)
Fixpoint tokenRegexExec (s : jsstring) : option jsstring :=
  match s with
  | [] => None
  | c :: rest =>
      if (N.eqb c 63 || N.eqb c 38) && startsWith (js "token=") rest then
        match takeNotAmp (skipn 6 rest) with
        | [] => tokenRegexExec rest
        | v => Some v
        end
      else tokenRegexExec rest
  end.

End Builtin.

(** [JSON.stringify] on the values of [Js.value]. *)
Module JSON.

Definition hex4 (c : N) : jsstring :=
  let d n := if (n <? 10)%N then (48 + n)%N else (87 + n)%N in
  [d (c / 4096); d ((c / 256) mod 16); d ((c / 16) mod 16); d (c mod 16)]%N.

(** The body of [QuoteJSONString], code unit by code unit: short escapes,
    [\uXXXX] for the other control characters and for surrogates without a
    partner, everything else as it is. *)
Fixpoint quoteUnits (s : jsstring) : jsstring :=
  match s with
  | [] => []
  | c :: rest =>
      let esc x := (92 :: x)%N ++ quoteUnits rest in
      (if c =? 8 then esc [98]
       else if c =? 9 then esc [116]
       else if c =? 10 then esc [110]
       else if c =? 12 then esc [102]
       else if c =? 13 then esc [114]
       else if c =? 34 then esc [34]
       else if c =? 92 then esc [92]
       else if c <? 32 then esc (117 :: hex4 c)
       else if Builtin.isLeadSurrogate c then
         match rest with
         | d :: rest' =>
             if Builtin.isTrailSurrogate d then c :: d :: quoteUnits rest'
             else esc (117 :: hex4 c)
         | [] => esc (117 :: hex4 c)
         end
       else if Builtin.isTrailSurrogate c then esc (117 :: hex4 c)
       else c :: quoteUnits rest)%N
  end.

Definition quote (s : jsstring) : jsstring :=
  (34 :: quoteUnits s ++ [34])%N.

Definition finite (repr : jsstring) : bool :=
  negb (JsString.eqb repr (js "NaN") || JsString.eqb repr (js "Infinity")
        || JsString.eqb repr (js "-Infinity")).

(** [None] is the result [undefined]. *)
Fixpoint stringify (v : Js.value) : option jsstring :=
  match v with
  | Js.Undefined => None
  | Js.Null => Some (js "null")
  | Js.Bool true => Some (js "true")
  | Js.Bool false => Some (js "false")
  | Js.Num r => Some (if finite r then r else js "null")
  | Js.Str s => Some (quote s)
  | Js.Arr items =>
      Some (js "[" ++
            JsString.join (js ",")
              (map (fun x => match stringify x with
                             | Some t => t
                             | None => js "null"
                             end) items) ++
            js "]")
  | Js.Obj props =>
      Some (js "{" ++
            JsString.join (js ",")
              (flat_map (fun kv => match stringify (snd kv) with
                                   | Some t => [quote (fst kv) ++ js ":" ++ t]
                                   | None => []
                                   end) props) ++
            js "}")
  end.

End JSON.

(** ** The HTTP side of a serverless function *)

Module Http.

(** What has been written to the response: text or raw bytes. *)
Inductive Chunk :=
| Text (s : jsstring)
| Bytes (b : list N).

(** The [res] object: [statusCode], the headers set so far, what
    [res.end] or a piped stream has written, and whether it has ended. *)
Record Res := mkRes {
  statusCode : N;
  headers : list (jsstring * jsstring);
  written : list Chunk;
  ended : bool
}.

Definition freshRes : Res := mkRes 200 [] [] false.

(** The [req] object: method, URL, and what reading the body as text gives
    (the stream's ['error'] event rejects the read). *)
Record Request := mkRequest {
  method : jsstring;
  url : jsstring;
  bodyText : Exn + jsstring
}.

(** One call of [fetch] to the backend. *)
Record UpRequest := mkUpRequest {
  upUrl : jsstring;
  upMethod : jsstring;
  upContentType : option jsstring;
  upBody : option jsstring
}.

(** A response body in transit: it arrives whole, or the transport breaks
    after some bytes. *)
Inductive Transfer :=
| Complete (bytes : list N)
| Broken (delivered : list N) (e : Exn).

(** What the handlers read of a backend response. *)
Record UpResponse := mkUpResponse {
  status : N;
  contentType : option jsstring;
  contentDisposition : option jsstring;
  json : Exn + Js.value;
  text : Exn + jsstring;
  bodyStream : option Transfer
}.

(** The world around one invocation: the process environment, the backend,
    and whether [Readable.fromWeb] is a function. *)
Record World := mkWorld {
  MARKETING_BACKEND_URL : option jsstring;
  upstream : UpRequest -> Exn + UpResponse;
  canStream : bool
}.

(** State threaded through a handler: the response under construction, the
    backend calls made, and the lines of [console.error]. *)
Record St := mkSt {
  res : Res;
  calls : list UpRequest;
  console : list (jsstring * Exn)
}.

Definition initial : St := mkSt freshRes [] [].

(** A step either completes with a value or throws, and updates the state. *)
Definition M (A : Type) : Type := St -> (Exn + A) * St.

Definition ret {A} (a : A) : M A := fun st => (inr a, st).
Definition throw {A} (e : Exn) : M A := fun st => (inl e, st).
Definition bind {A B} (m : M A) (k : A -> M B) : M B :=
  fun st =>
    match m st with
    | (inr a, st') => k a st'
    | (inl e, st') => (inl e, st')
    end.
Definition lift {A} (r : Exn + A) : M A :=
  match r with
  | inr a => ret a
  | inl e => throw e
  end.

(** [try { body } catch (err) { handler(err) }] *)
Definition tryCatch (body : M unit) (handler : Exn -> M unit) : M unit :=
  fun st =>
    match body st with
    | (inl e, st') => handler e st'
    | r => r
    end.

Definition updRes (f : Res -> Res) : M unit :=
  fun st => (inr tt, mkSt (f (res st)) (calls st) (console st)).

Fixpoint assign (k v : jsstring) (h : list (jsstring * jsstring))
  : list (jsstring * jsstring) :=
  match h with
  | [] => [(k, v)]
  | (k', v') :: rest =>
      if JsString.eqb k' k then (k, v) :: rest else (k', v') :: assign k v rest
  end.

(** [res.setHeader(k, v)] *)
Definition setHeader (k v : string) : M unit :=
  updRes (fun r =>
    mkRes (statusCode r) (assign (js k) (js v) (headers r))
          (written r) (ended r)).

Definition setHeaderValue (k : string) (v : jsstring) : M unit :=
  updRes (fun r =>
    mkRes (statusCode r) (assign (js k) v (headers r)) (written r) (ended r)).

(** [res.statusCode = n] *)
Definition setStatus (n : N) : M unit :=
  updRes (fun r => mkRes n (headers r) (written r) (ended r)).

(** [res.end(chunk)], [res.end()] for [None]. *)
Definition endWith (c : option Chunk) : M unit :=
  updRes (fun r =>
    mkRes (statusCode r) (headers r)
          (written r ++ match c with Some x => [x] | None => [] end) true).

(** [res.end(JSON.stringify(v))] *)
Definition endJson (v : Js.value) : M unit :=
  endWith (option_map Text (JSON.stringify v)).

(** [await fetch(url, { method, headers, body })] *)
Definition fetch (w : World) (r : UpRequest) : M UpResponse :=
  fun st =>
    (upstream w r, mkSt (res st) (calls st ++ [r]) (console st)).

(** [console.error(tag, err)] *)
Definition consoleError (tag : string) (e : Exn) : M unit :=
  fun st => (inr tt, mkSt (res st) (calls st) (console st ++ [(js tag, e)])).

(** [a || b] on header values and the like: [null] and the empty string are
    falsy. *)
Definition orElse (a : option jsstring) (b : jsstring) : jsstring :=
  match a with
  | Some (c :: s) => c :: s
  | _ => b
  end.

End Http.

Declare Scope handler_scope.
Delimit Scope handler_scope with handler.
Notation "x <- m ;; k" := (Http.bind m (fun x => k))
  (at level 61, m at next level, right associativity) : handler_scope.
Notation "m ;; k" := (Http.bind m (fun _ => k))
  (at level 61, right associativity) : handler_scope.

Local Open Scope handler_scope.

(** ** Helpers that every api file repeats *)

Module Shared.
Import Http.

(** [setCors(res)].  The copy in generate_leads.js does not set
    [Access-Control-Max-Age]. *)
Definition setCors (maxAge : bool) : M unit :=
  setHeader "Access-Control-Allow-Origin" "*" ;;
  setHeader "Access-Control-Allow-Methods" "POST, GET, OPTIONS" ;;
  setHeader "Access-Control-Allow-Headers" "Content-Type" ;;
  if maxAge then setHeader "Access-Control-Max-Age" "86400" else ret tt.

Definition missingSetting : Exn :=
  mkExn (js "Error")
        (js "Environment variable MARKETING_BACKEND_URL is not set") None.

(** [getBackendBase()]: [!base] holds for an unset and for an empty
    variable. *)
Definition getBackendBase (w : World) : Exn + jsstring :=
  match MARKETING_BACKEND_URL w with
  | None | Some [] => inl missingSetting
  | Some base => inr (stripTrailingSlashes base)
  end.

Definition URIError : Exn := mkExn (js "URIError") (js "URI malformed") None.
Definition TypeError (msg : string) : Exn := mkExn (js "TypeError") (js msg) None.

Section Rewriter.

(** [new URL(s).searchParams.get('token')] on the string [s]: [None] when
    the constructor throws, [Some None] for [null]. *)
Variable URL_token : jsstring -> option (option jsstring).

(** The [try] block of [rewriteResultUrl]: [Some r] when it returns [r],
    [None] when it falls through or throws (the [catch] is empty). *)
Definition strictPath (resultUrl : Js.value) : option jsstring :=
  match URL_token (Js.toString resultUrl) with
  | Some (Some (c :: token)) =>
      match Builtin.encodeURIComponent (c :: token) with
      | Some e => Some (js "/api/results?token=" ++ e)
      | None => None
      end
  | _ => None
  end.

(** [resultUrl || ''], as the regular expression receives it. *)
Definition regexSubject (resultUrl : Js.value) : jsstring :=
  if Js.truthy resultUrl then Js.toString resultUrl else [].

Definition rewriteResultUrl (resultUrl : Js.value) : Exn + jsstring :=
  match strictPath resultUrl with
  | Some r => inr r
  | None =>
      match Builtin.tokenRegexExec (regexSubject resultUrl) with
      | Some m =>
          match Builtin.encodeURIComponent m with
          | Some e => inr (js "/api/results?token=" ++ e)
          | None => inl URIError
          end
      | None => inr (js "/api/results")
      end
  end.

(** [{ ...data, resultUrl: rewriteResultUrl(data.resultUrl) }] *)
Definition rewritten (data : Js.value) : Exn + Js.value :=
  match Js.getProp (js "resultUrl") data with
  | None => inl (TypeError "Cannot read properties of null")
  | Some r =>
      match rewriteResultUrl r with
      | inl e => inl e
      | inr u =>
          inr (Js.Obj (Js.setProp (js "resultUrl") (Js.Str u) (Js.spread data)))
      end
  end.

(** The branch [if (upstream.status !== 202)] of the two submit handlers,
    after [res.statusCode] has been set, and the last part of the results
    handler: a JSON body goes out as JSON, any other as text. *)
Definition relayBody (up : UpResponse) : M unit :=
  if includes (js "application/json") (orElse (contentType up) []) then
    j <- lift (json up) ;;
    setHeader "Content-Type" "application/json; charset=utf-8" ;;
    endJson j
  else
    t <- lift (text up) ;;
    setHeader "Content-Type" "text/plain; charset=utf-8" ;;
    endWith (Some (Text t)).

(** What follows the backend call in both submit handlers. *)
Definition answerSubmission (up : UpResponse) : M unit :=
  if negb (N.eqb (status up) 202) then
    setStatus (status up) ;;
    relayBody up
  else
    data <- lift (json up) ;;
    r <- lift (rewritten data) ;;
    setStatus 202 ;;
    setHeader "Content-Type" "application/json; charset=utf-8" ;;
    endJson r.

(** The [catch (err)] clause of every handler. *)
Definition internalError (tag : string) (maxAge : bool) (err : Exn) : M unit :=
  consoleError tag err ;;
  setCors maxAge ;;
  setStatus 500 ;;
  setHeader "Content-Type" "application/json; charset=utf-8" ;;
  endJson (Js.Obj [(js "error", Js.Str (js "Internal Server Error"))]).

(** [{ error, code }] as the 400 answers carry it. *)
Definition rejection (error code : jsstring) : M unit :=
  setStatus 400 ;;
  setHeader "Content-Type" "application/json; charset=utf-8" ;;
  endJson (Js.Obj [(js "error", Js.Str error); (js "code", Js.Str code)]).

End Rewriter.

End Shared.

(** ** api/marketing/generate_dm_list.js *)

Module GenerateDmList.
Import Http Shared.

Definition ALLOWED_HEADERS : list jsstring :=
  [js "userName,userLink,directMessage"; js "userName,userLink"].

Definition MAX_TARGETS : nat := 300.

Inductive Validation :=
| Valid (count : nat)
| Invalid (error code : jsstring).

(** [l.trim().length > 0] *)
Definition nonBlank (l : jsstring) : bool :=
  match trim l with
  | [] => false
  | _ => true
  end.

(** [lines.slice(1).filter((l) => l.trim().length > 0).length] *)
Definition rowCount (lines : list jsstring) : nat :=
  length (filter nonBlank (tl lines)).

Definition validateCsv (csvText : jsstring) : Validation :=
  let text := stripBOM csvText in
  let lines := splitLines text in
  let header := trim (hd [] lines) in
  if negb (existsb (JsString.eqb header) ALLOWED_HEADERS) then
    Invalid (js "Invalid header. Expected one of: " ++
             join (js " | ") ALLOWED_HEADERS)
            (js "INVALID_HEADER")
  else
    let count := rowCount lines in
    if Nat.eqb count 0 then
      Invalid (js "No rows found after header.") (js "EMPTY_ROWS")
    else if Nat.ltb MAX_TARGETS count then
      Invalid (js "Too many rows: " ++ digits (N.of_nat count) ++
               js ". Maximum allowed is " ++ digits (N.of_nat MAX_TARGETS) ++
               js ".")
              (js "TOO_MANY_ROWS")
    else Valid count.

(** One pass of the [for] loop of the handler over a data line:
    [!line || !line.trim()] keeps the line, otherwise a comma is appended
    unless the line ends with one. *)
Definition expandLine (line : jsstring) : jsstring :=
  if negb (nonBlank line) then line
  else if endsWith (js ",") line then line
  else line ++ js ",".

(** The array [transformed] of the handler, for a text whose header is the
    two-column one. *)
Definition transformed (lines : list jsstring) : list jsstring :=
  js "userName,userLink,directMessage" :: map expandLine (tl lines).

(** The variable [csvToSend] of the handler once the block that adds the
    empty [directMessage] column has run.  Nothing in that block throws. *)
Definition csvToSend (csvText : jsstring) : jsstring :=
  let lines := splitLines (stripBOM csvText) in
  let header := trim (hd [] lines) in
  if JsString.eqb header (js "userName,userLink") then
    join [LF] (transformed lines)
  else csvText.

Section Handler.
Variable URL_token : jsstring -> option (option jsstring).

(** The [try] block of the handler.  The content type of the request is
    read and compared, and the comparison has an empty body: it is left
    out. *)
Definition handlerBody (w : World) (req : Request) : M unit :=
  setCors true ;;
  if JsString.eqb (method req) (js "OPTIONS") then
    setStatus 204 ;;
    endWith None
  else if negb (JsString.eqb (method req) (js "POST")) then
    setHeader "Allow" "POST, OPTIONS" ;;
    setStatus 405 ;;
    endWith (Some (Text (js "Method Not Allowed")))
  else
    backendBase <- lift (getBackendBase w) ;;
    csvText <- lift (bodyText req) ;;
    match validateCsv csvText with
    | Invalid error code => rejection error code
    | Valid _ =>
        up <- fetch w (mkUpRequest
                         (backendBase ++ js "/marketing/generate_dm_list")
                         (js "POST") (Some (js "text/csv"))
                         (Some (csvToSend csvText))) ;;
        answerSubmission URL_token up
    end.

Definition handler (w : World) (req : Request) : St :=
  snd (tryCatch (handlerBody w req)
                (internalError "Proxy error (generate_dm_list):" true)
                initial).

End Handler.

End GenerateDmList.

(** ** api/marketing/generate_leads.js *)

Module GenerateLeads.
Import Http Shared.

Inductive Validation :=
| Valid
| Invalid (error code : jsstring).

(** [typeof u !== 'string' || u.trim().length === 0] *)
Definition badSeed (u : Js.value) : bool :=
  match u with
  | Js.Str s => match trim s with [] => true | _ => false end
  | _ => true
  end.

(** [const { seedUserNames, filters } = payload], for a payload that has
    passed the first test. *)
Definition field (key : string) (payload : Js.value) : Js.value :=
  match Js.getProp (js key) payload with
  | Some v => v
  | None => Js.Undefined
  end.

Definition validatePayload (payload : Js.value) : Validation :=
  if negb (JsString.eqb (Js.typeof payload) (js "object")) ||
     match payload with Js.Null => true | _ => false end
  then Invalid (js "Body must be a JSON object.") (js "INVALID_JSON")
  else
    let seedUserNames := field "seedUserNames" payload in
    let filters := field "filters" payload in
    match seedUserNames with
    | Js.Arr (u :: us) =>
        if existsb badSeed (u :: us) then
          Invalid (js "Each seed user name must be a non-empty string.")
                  (js "INVALID_SEED_ITEM")
        else if
          match filters with Js.Undefined => false | _ => true end &&
          negb (JsString.eqb (Js.typeof filters) (js "object"))
        then
          Invalid (js "filters must be an object if provided.")
                  (js "INVALID_FILTERS")
        else Valid
    | _ =>
        Invalid (js "seedUserNames must be a non-empty array of strings.")
                (js "INVALID_SEED")
    end.

Section Handler.
Variable URL_token : jsstring -> option (option jsstring).

(** [JSON.parse(s)]: [None] when it throws. *)
Variable JSON_parse : jsstring -> option Js.value.

Definition handlerBody (w : World) (req : Request) : M unit :=
  setCors false ;;
  if JsString.eqb (method req) (js "OPTIONS") then
    setStatus 204 ;;
    endWith None
  else if negb (JsString.eqb (method req) (js "POST")) then
    setHeader "Allow" "POST, OPTIONS" ;;
    setStatus 405 ;;
    endWith (Some (Text (js "Method Not Allowed")))
  else
    backendBase <- lift (getBackendBase w) ;;
    text <- lift (bodyText req) ;;
    match JSON_parse (orElse (Some text) (js "{}")) with
    | None => rejection (js "Invalid JSON body") (js "INVALID_JSON")
    | Some json =>
        match validatePayload json with
        | Invalid error code => rejection error code
        | Valid =>
            up <- fetch w (mkUpRequest
                             (backendBase ++ js "/marketing/generate_leads")
                             (js "POST") (Some (js "application/json"))
                             (JSON.stringify json)) ;;
            answerSubmission URL_token up
        end
    end.

Definition handler (w : World) (req : Request) : St :=
  snd (tryCatch (handlerBody w req)
                (internalError "Proxy error (generate_leads):" false)
                initial).

End Handler.

End GenerateLeads.

(** ** api/results.js *)

Module Results.
Import Http Shared.

(** [nodeStream.pipe(res)] with the ['error'] listener of the handler: a
    transfer that breaks is logged, turns the answer into a 500 when
    nothing has gone out yet, and ends the response with the stream-error
    body. *)
Definition pipe (t : Transfer) : M unit :=
  match t with
  | Complete bytes => endWith (Some (Bytes bytes))
  | Broken delivered e =>
      consoleError "Streaming error (results):" e ;;
      match delivered with
      | [] =>
          setStatus 500 ;;
          setHeader "Content-Type" "application/json; charset=utf-8"
      | _ => updRes (fun r =>
               mkRes (statusCode r) (headers r)
                     (written r ++ [Bytes delivered]) (ended r))
      end ;;
      endJson (Js.Obj [(js "error", Js.Str (js "Stream Error"))])
  end.

(** [Buffer.from(await upstream.arrayBuffer())] *)
Definition arrayBuffer (up : UpResponse) : Exn + list N :=
  match bodyStream up with
  | None => inr []
  | Some (Complete bytes) => inr bytes
  | Some (Broken _ e) => inl e
  end.

Section Handler.

(** [new URL(s, 'http://localhost').search]: [None] when the constructor
    throws. *)
Variable URL_search : jsstring -> option jsstring.

Definition handlerBody (w : World) (req : Request) : M unit :=
  setCors true ;;
  if JsString.eqb (method req) (js "OPTIONS") then
    setStatus 204 ;;
    endWith None
  else if negb (JsString.eqb (method req) (js "GET")) then
    setHeader "Allow" "GET, OPTIONS" ;;
    setStatus 405 ;;
    endWith (Some (Text (js "Method Not Allowed")))
  else
    backendBase <- lift (getBackendBase w) ;;
    search <- lift match URL_search (url req) with
                   | Some s => inr s
                   | None => inl (TypeError "Invalid URL")
                   end ;;
    up <- fetch w (mkUpRequest (backendBase ++ js "/results" ++ search)
                               (js "GET") None None) ;;
    setStatus (status up) ;;
    if N.eqb (status up) 202 then
      setHeader "Content-Type" "application/json; charset=utf-8" ;;
      j <- lift (json up) ;;
      endJson j
    else if N.eqb (status up) 200 then
      setHeaderValue "Content-Type"
        (orElse (contentType up) (js "text/csv; charset=utf-8")) ;;
      match contentDisposition up with
      | Some (c :: cd) => setHeaderValue "Content-Disposition" (c :: cd)
      | _ => ret tt
      end ;;
      match bodyStream up, canStream w with
      | Some t, true => pipe t
      | _, _ =>
          buf <- lift (arrayBuffer up) ;;
          setHeaderValue "Content-Length" (digits (N.of_nat (length buf))) ;;
          endWith (Some (Bytes buf))
      end
    else relayBody up.

Definition handler (w : World) (req : Request) : St :=
  snd (tryCatch (handlerBody w req)
                (internalError "Proxy error (results):" true)
                initial).

End Handler.

End Results.

(** ** A reference model of the platform's [URL] class

    The proxy code calls [new URL(s).searchParams.get('token')]; [URL] is a
    built-in of the runtime (WHATWG URL Standard), not code of this
    repository.  The general theorems below hold for every function in its
    place.  To run the rewriter on concrete locations this module gives the
    built-in for absolute URLs: scheme, authority, query, and the
    [application/x-www-form-urlencoded] decoding of the query.  Of the host
    syntax it checks that a special scheme has a non-empty host without
    forbidden code points and that the port is a number below 65536; IDNA
    mapping, IPv4 number syntax and IPv6 literals are outside the model
    (a bracketed host is refused). *)

Module Whatwg.

Definition isAlpha (c : N) : bool :=
  ((65 <=? c) && (c <=? 90) || (97 <=? c) && (c <=? 122))%N.
Definition isDigit (c : N) : bool := ((48 <=? c) && (c <=? 57))%N.
Definition lower (c : N) : N :=
  if ((65 <=? c) && (c <=? 90))%N then (c + 32)%N else c.

(** Conversion to a scalar-value string: a surrogate without partner becomes
    U+FFFD. *)
Fixpoint usv (s : jsstring) : jsstring :=
  match s with
  | [] => []
  | c :: rest =>
      if Builtin.isLeadSurrogate c then
        match rest with
        | d :: rest' =>
            if Builtin.isTrailSurrogate d then c :: d :: usv rest'
            else 65533%N :: usv rest
        | [] => [65533%N]
        end
      else if Builtin.isTrailSurrogate c then 65533%N :: usv rest
      else c :: usv rest
  end.

(** Leading and trailing C0 controls and spaces are dropped, tabs and
    newlines are removed everywhere. *)
Fixpoint dropC0 (s : jsstring) : jsstring :=
  match s with
  | [] => []
  | c :: rest => if (c <=? 32)%N then dropC0 rest else s
  end.

Definition clean (s : jsstring) : jsstring :=
  filter (fun c => negb (N.eqb c 9 || N.eqb c 10 || N.eqb c 13))
         (rev (dropC0 (rev (dropC0 s)))).

(** [scheme ":"]: the lower-cased scheme and what follows the colon. *)
Fixpoint schemeRest (acc : jsstring) (s : jsstring)
  : option (jsstring * jsstring) :=
  match s with
  | [] => None
  | c :: rest =>
      if N.eqb c 58 then Some (rev acc, rest)
      else if isAlpha c || isDigit c || existsb (N.eqb c) [43; 45; 46]%N
      then schemeRest (lower c :: acc) rest
      else None
  end.

Definition splitScheme (s : jsstring) : option (jsstring * jsstring) :=
  match s with
  | c :: rest => if isAlpha c then schemeRest [lower c] rest else None
  | [] => None
  end.

Definition isSpecial (scheme : jsstring) : bool :=
  existsb (JsString.eqb scheme) [js "http"; js "https"; js "ws"; js "wss"; js "ftp"].

Fixpoint takeUntil (stop : N -> bool) (s : jsstring) : jsstring :=
  match s with
  | [] => []
  | c :: rest => if stop c then [] else c :: takeUntil stop rest
  end.

Fixpoint dropUntil (stop : N -> bool) (s : jsstring) : jsstring :=
  match s with
  | [] => []
  | c :: rest => if stop c then s else dropUntil stop rest
  end.

Fixpoint dropSlashes (s : jsstring) : jsstring :=
  match s with
  | [] => []
  | c :: rest => if N.eqb c 47 || N.eqb c 92 then dropSlashes rest else s
  end.

(** What follows the last [@] of an authority. *)
Fixpoint afterLastAt (s : jsstring) : jsstring :=
  match s with
  | [] => []
  | c :: rest =>
      if N.eqb c 64 && negb (existsb (N.eqb 64) rest) then rest
      else if existsb (N.eqb 64) rest then afterLastAt rest
      else s
  end.

Definition forbiddenHost (c : N) : bool :=
  ((c <=? 32) || (c =? 127) ||
   existsb (N.eqb c) [35; 37; 47; 58; 60; 62; 63; 64; 91; 92; 93; 94; 124])%N.

Fixpoint number (acc : N) (s : jsstring) : option N :=
  match s with
  | [] => Some acc
  | c :: rest =>
      if isDigit c then number (10 * acc + (c - 48))%N rest else None
  end.

Definition authorityOk (special : bool) (authority : jsstring) : bool :=
  let hostport := afterLastAt authority in
  let host := takeUntil (N.eqb 58) hostport in
  let port := match dropUntil (N.eqb 58) hostport with
              | _ :: p => p
              | [] => []
              end in
  match host with
  | [] => negb special &&
          match authority with [] => true | _ => false end
  | _ => negb (existsb forbiddenHost host) &&
         negb (existsb (fun c => (128 <=? c)%N) host)
  end &&
  match number 0 port with
  | Some n => (n <? 65536)%N
  | None => false
  end.

Definition endsAuthority (c : N) : bool :=
  N.eqb c 47 || N.eqb c 92 || N.eqb c 63 || N.eqb c 35.

(** Whether the constructor accepts what follows the scheme. *)
Definition restOk (scheme rest : jsstring) : bool :=
  if isSpecial scheme then
    authorityOk true (takeUntil endsAuthority (dropSlashes rest))
  else if JsString.eqb scheme (js "file") then
    match rest with
    | a :: b :: r =>
        if (N.eqb a 47 || N.eqb a 92) && (N.eqb b 47 || N.eqb b 92) then
          match takeUntil endsAuthority r with
          | [] => true
          | h => authorityOk true h
          end
        else true
    | _ => true
    end
  else
    match rest with
    | a :: b :: r =>
        if N.eqb a 47 && N.eqb b 47 then
          authorityOk false
            (takeUntil (fun c => N.eqb c 47 || N.eqb c 63 || N.eqb c 35) r)
        else true
    | _ => true
    end.

(** The query: between the first [?] and the first [#]. *)
Definition queryOf (rest : jsstring) : option jsstring :=
  match dropUntil (N.eqb 63) (takeUntil (N.eqb 35) rest) with
  | _ :: q => Some q
  | [] => None
  end.

Definition hexValue (c : N) : option N :=
  if isDigit c then Some (c - 48)%N
  else if ((65 <=? c) && (c <=? 70))%N then Some (c - 55)%N
  else if ((97 <=? c) && (c <=? 102))%N then Some (c - 87)%N
  else None.

(** The bytes of a name or value of the query: [+] is a space, [%XY] a
    byte, every other character its UTF-8 encoding. *)
Fixpoint formBytes (s : jsstring) : list N :=
  match s with
  | [] => []
  | c :: rest =>
      if N.eqb c 43 then 32%N :: formBytes rest
      else if N.eqb c 37 then
        match rest with
        | x :: y :: rest' =>
            match hexValue x, hexValue y with
            | Some h, Some l => (16 * h + l)%N :: formBytes rest'
            | _, _ => c :: formBytes rest
            end
        | _ => c :: formBytes rest
        end
      else if Builtin.isLeadSurrogate c then
        match rest with
        | d :: rest' =>
            Builtin.utf8 (Builtin.surrogatePair c d) ++ formBytes rest'
        | [] => Builtin.utf8 c
        end
      else Builtin.utf8 c ++ formBytes rest
  end.

(** State of the UTF-8 decoder: bytes needed, code point so far, bounds of
    the next byte. *)
Record Utf8State := mkUtf8 { needed : nat; point : N; lo : N; hi : N }.

Definition idle : Utf8State := mkUtf8 0 0 128 191.

Definition units (cp : N) : jsstring :=
  if (cp <? 65536)%N then [cp]
  else [55296 + (cp - 65536) / 1024; 56320 + (cp - 65536) mod 1024]%N.

Definition start (b : N) : jsstring * Utf8State :=
  (if b <? 128 then ([b], idle)
   else if (194 <=? b) && (b <=? 223) then ([], mkUtf8 1 (b - 192) 128 191)
   else if (224 <=? b) && (b <=? 239) then
     ([], mkUtf8 2 (b - 224) (if b =? 224 then 160 else 128)
                   (if b =? 237 then 159 else 191))
   else if (240 <=? b) && (b <=? 244) then
     ([], mkUtf8 3 (b - 240) (if b =? 240 then 144 else 128)
                   (if b =? 244 then 143 else 191))
   else ([65533], idle))%N.

Definition step (st : Utf8State) (b : N) : jsstring * Utf8State :=
  match needed st with
  | O => start b
  | S n =>
      if ((lo st <=? b) && (b <=? hi st))%N then
        let cp := (point st * 64 + (b - 128))%N in
        match n with
        | O => (units cp, idle)
        | _ => ([], mkUtf8 n cp 128 191)
        end
      else
        let (out, st') := start b in (65533%N :: out, st')
  end.

Fixpoint decode (st : Utf8State) (bytes : list N) : jsstring :=
  match bytes with
  | [] => match needed st with O => [] | _ => [65533%N] end
  | b :: rest => let (out, st') := step st b in out ++ decode st' rest
  end.

Definition formDecode (s : jsstring) : jsstring := decode idle (formBytes s).

(** The pieces of [s] between the occurrences of [sep]. *)
Fixpoint pieces (sep : N) (s : jsstring) : list jsstring :=
  match s with
  | [] => [[]]
  | c :: rest =>
      if N.eqb c sep then [] :: pieces sep rest
      else match pieces sep rest with
           | p :: ps => (c :: p) :: ps
           | [] => [[c]]
           end
  end.

(** [searchParams.get(name)] on a query. *)
Fixpoint get (name : jsstring) (pairs : list jsstring) : option jsstring :=
  match pairs with
  | [] => None
  | [] :: rest => get name rest
  | p :: rest =>
      if JsString.eqb (formDecode (takeUntil (N.eqb 61) p)) name then
        Some (formDecode match dropUntil (N.eqb 61) p with
                         | _ :: v => v
                         | [] => []
                         end)
      else get name rest
  end.

(** [new URL(s).searchParams.get('token')] *)
Definition URL_token (s : jsstring) : option (option jsstring) :=
  match splitScheme (clean (usv s)) with
  | None => None
  | Some (scheme, rest) =>
      if restOk scheme rest then
        match queryOf rest with
        | Some q => Some (get (js "token") (pieces 38 q))
        | None => Some None
        end
      else None
  end.

End Whatwg.

Local Close Scope handler_scope.

(** ** Notions and sample inputs used in the statements of Part II *)

Module Claims.
Import Shared.

(** The token that [rewriteResultUrl] can reach in a location: the
    [token] parameter of the strictly parsed URL when there is a non-empty
    one, otherwise the capture of the regular expression. *)
Definition reachableToken (URL_token : jsstring -> option (option jsstring))
    (resultUrl : Js.value) : option jsstring :=
  match URL_token (Js.toString resultUrl) with
  | Some (Some (c :: t)) => Some (c :: t)
  | _ => Builtin.tokenRegexExec (regexSubject resultUrl)
  end.

(** A string of UTF-16 code units: every element is below 65536. *)
Definition codeUnits (s : jsstring) : bool :=
  forallb (fun c => (c <? 65536)%N) s.

(** The characters of a percent-encoded component: the unreserved ones and
    the percent sign (the digits of an escape are unreserved). *)
Definition escaped (c : N) : bool :=
  Builtin.isUnreserved c || N.eqb c 37.

(** The characters that delimit the parts of a URL: [: / @ ? # & =]. *)
Definition delimiters : list N := [58; 47; 64; 63; 35; 38; 61]%N.

(** A location whose token spells the scheme, the host and the port of the
    backend it comes from. *)
Definition echoingLocation : jsstring :=
  js "https://backend.example:8443/results?token=https.backend.example.8443".

(** Replies after which the loop of [pollForReady] goes on to its wait. *)
Definition retried (r : Polling.Reply) : bool :=
  match r with
  | Polling.Response status _ => negb (N.eqb status 200)
  | Polling.FetchRejects e => negb (JsString.eqb (exnName e) (js "AbortError"))
  end.

(** The events of the iterations [a], [a + 1], ... that end in the waits
    [its], none of them leaving the loop. *)
Fixpoint retriedLog (env : Polling.Env) (url : jsstring) (its : list Z)
    (a : nat) : list Polling.Event :=
  match its with
  | [] => []
  | d :: its' =>
      Polling.EvFetch url :: snd (Polling.tryCatch env a) ++
      Polling.EvWait d :: retriedLog env url its' (S a)
  end.

(** A session whose first reply is the expired status and whose second
    reply is the result. *)
Definition expiredThenReady : Polling.Env :=
  Polling.mkEnv None true
    (fun k => match k with
              | O => Polling.Response 410 []
              | _ => Polling.Response 200 []
              end).

(** A session whose first two replies are the pending status and whose
    third reply is the result; no cancellation. *)
Definition twoPendingThenReady : Polling.Env :=
  Polling.mkEnv None true
    (fun k => match k with
              | 0 | 1 => Polling.Response 202 []
              | _ => Polling.Response 200 []
              end).

(** A session that stays pending and is cancelled during its second
    wait. *)
Definition cancelledInSecondWait : Polling.Env :=
  Polling.mkEnv (Some (Polling.InWait 1)) false
    (fun _ => Polling.Response 202 []).

(** A location as the proxy hands it out. *)
Definition sampleLocation : jsstring := js "/api/results?token=abc".

(** A session whose every reply is the expired status. *)
Definition alwaysExpired : Polling.Env :=
  Polling.mkEnv None false (fun _ => Polling.Response 410 []).


(** The double quote. *)
Definition dq : jsstring := [34%N].

(** [{"error":"Internal Server Error"}] *)
Definition genericBody : jsstring :=
  js "{" ++ dq ++ js "error" ++ dq ++ js ":" ++ dq ++
  js "Internal Server Error" ++ dq ++ js "}".


(** A step that makes no call to the backend. *)
Definition keepsCalls {A} (m : Http.M A) : Prop :=
  forall st, Http.calls (snd (m st)) = Http.calls st.

(** A backend that cannot be reached. *)
Definition unreachable (r : Http.UpRequest) : Exn + Http.UpResponse :=
  inl (TypeError "fetch failed").

(** A CSV text with the three-column header and [n] data rows. *)
Definition csvWithRows (n : nat) : jsstring :=
  js "userName,userLink,directMessage" ++
  concat (repeat (LF :: js "alice,https://x/alice,Hi") n).

(** A two-column CSV text: a blank line, a row, a row that ends with a
    comma, and a final line break. *)
Definition twoColumnCsv : jsstring :=
  js "userName,userLink" ++ [CR; LF] ++ [LF] ++
  js "alice,https://x/alice" ++ [LF] ++ js "bob,https://x/bob," ++ [LF].

(** A world with the backend configured and out of reach. *)
Definition configured : Http.World :=
  Http.mkWorld (Some (js "https://backend.example:8443/")) unreachable false.

(** A world without the base-URL setting. *)
Definition unconfigured : Http.World :=
  Http.mkWorld None unreachable false.

Definition post (body : jsstring) : Http.Request :=
  Http.mkRequest (js "POST") (js "/api/marketing/generate_dm_list")
                 (inr body).




Definition faultAnswer (tag : string) (maxAge : bool) (e : Exn) : Http.St :=
  snd (internalError tag maxAge e (snd (setCors maxAge Http.initial))).


(** [typeof v] is neither ['object'] nor ['undefined']: booleans, numbers
    and strings. *)
Definition primitive (v : Js.value) : bool :=
  match v with
  | Js.Bool _ | Js.Num _ | Js.Str _ => true
  | _ => false
  end.

(** The payload passes the tests that precede the one on [filters]. *)
Definition seedsValid (payload : Js.value) : bool :=
  match payload with
  | Js.Obj _ =>
      match GenerateLeads.field "seedUserNames" payload with
      | Js.Arr (u :: us) => negb (existsb GenerateLeads.badSeed (u :: us))
      | _ => false
      end
  | _ => false
  end.

(** [JSON.parse] as far as one text is concerned. *)
Definition parseOnly (text : jsstring) (v : Js.value) (s : jsstring)
  : option Js.value :=
  if JsString.eqb s text then Some v else None.

(** [new URL(s, 'http://localhost').search] as far as one request URL is
    concerned. *)
Definition searchOnly (url search : jsstring) (s : jsstring)
  : option jsstring :=
  if JsString.eqb s url then Some search else None.

Definition getResults : Http.Request :=
  Http.mkRequest (js "GET") sampleLocation (inr []).

(** [{ seedUserNames: ['alice'], filters }] *)
Definition leadsPayload (filters : Js.value) : Js.value :=
  Js.Obj [(js "seedUserNames", Js.Arr [Js.Str (js "alice")]);
          (js "filters", filters)].

(** The text of [leadsPayload Js.Null]. *)
Definition nullFiltersText : jsstring :=
  js "{" ++ dq ++ js "seedUserNames" ++ dq ++ js ":[" ++ dq ++ js "alice" ++
  dq ++ js "]," ++ dq ++ js "filters" ++ dq ++ js ":null}".

End Claims.

(** ** src/utils/polling.js: [waitForCsvText] *)

Module PollingText.
Import Polling.

(** What the second request of [waitForCsvText] gives: a response, with its
    status and what reading its text gives, or a rejection. *)
Inductive FinalReply :=
| FinalResponse (status : N) (text : Exn + jsstring)
| FinalRejects (e : Exn).

(** [waitForCsvText(resultUrl, { signal, onTick })]: poll until ready, then
    fetch the location once more and return its text. *)
Definition waitForCsvText (env : Env) (resultUrl : jsstring)
    (final : FinalReply) : (Exn + jsstring) * list Event :=
  match pollForReady env resultUrl with
  | (Rejected e, evs) => (inl e, evs)
  | (Resolved false, evs) =>
      (inl (mkExn (js "Error") (js "Result not ready") (Some 202%N)), evs)
  | (Resolved true, evs) =>
      match final with
      | FinalRejects e => (inl e, evs ++ [EvFetch resultUrl])
      | FinalResponse status text =>
          if negb (N.eqb status 200) then
            (inl (statusError
                    (js "Unexpected status " ++ digits status ++
                     match text with
                     | inr (c :: t) => js ": " ++ c :: t
                     | _ => []
                     end)
                    status),
             evs ++ [EvFetch resultUrl])
          else
            (text, evs ++ [EvFetch resultUrl])
      end
  end.

(** The time spent in the waits of a session, in milliseconds. *)
Fixpoint waited (log : list Event) : Z :=
  match log with
  | [] => 0
  | EvWait d :: rest => d + waited rest
  | _ :: rest => waited rest
  end.

Fixpoint total (l : list Z) : Z :=
  match l with
  | [] => 0
  | d :: rest => d + total rest
  end.

End PollingText.

(** ** src/components/CsvInput.vue and src/pages/Twitter.vue *)

Module Client.

Definition REQUIRED_HEADER : jsstring := js "userName,userLink,directMessage".
Definition MAX_TARGETS : nat := 300.

(** The props that [validate] reads. *)
Record Props := mkProps {
  requiredHeader : jsstring;
  allowedHeaders : list jsstring;
  maxRows : nat
}.

Definition defaultProps : Props :=
  mkProps REQUIRED_HEADER [REQUIRED_HEADER; js "userName,userLink"]
          MAX_TARGETS.

(** What [validate] emits as ['validity']. *)
Inductive Validity :=
| Ok (count : nat)
| NotOk (reason : jsstring).

(** What [validate] leaves behind: the emitted validity and the refs
    [error], [info] and [rows]. *)
Record Validated := mkValidated {
  emitted : Validity;
  error : jsstring;
  info : jsstring;
  rows : nat
}.

(** [validate()] of CsvInput.vue on the text [text.value]. *)
Definition validate (props : Props) (text : jsstring) : Validated :=
  let t := stripBOM text in
  match trim t with
  | [] => mkValidated (NotOk (js "EMPTY")) [] [] 0
  | _ =>
      let lines := splitLines t in
      let header := trim (hd [] lines) in
      let allowed :=
        match allowedHeaders props with
        | [] => [match requiredHeader props with
                 | [] => REQUIRED_HEADER
                 | h => h
                 end]
        | l => l
        end in
      if negb (existsb (JsString.eqb header) allowed) then
        mkValidated (NotOk (js "INVALID_HEADER"))
          (js "Invalid header. Expected one of: " ++
           join (js " | ") allowed ++ js ".") [] 0
      else
        let count := GenerateDmList.rowCount lines in
        if Nat.eqb count 0 then
          mkValidated (NotOk (js "EMPTY_ROWS"))
                      (js "No rows found after header.") [] count
        else if negb (Nat.eqb (maxRows props) 0) &&
                Nat.ltb (maxRows props) count then
          mkValidated (NotOk (js "TOO_MANY_ROWS"))
            (js "Too many rows: " ++ digits (N.of_nat count) ++
             js ". Maximum allowed is " ++
             digits (N.of_nat (maxRows props)) ++ js ".") [] count
        else
          mkValidated (Ok count) []
            (js "Validated " ++ digits (N.of_nat count) ++ js " rows.")
            count
  end.

(** [/[\s,]/]: white space, line terminators and the comma. *)
Definition isSeparator (c : N) : bool := isWhiteSpace c || N.eqb c 44.

(** [s.split(/[\s,]+/)]: the pieces between the maximal runs of
    separators; [inRun] tells that the preceding character was a
    separator. *)
Fixpoint splitRuns (inRun : bool) (s : jsstring) : list jsstring :=
  match s with
  | [] => [[]]
  | c :: rest =>
      if isSeparator c then
        if inRun then splitRuns true rest else [] :: splitRuns true rest
      else
        match splitRuns false rest with
        | l :: ls => (c :: l) :: ls
        | [] => [[c]]
        end
  end.

(** [parseSeedUsernames(text)] of Twitter.vue. *)
Definition parseSeedUsernames (text : jsstring) : list jsstring :=
  filter (fun s => match s with [] => false | _ => true end)
         (map trim (splitRuns false text)).

(** The body that [submitLeads] serializes, or the message it shows instead
    of submitting.  [JSON_parse] is [JSON.parse]; the message of its
    [SyntaxError] is [parseMessage]. *)
Definition leadsRequest (JSON_parse : jsstring -> option Js.value)
    (parseMessage : jsstring) (seedUsernamesInput filtersInput : jsstring)
  : jsstring + Js.value :=
  match parseSeedUsernames seedUsernamesInput with
  | [] => inl (js "Please provide at least one seed username.")
  | seeds =>
      let seedUserNames := Js.Arr (map Js.Str seeds) in
      match trim filtersInput with
      | [] => inr (Js.Obj [(js "seedUserNames", seedUserNames)])
      | _ =>
          match JSON_parse filtersInput with
          | None =>
              inl match parseMessage with
                  | [] => js "Invalid filters JSON."
                  | m => m
                  end
          | Some filters =>
              if negb (JsString.eqb (Js.typeof filters) (js "object")) ||
                 match filters with Js.Null => true | _ => false end
              then inl (js "Filters must be a JSON object.")
              else inr (Js.Obj [(js "seedUserNames", seedUserNames);
                                (js "filters", filters)])
          end
      end
  end.

End Client.

(** ** What the answers of the handlers are made of *)

Module Answers.
Import Http.

(** The headers that [setCors] sets. *)
Definition corsHeaders (maxAge : bool) : list (jsstring * jsstring) :=
  [(js "Access-Control-Allow-Origin", js "*");
   (js "Access-Control-Allow-Methods", js "POST, GET, OPTIONS");
   (js "Access-Control-Allow-Headers", js "Content-Type")] ++
  if maxAge then [(js "Access-Control-Max-Age", js "86400")] else [].

(** The value of a header of the answer. *)
Fixpoint headerOf (k : jsstring) (h : list (jsstring * jsstring))
  : option jsstring :=
  match h with
  | [] => None
  | (k', v) :: rest => if JsString.eqb k' k then Some v else headerOf k rest
  end.

Definition getHeader (k : string) (st : St) : option jsstring :=
  headerOf (js k) (headers (res st)).

(** The answer carries the headers of [setCors], in front of the others. *)
Definition hasCors (maxAge : bool) (st : St) : Prop :=
  exists rest, headers (res st) = corsHeaders maxAge ++ rest.

(** [JSON.stringify({ error, code })] *)
Definition rejectionBody (error code : jsstring) : jsstring :=
  js "{" ++ JSON.quote (js "error") ++ js ":" ++ JSON.quote error ++
  js "," ++ JSON.quote (js "code") ++ js ":" ++ JSON.quote code ++ js "}".

(** [JSON.stringify({ error: 'Stream Error' })] *)
Definition streamErrorBody : jsstring :=
  js "{" ++ JSON.quote (js "error") ++ js ":" ++
  JSON.quote (js "Stream Error") ++ js "}".

Definition jsonType : jsstring * jsstring :=
  (js "Content-Type", js "application/json; charset=utf-8").

Definition textType : jsstring * jsstring :=
  (js "Content-Type", js "text/plain; charset=utf-8").

(** The calls that the handlers make to the backend. *)
Definition dmListCall (base csvText : jsstring) : UpRequest :=
  mkUpRequest (base ++ js "/marketing/generate_dm_list") (js "POST")
              (Some (js "text/csv"))
              (Some (GenerateDmList.csvToSend csvText)).

Definition leadsCall (base : jsstring) (payload : Js.value) : UpRequest :=
  mkUpRequest (base ++ js "/marketing/generate_leads") (js "POST")
              (Some (js "application/json")) (JSON.stringify payload).

Definition resultsCall (base search : jsstring) : UpRequest :=
  mkUpRequest (base ++ js "/results" ++ search) (js "GET") None None.

(** [res.end(JSON.stringify(v))] as a list of chunks. *)
Definition jsonChunk (v : Js.value) : list Chunk :=
  match JSON.stringify v with
  | Some t => [Text t]
  | None => []
  end.

(** The headers that the results handler takes from the backend for a
    result: the content type, or [text/csv] when there is none, and the
    content disposition when there is one. *)
Definition resultHeaders (up : UpResponse) : list (jsstring * jsstring) :=
  (js "Content-Type",
   orElse (contentType up) (js "text/csv; charset=utf-8")) ::
  match contentDisposition up with
  | Some (c :: cd) => [(js "Content-Disposition", c :: cd)]
  | _ => []
  end.

(** What the results handler does with the backend's answer: the part of
    [Results.handlerBody] after the call of [fetch]. *)
Definition relayResult (w : World) (up : UpResponse) : M unit :=
  (setStatus (status up) ;;
   if N.eqb (status up) 202 then
     setHeader "Content-Type" "application/json; charset=utf-8" ;;
     j <- lift (json up) ;;
     endJson j
   else if N.eqb (status up) 200 then
     setHeaderValue "Content-Type"
       (orElse (contentType up) (js "text/csv; charset=utf-8")) ;;
     match contentDisposition up with
     | Some (c :: cd) => setHeaderValue "Content-Disposition" (c :: cd)
     | _ => ret tt
     end ;;
     match bodyStream up, canStream w with
     | Some t, true => Results.pipe t
     | _, _ =>
         buf <- lift (Results.arrayBuffer up) ;;
         setHeaderValue "Content-Length" (digits (N.of_nat (length buf))) ;;
         endWith (Some (Bytes buf))
     end
   else Shared.relayBody up)%handler.

(** A step that keeps the headers of [setCors] in place. *)
Definition keepsCors {A} (maxAge : bool) (m : M A) : Prop :=
  forall st, hasCors maxAge st -> hasCors maxAge (snd (m st)).

(** Nothing has been written and nothing logged. *)
Definition silent (st : St) : Prop :=
  written (res st) = [] /\ console st = [].

(** A step that, when it completes, has written and logged nothing, and
    when it throws, has not either. *)
Definition quiet {A} (m : M A) : Prop :=
  forall st, silent st -> silent (snd (m st)).

(** A step that does not throw. *)
Definition neverThrows {A} (m : M A) : Prop :=
  forall st, exists a, fst (m st) = inr a.

(** A step that, started before anything is written, has written and
    logged nothing when it throws. *)
Definition cleanThrow {A} (m : M A) : Prop :=
  forall st e, silent st -> fst (m st) = inl e -> silent (snd (m st)).

End Answers.

(** ** Lines, for the statements of Part III *)

Module Lines.

(** A line without the carriage return that ends it, if there is one. *)
Fixpoint chopCR (s : jsstring) : jsstring :=
  match s with
  | [] => []
  | c :: rest =>
      match rest with
      | [] => if N.eqb c CR then [] else [c]
      | _ => c :: chopCR rest
      end
  end.

(** All lines but the last without their final carriage return. *)
Fixpoint chopAll (ls : list jsstring) : list jsstring :=
  match ls with
  | [] => []
  | [x] => [x]
  | x :: rest => chopCR x :: chopAll rest
  end.

End Lines.

(** ** The browser side, for the statements of Part III *)

Module ClientFacts.
Import Client.

(** The code that the proxy's validator gives for a text on which the
    component emits the reason [r]: the component tells the empty text
    apart, the proxy reads it as a text without header. *)
Definition proxyCode (r : jsstring) : jsstring :=
  if JsString.eqb r (js "EMPTY") then js "INVALID_HEADER" else r.

Definition nonEmpty (s : jsstring) : bool :=
  match s with [] => false | _ => true end.

(** No character of the string is white space or a comma. *)
Definition clean (s : jsstring) : bool :=
  forallb (fun c => negb (isSeparator c)) s.

(** An object filter as the form's text field gives it. *)
Definition sampleFilters : Js.value :=
  Js.Obj [(js "followersMin", Js.Num (js "10"))].

Definition sampleFiltersText : jsstring :=
  js "{" ++ Claims.dq ++ js "followersMin" ++ Claims.dq ++ js ": 10}".

End ClientFacts.

(** ** Sample inputs for Part III *)

Module Samples.

(** A session that stays pending, without cancellation. *)
Definition alwaysPending : Polling.Env :=
  Polling.mkEnv None false (fun _ => Polling.Response 202 []).

(** A session whose second fetch is aborted in flight. *)
Definition abortedInFlight : Polling.Env :=
  Polling.mkEnv None false
    (fun k => match k with
              | O => Polling.Response 202 []
              | _ => Polling.FetchRejects Polling.AbortError
              end).

(** A session that is ready at once. *)
Definition readyAtOnce : Polling.Env :=
  Polling.mkEnv None false (fun _ => Polling.Response 200 []).

(** A world whose backend gives the same answer to every call. *)
Definition answering (canStream : bool) (up : Http.UpResponse) : Http.World :=
  Http.mkWorld (Some (js "https://backend.example:8443/"))
               (fun _ => inr up) canStream.

Definition backendBase : jsstring := js "https://backend.example:8443".

Definition notJson : Exn :=
  mkExn (js "SyntaxError") (js "Unexpected token") None.

Definition jobFields : list (jsstring * Js.value) :=
  [(js "turnId", Js.Str (js "t1"));
   (js "resultUrl",
    Js.Str (js "https://backend.example:8443/results?token=abc"));
   (js "count", Js.Num (js "1"))].

(** The backend accepts a job. *)
Definition accepted : Http.UpResponse :=
  Http.mkUpResponse 202 (Some (js "application/json"))
    None (inr (Js.Obj jobFields)) (inl notJson) None.

(** The backend refuses a submission with a plain text. *)
Definition refused : Http.UpResponse :=
  Http.mkUpResponse 422 (Some (js "text/plain")) None (inl notJson)
    (inr (js "no usable rows")) None.

(** The result is not ready. *)
Definition pendingResult : Http.UpResponse :=
  Http.mkUpResponse 202 (Some (js "application/json")) None
    (inr (Js.Obj [(js "ready", Js.Bool false)])) (inl notJson) None.

Definition csvBytes : list N := [97; 44; 98; 10]%N.

(** The result, as a stream that arrives whole. *)
Definition readyResult : Http.UpResponse :=
  Http.mkUpResponse 200 (Some (js "text/csv; charset=utf-8"))
    (Some (js "attachment; filename=leads.csv")) (inl notJson)
    (inr (js "a,b")) (Some (Http.Complete csvBytes)).

Definition resetByPeer : Exn :=
  mkExn (js "Error") (js "socket hang up") None.

(** The result, as a stream that breaks after two bytes. *)
Definition brokenResult : Http.UpResponse :=
  Http.mkUpResponse 200 (Some (js "text/csv; charset=utf-8"))
    None (inl notJson) (inr (js "a,b"))
    (Some (Http.Broken [97; 44]%N resetByPeer)).

Definition tokenSearch : jsstring := js "?token=abc".

(** A request of another method than the handlers serve. *)
Definition deleteRequest : Http.Request :=
  Http.mkRequest (js "DELETE") Claims.sampleLocation (inr []).

End Samples.

(* ================================================================== *)
(** * Part II: properties                                              *)
(* ================================================================== *)

(** ** The backoff generator *)

Section Backoff.
Import Polling.

Lemma backoffLoop_length n a b cap : length (backoffLoop n a b cap) = n.
Proof.
  revert a b; induction n as [|n IH]; intros a b; simpl; [reflexivity|].
  now rewrite IH.
Qed.


(** The generator is finite: it yields exactly [maxAttempts] delays. *)
Lemma backoffIterator_length maxAttempts capMs :
  length (backoffIterator maxAttempts capMs) = maxAttempts.
Proof. apply backoffLoop_length. Qed.


(** C2 (the code at its default parameters): the first six delays are
    2000, 3000, 5000, 8000, 13000, 15000.  The second delay is 3000, not a
    second 2000 as the documentation of [backoffIterator] announces, and the
    sixth is already the cap. *)
Theorem backoff_first_six :
  firstn 6 (backoffIterator defaultMaxAttempts defaultCapMs)
  = [2000; 3000; 5000; 8000; 13000; 15000]%Z.
Proof. vm_compute. reflexivity. Qed.

(** The sequence of the documentation is not what the generator yields. *)
Lemma backoff_not_as_documented :
  firstn 6 (backoffIterator defaultMaxAttempts defaultCapMs)
  <> [2000; 2000; 3000; 5000; 8000; 13000]%Z.
Proof. intro H. vm_compute in H. discriminate H. Qed.

(** From the sixth delay on, every delay is the cap. *)
Lemma backoff_then_capped :
  skipn 5 (backoffIterator defaultMaxAttempts defaultCapMs)
  = repeat 15000%Z 55.
Proof. vm_compute. reflexivity. Qed.

Lemma backoff_default_unfold :
  backoffIterator defaultMaxAttempts defaultCapMs
  = (2000 :: 3000 :: backoffLoop 58 3000 5000 15000)%Z.
Proof. vm_compute. reflexivity. Qed.

End Backoff.

(** ** The polling loop *)

Section PollingSession.
Import Polling Claims.

Lemma tick_ticks env a s m : forallb isTick (tick env a s m) = true.
Proof. unfold tick; destruct (onTick env); reflexivity. Qed.

Lemma tryBlock_ticks env a : forallb isTick (snd (tryBlock env a)) = true.
Proof.
  unfold tryBlock.
  destruct (reply env a) as [status text | e]; [|reflexivity].
  repeat match goal with
         | |- context [if ?c then _ else _] => destruct c
         end; simpl; apply tick_ticks.
Qed.

(** What one iteration reports is made of ticks only. *)
Lemma tryCatch_ticks env a : forallb isTick (snd (tryCatch env a)) = true.
Proof.
  unfold tryCatch.
  pose proof (tryBlock_ticks env a) as Hb.
  destruct (tryBlock env a) as [[| |e] evs]; simpl in *; try exact Hb.
  unfold catchClause.
  destruct (JsString.eqb (exnName e) (js "AbortError")); simpl.
  - now rewrite forallb_app, Hb.
  - now rewrite forallb_app, Hb, tick_ticks.
Qed.

Lemma ticks_no_fetch evs :
  forallb isTick evs = true -> filter isFetch evs = [].
Proof.
  induction evs as [|[] evs IH]; simpl; intros H; try discriminate; auto.
Qed.

Lemma ticks_no_wait evs :
  forallb isTick evs = true -> filter isWait evs = [].
Proof.
  induction evs as [|[] evs IH]; simpl; intros H; try discriminate; auto.
Qed.

Lemma ticks_no_download evs :
  forallb isTick evs = true -> filter isDownload evs = [].
Proof.
  induction evs as [|[] evs IH]; simpl; intros H; try discriminate; auto.
Qed.

(** The errors that the loop creates for a status are named ['Error']. *)
Lemma statusError_not_abort msg status :
  JsString.eqb (exnName (statusError msg status)) (js "AbortError") = false.
Proof. reflexivity. Qed.

(** After a reply that is neither the result nor an abort, the iteration
    reaches the wait: this includes the statuses 400 and 410, whose errors
    are thrown inside the [try] block and caught by its own [catch]. *)
Lemma tryCatch_retried env a :
  retried (reply env a) = true -> fst (tryCatch env a) = Normal.
Proof.
  unfold retried, tryCatch, tryBlock.
  destruct (reply env a) as [status text | e]; simpl.
  - intros H. apply negb_true_iff in H. rewrite H.
    repeat match goal with
           | |- context [if ?c then _ else _] => destruct c
           end; reflexivity.
  - intros H. apply negb_true_iff in H.
    unfold catchClause. rewrite H. reflexivity.
Qed.

Lemma tryCatch_ready env a text :
  reply env a = Response 200 text ->
  tryCatch env a = (Return, tick env a 200 (js "ready")).
Proof. intros H. unfold tryCatch, tryBlock. rewrite H. reflexivity. Qed.

Lemma tryCatch_pending env a text :
  reply env a = Response 202 text ->
  tryCatch env a = (Normal, tick env a 202 (js "not ready")).
Proof. intros H. unfold tryCatch, tryBlock. rewrite H. reflexivity. Qed.

(** One iteration that nothing interrupts and whose reply is retried. *)
Lemma pollLoop_step env url d it a :
  abortedAtEntry env a = false ->
  abortedInWait env a = false ->
  retried (reply env a) = true ->
  pollLoop env url (d :: it) a =
  (fst (pollLoop env url it (S a)),
   EvFetch url :: snd (tryCatch env a) ++
   EvWait d :: snd (pollLoop env url it (S a))).
Proof.
  intros He Hw Hr. apply tryCatch_retried in Hr.
  cbn [pollLoop]. rewrite He.
  destruct (tryCatch env a) as [c evs]; simpl in Hr; subst c.
  rewrite Hw. destruct (pollLoop env url it (S a)); reflexivity.
Qed.

(** As long as nothing interrupts the session and every reply is retried,
    the loop runs through its iterations. *)
Lemma pollLoop_prefix env url its1 : forall its2 a,
  (forall j, a <= j < a + length its1 ->
     abortedAtEntry env j = false /\ abortedInWait env j = false /\
     retried (reply env j) = true) ->
  pollLoop env url (its1 ++ its2) a =
  (fst (pollLoop env url its2 (a + length its1)),
   retriedLog env url its1 a ++
   snd (pollLoop env url its2 (a + length its1))).
Proof.
  induction its1 as [|d its1 IH]; intros its2 a H.
  - simpl. rewrite Nat.add_0_r. now destruct (pollLoop env url its2 a).
  - destruct (H a) as (He & Hw & Hr); [simpl; lia|].
    simpl app. rewrite (pollLoop_step _ _ _ _ _ He Hw Hr).
    rewrite IH.
    + simpl length. replace (S a + length its1) with (a + S (length its1))
        by lia.
      simpl. now rewrite <- app_assoc.
    + intros j Hj. apply H. simpl. lia.
Qed.

Lemma retriedLog_fetchCalls env url its a :
  fetchCalls (retriedLog env url its a) = length its.
Proof.
  unfold fetchCalls. revert a; induction its as [|d its IH]; intros a.
  - reflexivity.
  - simpl. rewrite filter_app, (ticks_no_fetch _ (tryCatch_ticks env a)).
    simpl. now rewrite IH.
Qed.

Lemma retriedLog_waits env url its a :
  waits (retriedLog env url its a) = length its.
Proof.
  unfold waits. revert a; induction its as [|d its IH]; intros a.
  - reflexivity.
  - simpl. rewrite filter_app, (ticks_no_wait _ (tryCatch_ticks env a)).
    simpl. now rewrite IH.
Qed.

Lemma retriedLog_downloads env url its a :
  downloads (retriedLog env url its a) = 0.
Proof.
  unfold downloads. revert a; induction its as [|d its IH]; intros a.
  - reflexivity.
  - simpl. rewrite filter_app, (ticks_no_download _ (tryCatch_ticks env a)).
    simpl. now rewrite IH.
Qed.

Lemma fetchCalls_app l1 l2 :
  fetchCalls (l1 ++ l2) = fetchCalls l1 + fetchCalls l2.
Proof. unfold fetchCalls. now rewrite filter_app, length_app. Qed.

Lemma waits_app l1 l2 : waits (l1 ++ l2) = waits l1 + waits l2.
Proof. unfold waits. now rewrite filter_app, length_app. Qed.

Lemma downloads_app l1 l2 :
  downloads (l1 ++ l2) = downloads l1 + downloads l2.
Proof. unfold downloads. now rewrite filter_app, length_app. Qed.

(** The events of an iteration that is interrupted in its wait: one fetch
    call, one wait, no download. *)
Lemma interrupted_counts url evs d :
  forallb isTick evs = true ->
  fetchCalls (EvFetch url :: evs ++ [EvWait d]) = 1 /\
  waits (EvFetch url :: evs ++ [EvWait d]) = 1 /\
  downloads (EvFetch url :: evs ++ [EvWait d]) = 0.
Proof.
  intros H. unfold fetchCalls, waits, downloads.
  cbn [filter isFetch isWait isDownload].
  rewrite !filter_app, (ticks_no_fetch _ H), (ticks_no_wait _ H),
    (ticks_no_download _ H).
  repeat split.
Qed.

Lemma pollLoop_aborted env url it a :
  abortedAtEntry env a = true ->
  pollLoop env url it a = (Rejected AbortError, []).
Proof. intros H. destruct it; cbn [pollLoop]; now rewrite H. Qed.

Lemma pollLoop_ready env url it a text :
  abortedAtEntry env a = false ->
  reply env a = Response 200 text ->
  pollLoop env url it a =
  (Resolved true, EvFetch url :: tick env a 200 (js "ready")).
Proof.
  intros He Hr.
  destruct it; cbn [pollLoop]; rewrite He, (tryCatch_ready _ _ _ Hr);
    reflexivity.
Qed.

Lemma pollLoop_interrupted env url d it a :
  abortedAtEntry env a = false ->
  abortedInWait env a = true ->
  retried (reply env a) = true ->
  pollLoop env url (d :: it) a =
  (Rejected AbortError, EvFetch url :: snd (tryCatch env a) ++ [EvWait d]).
Proof.
  intros He Hw Hr. apply tryCatch_retried in Hr.
  cbn [pollLoop]. rewrite He.
  destruct (tryCatch env a) as [c evs]; simpl in Hr; subst c.
  now rewrite Hw.
Qed.

Lemma skipn_nth {A} (d : A) (l : list A) : forall k,
  k < length l -> skipn k l = nth k l d :: skipn (S k) l.
Proof.
  induction l as [|x l IH]; intros k Hk; simpl in Hk; [lia|].
  destruct k as [|k]; [reflexivity|].
  simpl. rewrite (IH k) by lia. reflexivity.
Qed.

(** C4: when the first two replies are the pending status and the third is
    the result, and no cancellation is signalled, [waitAndDownload] resolves;
    its events are, in this order, three fetch calls with a wait after the
    first and after the second, and one download after the third. *)
Theorem pending_pending_ready env url t0 t1 t2 :
  signal env = None ->
  reply env 0 = Response 202 t0 ->
  reply env 1 = Response 202 t1 ->
  reply env 2 = Response 200 t2 ->
  let log := snd (waitAndDownload env url) in
  fst (waitAndDownload env url) = Resolved true /\
  log = EvFetch url :: tick env 0 202 (js "not ready") ++
        EvWait 2000 ::
        EvFetch url :: tick env 1 202 (js "not ready") ++
        EvWait 3000 ::
        EvFetch url :: tick env 2 200 (js "ready") ++
        [EvDownload url] /\
  fetchCalls log = 3 /\ waits log = 2 /\ downloads log = 1.
Proof.
  intros Hs H0 H1 H2.
  assert (He : forall j, abortedAtEntry env j = false)
    by (intros j; unfold abortedAtEntry; now rewrite Hs).
  assert (Hw : forall j, abortedInWait env j = false)
    by (intros j; unfold abortedInWait; now rewrite Hs).
  assert (Hrun : waitAndDownload env url =
    (Resolved true,
     EvFetch url :: tick env 0 202 (js "not ready") ++
     EvWait 2000 ::
     EvFetch url :: tick env 1 202 (js "not ready") ++
     EvWait 3000 ::
     EvFetch url :: tick env 2 200 (js "ready") ++
     [EvDownload url])).
  { unfold waitAndDownload, pollForReady. rewrite backoff_default_unfold.
    rewrite pollLoop_step; auto; [|now rewrite H0].
    rewrite pollLoop_step; auto; [|now rewrite H1].
    rewrite (pollLoop_ready _ url _ _ _ (He 2) H2).
    rewrite (tryCatch_pending _ _ _ H0), (tryCatch_pending _ _ _ H1).
    cbn [fst snd triggerBrowserDownload].
    repeat (progress cbn [app] || rewrite <- app_assoc). reflexivity. }
  cbv zeta. rewrite Hrun. cbn [fst snd].
  repeat split.
  - unfold fetchCalls.
    repeat (cbn [filter isFetch app]; rewrite filter_app,
            (ticks_no_fetch _ (tick_ticks _ _ _ _))).
    reflexivity.
  - unfold waits.
    repeat (cbn [filter isWait app]; rewrite filter_app,
            (ticks_no_wait _ (tick_ticks _ _ _ _))).
    reflexivity.
  - unfold downloads.
    repeat (cbn [filter isDownload app]; rewrite filter_app,
            (ticks_no_download _ (tick_ticks _ _ _ _))).
    reflexivity.
Qed.

Lemma pending_pending_ready_witness :
  let log := snd (waitAndDownload twoPendingThenReady sampleLocation) in
  fetchCalls log = 3 /\ waits log = 2 /\ downloads log = 1.
Proof.
  destruct (pending_pending_ready twoPendingThenReady sampleLocation
              [] [] [] eq_refl eq_refl eq_refl eq_refl) as (_ & _ & H).
  exact H.
Defined.

(** The session up to a cancellation found at the entry of iteration
    [k]. *)
Lemma cancelled_at_entry env url k :
  k <= defaultMaxAttempts ->
  (forall j, j < k -> retried (reply env j) = true) ->
  signal env = Some (AtEntry k) ->
  waitAndDownload env url =
  (Rejected AbortError,
   retriedLog env url
     (firstn k (backoffIterator defaultMaxAttempts defaultCapMs)) 0).
Proof.
  intros Hk Hr Hs.
  unfold waitAndDownload, pollForReady.
  set (its := backoffIterator defaultMaxAttempts defaultCapMs).
  assert (Hlen : length (firstn k its) = k).
  { rewrite length_firstn. unfold its.
    rewrite backoffIterator_length. lia. }
  rewrite <- (firstn_skipn k its) at 1.
  rewrite pollLoop_prefix.
  - rewrite Hlen. cbn [Nat.add].
    rewrite pollLoop_aborted.
    + cbn [fst snd]. now rewrite app_nil_r.
    + unfold abortedAtEntry. rewrite Hs. apply Nat.leb_refl.
  - rewrite Hlen. intros j Hj. repeat split.
    + unfold abortedAtEntry. rewrite Hs. apply Nat.leb_gt. lia.
    + unfold abortedInWait. now rewrite Hs.
    + apply Hr. lia.
Qed.

(** The session up to a cancellation that fires during the wait of
    iteration [k]. *)
Lemma cancelled_in_wait env url k :
  k < defaultMaxAttempts ->
  (forall j, j <= k -> retried (reply env j) = true) ->
  signal env = Some (InWait k) ->
  waitAndDownload env url =
  (Rejected AbortError,
   retriedLog env url
     (firstn k (backoffIterator defaultMaxAttempts defaultCapMs)) 0 ++
   EvFetch url :: snd (tryCatch env k) ++
   [EvWait (nth k (backoffIterator defaultMaxAttempts defaultCapMs) 0%Z)]).
Proof.
  intros Hk Hr Hs.
  unfold waitAndDownload, pollForReady.
  set (its := backoffIterator defaultMaxAttempts defaultCapMs).
  assert (Hits : length its = defaultMaxAttempts)
    by apply backoffIterator_length.
  assert (Hlen : length (firstn k its) = k)
    by (rewrite length_firstn; lia).
  rewrite <- (firstn_skipn k its) at 1.
  rewrite pollLoop_prefix.
  - rewrite Hlen. cbn [Nat.add].
    rewrite (skipn_nth 0%Z its k) by lia.
    rewrite pollLoop_interrupted.
    + reflexivity.
    + unfold abortedAtEntry. now rewrite Hs.
    + unfold abortedInWait. rewrite Hs. apply Nat.eqb_refl.
    + apply Hr. lia.
  - rewrite Hlen. intros j Hj. repeat split.
    + unfold abortedAtEntry. now rewrite Hs.
    + unfold abortedInWait. rewrite Hs. apply Nat.eqb_neq. lia.
    + apply Hr. lia.
Qed.

(** C7: a cancellation found by the check that opens iteration [k] (for
    [k = 0]: the signal was aborted before the call), or one that fires
    during the wait of iteration [k], ends the session at once with the
    [AbortError]: the log stops there, no fetch call follows (none at all
    when the signal was aborted at the first entry), and there is no
    download. *)
Theorem cancellation_stops_session env url k :
  k < defaultMaxAttempts ->
  (forall j, j < k -> retried (reply env j) = true) ->
  let its := backoffIterator defaultMaxAttempts defaultCapMs in
  let result := waitAndDownload env url in
  (signal env = Some (AtEntry k) ->
     result = (Rejected AbortError, retriedLog env url (firstn k its) 0) /\
     fetchCalls (snd result) = k /\ downloads (snd result) = 0) /\
  (signal env = Some (InWait k) -> retried (reply env k) = true ->
     result = (Rejected AbortError,
               retriedLog env url (firstn k its) 0 ++
               EvFetch url :: snd (tryCatch env k) ++ [EvWait (nth k its 0%Z)])
     /\
     fetchCalls (snd result) = S k /\ waits (snd result) = S k /\
     downloads (snd result) = 0).
Proof.
  intros Hk Hr its result.
  assert (Hlen : length (firstn k its) = k).
  { rewrite length_firstn. unfold its.
    rewrite backoffIterator_length. lia. }
  split.
  - intros Hs. unfold result.
    rewrite (cancelled_at_entry env url k) by (auto; lia).
    fold its. cbn [snd].
    rewrite retriedLog_fetchCalls, retriedLog_downloads, Hlen. auto.
  - intros Hs Hrk. unfold result.
    rewrite (cancelled_in_wait env url k); auto.
    + fold its. cbn [snd]. split; [reflexivity|].
      rewrite fetchCalls_app, waits_app, downloads_app.
      rewrite retriedLog_fetchCalls, retriedLog_waits, retriedLog_downloads.
      rewrite Hlen.
      destruct (interrupted_counts url (snd (tryCatch env k)) (nth k its 0%Z)
                  (tryCatch_ticks env k)) as (-> & -> & ->).
      repeat split; lia.
    + intros j Hj. destruct (Nat.eq_dec j k) as [->|]; [exact Hrk|].
      apply Hr. lia.
Qed.

Lemma cancellation_stops_session_witness :
  waitAndDownload cancelledInSecondWait sampleLocation =
  (Rejected AbortError,
   [EvFetch sampleLocation; EvWait 2000;
    EvFetch sampleLocation; EvWait 3000]).
Proof.
  assert (Hk : 1 < defaultMaxAttempts) by (unfold defaultMaxAttempts; lia).
  destruct (cancellation_stops_session cancelledInSecondWait sampleLocation 1
              Hk (fun j _ => eq_refl)) as [_ H].
  destruct (H eq_refl eq_refl) as [Hrun _].
  rewrite Hrun. vm_compute. reflexivity.
Defined.

(** C1 (the code on an expired first reply): the error that the loop
    creates for status 410 is caught by the [catch] of the same iteration,
    reported a second time with status 0, and the loop waits and fetches
    again.  With the result as second reply the session resolves and the
    download is triggered. *)
Theorem expired_first_reply_is_retried :
  waitAndDownload expiredThenReady sampleLocation =
  (Resolved true,
   [EvFetch sampleLocation;
    EvTick 0 410 (js "Result expired. Please start a new job.");
    EvTick 0 0 (js "Result expired. Please start a new job.");
    EvWait 2000;
    EvFetch sampleLocation;
    EvTick 1 200 (js "ready");
    EvDownload sampleLocation]).
Proof. vm_compute. reflexivity. Qed.

(** When every reply is the expired status the session ends only when the
    backoff sequence is exhausted: 61 fetch calls, 60 waits, and the
    timed-out error instead of the expired one. *)
Lemma always_expired_times_out :
  let result := waitAndDownload alwaysExpired sampleLocation in
  fst result = Rejected (statusError (js "Polling timed out") 504) /\
  fetchCalls (snd result) = 61 /\ waits (snd result) = 60 /\
  downloads (snd result) = 0.
Proof. vm_compute. repeat split. Qed.

(** An iteration that is entered issues its fetch call first. *)
Lemma pollLoop_fetches env url it a :
  abortedAtEntry env a = false ->
  exists rest, snd (pollLoop env url it a) = EvFetch url :: rest.
Proof.
  intros He.
  destruct it as [|d it]; cbn [pollLoop]; rewrite He;
    destruct (tryCatch env a) as [[| |e] evs]; cbn [snd];
    try (eexists; reflexivity).
  destruct (abortedInWait env a); [eexists; reflexivity|].
  destruct (pollLoop env url it (S a)). eexists; reflexivity.
Qed.

(** The same for every session without cancellation: whatever status other
    than 200 the first reply carries, 400 and 410 included, the loop goes
    on to a wait and to a second fetch call. *)
Lemma client_error_is_retried env url status text :
  signal env = None ->
  reply env 0 = Response status text ->
  status <> 200%N ->
  exists rest,
    snd (pollForReady env url) =
    EvFetch url :: snd (tryCatch env 0) ++
    EvWait 2000 :: EvFetch url :: rest.
Proof.
  intros Hs H0 Hne.
  assert (He : forall j, abortedAtEntry env j = false)
    by (intros j; unfold abortedAtEntry; now rewrite Hs).
  assert (Hw : forall j, abortedInWait env j = false)
    by (intros j; unfold abortedInWait; now rewrite Hs).
  unfold pollForReady. rewrite backoff_default_unfold.
  rewrite pollLoop_step; auto.
  - destruct (pollLoop_fetches env url
                (3000 :: backoffLoop 58 3000 5000 15000)%Z 1 (He 1))
      as [rest Hrest].
    exists rest. cbn [snd]. now rewrite Hrest.
  - rewrite H0. cbn [retried]. apply negb_true_iff, N.eqb_neq. exact Hne.
Qed.

End PollingSession.

(** ** Strings and lines *)

Section Lines.

Lemma eqb_eq s t : JsString.eqb s t = true <-> s = t.
Proof.
  revert t; induction s as [|c s IH]; intros [|d t]; simpl;
    try (split; [discriminate | discriminate]); try tauto.
  rewrite andb_true_iff, N.eqb_eq, IH.
  split; [intros [-> ->]; reflexivity | intros H; injection H; auto].
Qed.

Lemma eqb_refl s : JsString.eqb s s = true.
Proof. now apply eqb_eq. Qed.

Lemma eqb_neq s t : JsString.eqb s t = false <-> s <> t.
Proof.
  rewrite <- not_true_iff_false, eqb_eq. tauto.
Qed.

Lemma splitLines_not_nil s : splitLines s <> [].
Proof.
  destruct s as [|c rest]; simpl; [discriminate|].
  destruct (N.eqb c LF); [discriminate|].
  assert (K : match splitLines rest with
              | l :: ls => (c :: l) :: ls
              | [] => [[c]]
              end <> []) by (destruct (splitLines rest); discriminate).
  destruct (N.eqb c CR); [|exact K].
  destruct rest as [|d rest']; [exact K|].
  destruct (N.eqb d LF); [discriminate | exact K].
Qed.

(** No line of [s.split(/\r?\n/)] contains a line feed. *)
Lemma splitLines_no_LF s : Forall (fun l => ~ In LF l) (splitLines s).
Proof.
  induction s as [|c rest IH]; simpl.
  - constructor; [intros [] | constructor].
  - destruct (N.eqb c LF) eqn:Ec.
    + constructor; [intros [] | exact IH].
    + assert (K : Forall (fun l => ~ In LF l)
                    match splitLines rest with
                    | l :: ls => (c :: l) :: ls
                    | [] => [[c]]
                    end).
      { apply N.eqb_neq in Ec.
        destruct (splitLines rest) as [|l ls].
        - constructor; [|constructor]. intros [H|[]]. congruence.
        - inversion IH; subst. constructor; [|assumption].
          intros [H|H]; [congruence | contradiction]. }
      destruct (N.eqb c CR); [|exact K].
      destruct rest as [|d rest']; [exact K|].
      destruct (N.eqb d LF) eqn:Ed; [|exact K].
      simpl in IH. rewrite Ed in IH. exact IH.
Qed.

Lemma splitLF_no_LF x : ~ In LF x -> splitLF x = [x].
Proof.
  induction x as [|c x IH]; simpl; intros H; [reflexivity|].
  destruct (N.eqb c LF) eqn:Ec.
  - apply N.eqb_eq in Ec. exfalso. apply H. left. congruence.
  - rewrite IH by tauto. reflexivity.
Qed.

Lemma splitLF_app x t :
  ~ In LF x -> splitLF (x ++ LF :: t) = x :: splitLF t.
Proof.
  induction x as [|c x IH]; simpl; intros H; [reflexivity|].
  destruct (N.eqb c LF) eqn:Ec.
  - apply N.eqb_eq in Ec. exfalso. apply H. left. congruence.
  - rewrite IH by tauto. reflexivity.
Qed.

(** Splitting at the line feeds undoes [join('\n')] on lines without line
    feed. *)
Lemma splitLF_join ls :
  ls <> [] -> Forall (fun l => ~ In LF l) ls ->
  splitLF (join [LF] ls) = ls.
Proof.
  induction ls as [|x ls IH]; intros Hne Hall; [congruence|].
  inversion Hall as [|? ? Hx Hls]; subst.
  destruct ls as [|y ls].
  - simpl. now apply splitLF_no_LF.
  - change (join [LF] (x :: y :: ls)) with (x ++ LF :: join [LF] (y :: ls)).
    rewrite splitLF_app by assumption.
    rewrite IH; [reflexivity | discriminate | assumption].
Qed.

Lemma trimStart_nil l :
  trimStart l = [] <-> forallb isWhiteSpace l = true.
Proof.
  induction l as [|c l IH]; simpl; [tauto|].
  destruct (isWhiteSpace c); simpl; [exact IH|].
  split; discriminate.
Qed.

Lemma trimStart_all_white l :
  forallb isWhiteSpace (trimStart l) = forallb isWhiteSpace l.
Proof.
  induction l as [|c l IH]; simpl; [reflexivity|].
  destruct (isWhiteSpace c) eqn:E; simpl; [exact IH|].
  now rewrite E.
Qed.

Lemma forallb_rev {A} (f : A -> bool) l : forallb f (rev l) = forallb f l.
Proof.
  induction l as [|x l IH]; simpl; [reflexivity|].
  rewrite forallb_app, IH. simpl. rewrite andb_true_r. apply andb_comm.
Qed.

(** [s.trim()] is empty exactly when [s] is made of white space. *)
Lemma trim_nil l : trim l = [] <-> forallb isWhiteSpace l = true.
Proof.
  unfold trim.
  rewrite <- trimStart_all_white, <- forallb_rev, <- trimStart_nil.
  split; intros H.
  - apply (f_equal (@rev N)) in H. now rewrite rev_involutive in H.
  - now rewrite H.
Qed.

End Lines.

(** ** generate_dm_list.js: validation and header expansion *)

Section Csv.
Import GenerateDmList.

Lemma nonBlank_spec l : nonBlank l = negb (forallb isWhiteSpace l).
Proof.
  unfold nonBlank.
  destruct (trim l) eqn:E.
  - apply trim_nil in E. now rewrite E.
  - destruct (forallb isWhiteSpace l) eqn:F; [|reflexivity].
    apply trim_nil in F. congruence.
Qed.

Lemma nonBlank_comma l : nonBlank (l ++ js ",") = true.
Proof.
  rewrite nonBlank_spec, forallb_app. simpl.
  now rewrite andb_false_r.
Qed.

Lemma endsWith_comma l : endsWith (js ",") (l ++ js ",") = true.
Proof.
  unfold endsWith. rewrite rev_app_distr. reflexivity.
Qed.

(** A blank line is kept as it is. *)
Lemma expandLine_blank l : nonBlank l = false -> expandLine l = l.
Proof. unfold expandLine. now intros ->. Qed.

(** A line that is not blank ends with a comma afterwards. *)
Lemma expandLine_comma l :
  nonBlank l = true -> endsWith (js ",") (expandLine l) = true.
Proof.
  unfold expandLine. intros ->. simpl.
  destruct (endsWith (js ",") l) eqn:E; [exact E | apply endsWith_comma].
Qed.

Lemma expandLine_nonBlank l : nonBlank (expandLine l) = nonBlank l.
Proof.
  unfold expandLine.
  destruct (nonBlank l) eqn:E; simpl; [|exact E].
  destruct (endsWith (js ",") l); [exact E | apply nonBlank_comma].
Qed.

Lemma expandLine_no_LF l : ~ In LF l -> ~ In LF (expandLine l).
Proof.
  unfold expandLine. intros H.
  destruct (negb (nonBlank l)); [exact H|].
  destruct (endsWith (js ",") l); [exact H|].
  rewrite in_app_iff. intros [K|K]; [contradiction|].
  simpl in K. destruct K as [K|[]]. discriminate K.
Qed.

Lemma filter_expandLine ls :
  length (filter nonBlank (map expandLine ls)) = length (filter nonBlank ls).
Proof.
  induction ls as [|l ls IH]; simpl; [reflexivity|].
  rewrite expandLine_nonBlank.
  destruct (nonBlank l); simpl; now rewrite IH.
Qed.

Lemma transformed_no_LF lines :
  Forall (fun l => ~ In LF l) lines ->
  Forall (fun l => ~ In LF l) (transformed lines).
Proof.
  intros H. unfold transformed. constructor.
  - intros K. vm_compute in K. intuition discriminate.
  - destruct lines as [|h ls]; simpl; [constructor|].
    inversion H; subst.
    apply Forall_map. eapply Forall_impl; [|eassumption].
    intros l. apply expandLine_no_LF.
Qed.

(** The lines of the forwarded text are the array [transformed]. *)
Lemma csvToSend_lines csvText :
  trim (hd [] (splitLines (stripBOM csvText))) = js "userName,userLink" ->
  splitLF (csvToSend csvText)
  = transformed (splitLines (stripBOM csvText)).
Proof.
  intros H. unfold csvToSend. cbv zeta. rewrite H, eqb_refl.
  apply splitLF_join.
  - discriminate.
  - apply transformed_no_LF, splitLines_no_LF.
Qed.

End Csv.

(** ** Handlers: calls to the backend *)

Section Calls.
Import Http Shared Claims.
Local Open Scope handler_scope.

Lemma keepsCalls_ret {A} (a : A) : keepsCalls (ret a).
Proof. intros st. reflexivity. Qed.

Lemma keepsCalls_throw {A} e : keepsCalls (@throw A e).
Proof. intros st. reflexivity. Qed.

Lemma keepsCalls_lift {A} (r : Exn + A) : keepsCalls (lift r).
Proof. destruct r; intros st; reflexivity. Qed.

Lemma keepsCalls_updRes f : keepsCalls (updRes f).
Proof. intros st. reflexivity. Qed.

Lemma keepsCalls_consoleError tag e : keepsCalls (consoleError tag e).
Proof. intros st. reflexivity. Qed.

Lemma keepsCalls_bind {A B} (m : M A) (k : A -> M B) :
  keepsCalls m -> (forall a, keepsCalls (k a)) -> keepsCalls (bind m k).
Proof.
  intros Hm Hk st. unfold bind.
  specialize (Hm st). destruct (m st) as [[e|a] st']; simpl in *.
  - exact Hm.
  - now rewrite Hk.
Qed.

Lemma keepsCalls_setHeader k v : keepsCalls (setHeader k v).
Proof. apply keepsCalls_updRes. Qed.

Lemma keepsCalls_setHeaderValue k v : keepsCalls (setHeaderValue k v).
Proof. apply keepsCalls_updRes. Qed.

Lemma keepsCalls_setStatus n : keepsCalls (setStatus n).
Proof. apply keepsCalls_updRes. Qed.

Lemma keepsCalls_endWith c : keepsCalls (endWith c).
Proof. apply keepsCalls_updRes. Qed.

Lemma keepsCalls_endJson v : keepsCalls (endJson v).
Proof. apply keepsCalls_endWith. Qed.

Create HintDb calls.

#[local] Hint Resolve keepsCalls_ret keepsCalls_throw keepsCalls_lift
  keepsCalls_updRes keepsCalls_consoleError keepsCalls_setHeader
  keepsCalls_setHeaderValue keepsCalls_setStatus keepsCalls_endWith
  keepsCalls_endJson : calls.

Ltac keeps :=
  repeat first
    [ solve [auto with calls]
    | apply keepsCalls_bind; [|intros ?]
    | match goal with
      | |- keepsCalls (if ?c then _ else _) => destruct c
      | |- keepsCalls (match ?x with _ => _ end) => destruct x
      end ].

Lemma keepsCalls_setCors maxAge : keepsCalls (setCors maxAge).
Proof. unfold setCors. keeps. Qed.

Lemma keepsCalls_relayBody up : keepsCalls (relayBody up).
Proof. unfold relayBody. keeps. Qed.

#[local] Hint Resolve keepsCalls_setCors keepsCalls_relayBody : calls.

Lemma keepsCalls_answerSubmission URL_token up :
  keepsCalls (answerSubmission URL_token up).
Proof. unfold answerSubmission. keeps. Qed.

Lemma keepsCalls_internalError tag maxAge e :
  keepsCalls (internalError tag maxAge e).
Proof. unfold internalError. keeps. Qed.

Lemma keepsCalls_rejection error code : keepsCalls (rejection error code).
Proof. unfold rejection. keeps. Qed.

Lemma bind_lift {A B} (a : A) (k : A -> M B) :
  bind (lift (inr a)) k = k a.
Proof. reflexivity. Qed.

(** An accepted CSV submission leads to exactly one call to the backend,
    whose body is [csvToSend]. *)
Lemma dm_list_forwards URL_token w req base csvText n :
  method req = js "POST" ->
  getBackendBase w = inr base ->
  bodyText req = inr csvText ->
  GenerateDmList.validateCsv csvText = GenerateDmList.Valid n ->
  calls (GenerateDmList.handler URL_token w req) =
  [mkUpRequest (base ++ js "/marketing/generate_dm_list") (js "POST")
               (Some (js "text/csv"))
               (Some (GenerateDmList.csvToSend csvText))].
Proof.
  intros Hm Hb Ht Hv.
  unfold GenerateDmList.handler, GenerateDmList.handlerBody.
  rewrite Hm, Hb, Ht.
  change (JsString.eqb (js "POST") (js "OPTIONS")) with false.
  change (JsString.eqb (js "POST") (js "POST")) with true.
  cbn [negb]. rewrite !bind_lift. rewrite Hv.
  set (r := mkUpRequest _ _ _ _).
  unfold tryCatch.
  set (st1 := snd (setCors true initial)).
  assert (E : forall k : unit -> M unit,
             bind (setCors true) k initial = k tt st1) by reflexivity.
  rewrite E. unfold bind, fetch.
  destruct (upstream w r) as [e|up].
  - rewrite keepsCalls_internalError. reflexivity.
  - pose proof (keepsCalls_answerSubmission URL_token up
                  (mkSt (res st1) (calls st1 ++ [r]) (console st1))) as K.
    destruct (answerSubmission URL_token up _) as [[e|[]] st'];
      cbn [snd] in *.
    + rewrite keepsCalls_internalError. exact K.
    + exact K.
Qed.

End Calls.

(** ** generate_dm_list.js: the claims on CSV submissions *)

Section CsvClaims.
Import Http Shared Claims GenerateDmList.

(** C5: for a CSV text that the validator accepts and whose header is the
    two-column one, the handler forwards a body whose lines are: the
    three-column header first; then, line for line, every blank line of the
    input as it was and every other line with one comma appended unless it
    ended with one, so that it ends with a comma.  The number of lines and
    the number of non-blank data rows are those of the input. *)
Theorem header_expansion URL_token w req base csvText n :
  method req = js "POST" ->
  getBackendBase w = inr base ->
  bodyText req = inr csvText ->
  validateCsv csvText = Valid n ->
  let lines := splitLines (stripBOM csvText) in
  trim (hd [] lines) = js "userName,userLink" ->
  exists body,
    map upBody (calls (handler URL_token w req)) = [Some body] /\
    let out := splitLF body in
    hd [] out = js "userName,userLink,directMessage" /\
    length out = length lines /\
    rowCount out = rowCount lines /\
    (forall i line, nth_error (tl lines) i = Some line ->
       nonBlank line = false -> nth_error (tl out) i = Some line) /\
    (forall i line, nth_error (tl lines) i = Some line ->
       nonBlank line = true ->
       nth_error (tl out) i =
       Some (if endsWith (js ",") line then line else line ++ js ",")) /\
    (forall line, In line (tl out) ->
       nonBlank line = true -> endsWith (js ",") line = true).
Proof.
  intros Hm Hb Ht Hv lines Hh.
  exists (csvToSend csvText). split.
  - rewrite (dm_list_forwards URL_token w req base csvText n); auto.
  - cbv zeta. rewrite (csvToSend_lines csvText Hh). fold lines.
    assert (Hne : lines <> []) by apply splitLines_not_nil.
    unfold transformed. cbn [hd tl length].
    destruct lines as [|h ls]; [congruence|]. cbn [tl length].
    repeat split.
    + now rewrite length_map.
    + unfold rowCount. cbn [tl]. apply filter_expandLine.
    + intros i line Hi Hblank.
      rewrite nth_error_map, Hi. cbn [option_map].
      now rewrite expandLine_blank.
    + intros i line Hi Hrow.
      rewrite nth_error_map, Hi. cbn [option_map].
      unfold expandLine. now rewrite Hrow.
    + intros line Hin Hrow.
      apply in_map_iff in Hin. destruct Hin as (l & <- & _).
      apply expandLine_comma. now rewrite <- expandLine_nonBlank.
Qed.

Lemma header_expansion_witness :
  exists body,
    map upBody (calls (handler Whatwg.URL_token configured (post twoColumnCsv)))
    = [Some body] /\
    splitLF body =
    [js "userName,userLink,directMessage"; [];
     js "alice,https://x/alice,"; js "bob,https://x/bob,"; []].
Proof.
  destruct (header_expansion Whatwg.URL_token configured (post twoColumnCsv)
              (js "https://backend.example:8443") twoColumnCsv 2
              eq_refl eq_refl eq_refl eq_refl eq_refl)
    as (body & Hcalls & _).
  exists body. split; [exact Hcalls|].
  vm_compute in Hcalls. injection Hcalls as <-.
  vm_compute. reflexivity.
Defined.

(** The validator, once the header is accepted, decides on the number of
    non-blank lines after it. *)
Lemma validateCsv_by_count csvText :
  let lines := splitLines (stripBOM csvText) in
  let n := rowCount lines in
  existsb (JsString.eqb (trim (hd [] lines))) ALLOWED_HEADERS = true ->
  validateCsv csvText =
  if Nat.eqb n 0 then
    Invalid (js "No rows found after header.") (js "EMPTY_ROWS")
  else if Nat.ltb 300 n then
    Invalid (js "Too many rows: " ++ digits (N.of_nat n) ++
             js ". Maximum allowed is " ++ digits 300 ++ js ".")
            (js "TOO_MANY_ROWS")
  else Valid n.
Proof.
  intros lines n Hh. unfold validateCsv. cbv zeta.
  fold lines. rewrite Hh. reflexivity.
Qed.


Lemma splitLines_plain x :
  (forall c, In c x -> c <> LF /\ c <> CR) -> splitLines x = [x].
Proof.
  induction x as [|c x IH]; intros H; [reflexivity|].
  destruct (H c (or_introl eq_refl)) as [HLF HCR].
  apply N.eqb_neq in HLF, HCR.
  cbn [splitLines]. rewrite HLF, HCR, IH; [reflexivity|].
  intros d Hd. apply H. now right.
Qed.

Lemma splitLines_app x t :
  (forall c, In c x -> c <> LF /\ c <> CR) ->
  splitLines (x ++ LF :: t) = x :: splitLines t.
Proof.
  induction x as [|c x IH]; intros H; [reflexivity|].
  destruct (H c (or_introl eq_refl)) as [HLF HCR].
  apply N.eqb_neq in HLF, HCR.
  cbn [splitLines app]. rewrite HLF, HCR, IH; [reflexivity|].
  intros d Hd. apply H. now right.
Qed.

Lemma plain_text s :
  forallb (fun c => negb (N.eqb c LF) && negb (N.eqb c CR)) s = true ->
  forall c, In c s -> c <> LF /\ c <> CR.
Proof.
  intros H c Hc. rewrite forallb_forall in H. specialize (H c Hc).
  apply andb_true_iff in H. destruct H as [H1 H2].
  apply negb_true_iff in H1, H2. now apply N.eqb_neq in H1, H2.
Qed.

Lemma rows_lines row n : forall x,
  (forall c, In c x -> c <> LF /\ c <> CR) ->
  (forall c, In c row -> c <> LF /\ c <> CR) ->
  splitLines (x ++ concat (repeat (LF :: row) n)) = x :: repeat row n.
Proof.
  induction n as [|n IH]; intros x Hx Hrow.
  - cbn [repeat concat]. rewrite app_nil_r. now apply splitLines_plain.
  - cbn [repeat concat]. rewrite <- app_comm_cons.
    rewrite splitLines_app by assumption.
    now rewrite IH.
Qed.

Lemma csvWithRows_lines n :
  splitLines (stripBOM (csvWithRows n)) =
  js "userName,userLink,directMessage" ::
  repeat (js "alice,https://x/alice,Hi") n.
Proof.
  replace (stripBOM (csvWithRows n)) with (csvWithRows n) by reflexivity.
  apply rows_lines; apply plain_text; reflexivity.
Qed.

(** Every row count occurs: the text with the canonical header and [n]
    rows has [n] non-blank lines after the header. *)
Lemma csvWithRows_rowCount n :
  rowCount (splitLines (stripBOM (csvWithRows n))) = n.
Proof.
  rewrite csvWithRows_lines. unfold rowCount. cbn [tl].
  induction n as [|n IH]; [reflexivity|].
  cbn [repeat filter].
  replace (nonBlank (js "alice,https://x/alice,Hi")) with true
    by reflexivity.
  cbn [length]. now rewrite IH.
Qed.

(** The validator on these texts, for every [n]. *)
Lemma csvWithRows_validation n :
  validateCsv (csvWithRows n) =
  if Nat.eqb n 0 then
    Invalid (js "No rows found after header.") (js "EMPTY_ROWS")
  else if Nat.ltb 300 n then
    Invalid (js "Too many rows: " ++ digits (N.of_nat n) ++
             js ". Maximum allowed is " ++ digits 300 ++ js ".")
            (js "TOO_MANY_ROWS")
  else Valid n.
Proof.
  pose proof (validateCsv_by_count (csvWithRows n)) as P. cbv zeta in P.
  rewrite csvWithRows_rowCount in P. apply P.
  rewrite csvWithRows_lines. reflexivity.
Qed.


End CsvClaims.

(** ** The result-URL rewriter *)

Section RewriterClaims.
Import Shared Claims Builtin.

Lemma hexDigit_unreserved n : (n < 16)%N -> isUnreserved (hexDigit n) = true.
Proof.
  intros H.
  assert (K : forallb (fun k => isUnreserved (hexDigit (N.of_nat k)))
                      (seq 0 16) = true) by reflexivity.
  rewrite forallb_forall in K.
  specialize (K (N.to_nat n)). rewrite N2Nat.id in K.
  apply K. apply in_seq. lia.
Qed.

Lemma percent_escaped bytes :
  forallb (fun b => (b <? 256)%N) bytes = true ->
  forallb escaped (percent bytes) = true.
Proof.
  induction bytes as [|b bytes IH]; intros H; [reflexivity|].
  cbn [forallb] in H. apply andb_true_iff in H. destruct H as [Hb H].
  apply N.ltb_lt in Hb.
  change (percent (b :: bytes))
    with ([37; hexDigit (b / 16); hexDigit (b mod 16)]%N ++ percent bytes).
  rewrite forallb_app, IH by assumption.
  cbn [forallb]. unfold escaped.
  rewrite !hexDigit_unreserved; [reflexivity | |].
  - apply N.mod_lt. discriminate.
  - apply N.Div0.div_lt_upper_bound. lia.
Qed.

Lemma utf8_bytes cp :
  (cp < 1114112)%N -> forallb (fun b => (b <? 256)%N) (utf8 cp) = true.
Proof.
  intros H. unfold utf8.
  assert (M0 : (cp mod 64 < 64)%N) by (apply N.mod_lt; discriminate).
  assert (M1 : ((cp / 64) mod 64 < 64)%N) by (apply N.mod_lt; discriminate).
  assert (M2 : ((cp / 4096) mod 64 < 64)%N)
    by (apply N.mod_lt; discriminate).
  assert (D1 : (cp < 2048 -> cp / 64 < 32)%N)
    by (intros; apply N.Div0.div_lt_upper_bound; lia).
  assert (D2 : (cp < 65536 -> cp / 4096 < 16)%N)
    by (intros; apply N.Div0.div_lt_upper_bound; lia).
  assert (D3 : (cp / 262144 < 5)%N)
    by (apply N.Div0.div_lt_upper_bound; lia).
  destruct (N.ltb_spec cp 128) as [H1|H1];
    [|destruct (N.ltb_spec cp 2048) as [H2|H2];
      [|destruct (N.ltb_spec cp 65536) as [H3|H3]]];
    cbn [forallb];
    repeat (apply andb_true_iff; split); try reflexivity;
    apply N.ltb_lt.
  - lia.
  - specialize (D1 H2). lia.
  - lia.
  - specialize (D2 H3). lia.
  - lia.
  - lia.
  - lia.
  - lia.
  - lia.
  - lia.
Qed.

Lemma surrogatePair_bound c d :
  isLeadSurrogate c = true -> isTrailSurrogate d = true ->
  (surrogatePair c d < 1114112)%N.
Proof.
  unfold isLeadSurrogate, isTrailSurrogate, surrogatePair.
  rewrite !andb_true_iff, !N.leb_le. lia.
Qed.

Lemma encode_escaped_fuel n : forall s e,
  length s <= n ->
  codeUnits s = true ->
  encodeURIComponent s = Some e ->
  forallb escaped e = true.
Proof.
  induction n as [|n IH]; intros s e Hn Hs He.
  - destruct s; [|cbn [length] in Hn; lia].
    cbn [encodeURIComponent] in He. now injection He as <-.
  - destruct s as [|c rest];
      [cbn [encodeURIComponent] in He; now injection He as <-|].
    cbn [length] in Hn. cbn [codeUnits forallb] in Hs.
    apply andb_true_iff in Hs. destruct Hs as [Hc Hrest].
    apply N.ltb_lt in Hc.
    cbn [encodeURIComponent] in He.
    destruct (isUnreserved c) eqn:Eu.
    + destruct (encodeURIComponent rest) as [e'|] eqn:Er; [|discriminate].
      cbn [option_map] in He. injection He as <-.
      cbn [forallb]. unfold escaped at 1.
      rewrite Eu. cbn [orb andb]. apply (IH rest); auto. lia.
    + destruct (isLeadSurrogate c) eqn:El.
      * destruct rest as [|d rest']; [discriminate|].
        destruct (isTrailSurrogate d) eqn:Et; [|discriminate].
        destruct (encodeURIComponent rest') as [e'|] eqn:Er; [|discriminate].
        cbn [option_map] in He. injection He as <-.
        cbn [forallb] in Hrest. apply andb_true_iff in Hrest.
        destruct Hrest as [Hd Hrest'].
        rewrite forallb_app. apply andb_true_iff. split.
        -- apply percent_escaped, utf8_bytes.
           now apply surrogatePair_bound.
        -- apply (IH rest'); auto. cbn [length] in Hn. lia.
      * destruct (isTrailSurrogate c); [discriminate|].
        destruct (encodeURIComponent rest) as [e'|] eqn:Er; [|discriminate].
        cbn [option_map] in He. injection He as <-.
        rewrite forallb_app. apply andb_true_iff. split.
        -- apply percent_escaped, utf8_bytes. lia.
        -- apply (IH rest); auto. lia.
Qed.

(** What [encodeURIComponent] returns is made of unreserved characters and
    percent signs. *)
Lemma encode_escaped s e :
  codeUnits s = true ->
  encodeURIComponent s = Some e ->
  forallb escaped e = true.
Proof. apply (encode_escaped_fuel (length s)). lia. Qed.

(** An escaped character is none of the delimiters of a URL. *)
Lemma escaped_not_delimiter c :
  escaped c = true -> ~ In c delimiters.
Proof.
  intros H Hin. unfold delimiters in Hin.
  repeat (destruct Hin as [<-|Hin]; [discriminate H|]).
  exact Hin.
Qed.

Lemma takeNotAmp_incl s : forall c, In c (takeNotAmp s) -> In c s.
Proof.
  induction s as [|d s IH]; simpl; [tauto|].
  destruct (N.eqb d 38); simpl; [tauto|].
  intros c [->|H]; auto.
Qed.

(** The capture of the regular expression is text of its subject. *)
Lemma tokenRegexExec_incl s : forall m,
  tokenRegexExec s = Some m -> forall c, In c m -> In c s.
Proof.
  induction s as [|d s IH]; intros m H; [discriminate H|].
  cbn [tokenRegexExec] in H.
  assert (K : tokenRegexExec s = Some m -> forall c, In c m -> In c (d :: s))
    by (intros K c Hc; right; now apply (IH m)).
  destruct ((N.eqb d 63 || N.eqb d 38) && startsWith (js "token=") s);
    [|exact (K H)].
  destruct (takeNotAmp (skipn 6 s)) as [|x v] eqn:E; [exact (K H)|].
  injection H as <-. intros c Hc. right.
  rewrite <- E in Hc. apply takeNotAmp_incl in Hc.
  rewrite <- (firstn_skipn 6 s). apply in_or_app. now right.
Qed.

Lemma codeUnits_incl s t :
  (forall c, In c t -> In c s) -> codeUnits s = true -> codeUnits t = true.
Proof.
  unfold codeUnits. rewrite !forallb_forall. auto.
Qed.

Lemma regexSubject_codeUnits v :
  codeUnits (Js.toString v) = true -> codeUnits (regexSubject v) = true.
Proof. unfold regexSubject. destruct (Js.truthy v); auto. Qed.

Variable URL_token : jsstring -> option (option jsstring).

(** When the strict parse gives no non-empty token, the [try] block of the
    rewriter returns nothing. *)
Lemma strictPath_none v :
  (forall c t, URL_token (Js.toString v) <> Some (Some (c :: t))) ->
  strictPath URL_token v = None.
Proof.
  intros H. unfold strictPath.
  destruct (URL_token (Js.toString v)) as [[[|c t]|]|]; try reflexivity.
  now destruct (H c t).
Qed.

(** C3 (as the code has it): for a location in which a token can be
    reached, by the strict parse or by the regular expression, the rewriter
    returns ['/api/results?token='] followed by the percent-encoding of
    that token; and whatever the location, a returned value is either
    ['/api/results'] or that prefix followed by unreserved characters and
    percent escapes only, so that nothing of the location outside the
    encoded token, and none of the delimiters of a URL, gets into it. *)
Theorem rewritten_location (v : Js.value) :
  codeUnits (Js.toString v) = true ->
  (forall t, URL_token (Js.toString v) = Some (Some t) ->
             codeUnits t = true) ->
  (forall t e,
     reachableToken URL_token v = Some t ->
     encodeURIComponent t = Some e ->
     rewriteResultUrl URL_token v = inr (js "/api/results?token=" ++ e)) /\
  (forall out,
     rewriteResultUrl URL_token v = inr out ->
     out = js "/api/results" \/
     exists e, out = js "/api/results?token=" ++ e /\
               forallb escaped e = true /\
               forall c, In c e -> ~ In c delimiters).
Proof.
  intros Hv Ht. split.
  - intros t e Hr He.
    unfold reachableToken in Hr. unfold rewriteResultUrl, strictPath.
    destruct (URL_token (Js.toString v)) as [[[|c t']|]|];
      try (rewrite Hr, He; reflexivity).
    injection Hr as <-. now rewrite He.
  - intros out Hout.
    assert (Hesc : forall t e, codeUnits t = true ->
              encodeURIComponent t = Some e ->
              forallb escaped e = true /\
              forall c, In c e -> ~ In c delimiters).
    { intros t e Hcu He.
      pose proof (encode_escaped t e Hcu He) as K. split; [exact K|].
      intros c Hc. apply escaped_not_delimiter.
      rewrite forallb_forall in K. now apply K. }
    unfold rewriteResultUrl in Hout.
    destruct (strictPath URL_token v) as [r|] eqn:Es.
    + injection Hout as <-. right.
      unfold strictPath in Es.
      destruct (URL_token (Js.toString v)) as [[[|c t']|]|] eqn:Eu;
        try discriminate.
      destruct (encodeURIComponent (c :: t')) as [e|] eqn:Ee;
        [|discriminate].
      injection Es as <-. exists e. split; [reflexivity|].
      apply (Hesc (c :: t')); auto.
    + destruct (tokenRegexExec (regexSubject v)) as [m|] eqn:Em.
      * destruct (encodeURIComponent m) as [e|] eqn:Ee; [|discriminate].
        injection Hout as <-. right. exists e. split; [reflexivity|].
        apply (Hesc m); auto.
        apply (codeUnits_incl (regexSubject v)).
        -- now apply tokenRegexExec_incl.
        -- now apply regexSubject_codeUnits.
      * injection Hout as <-. now left.
Qed.

(** C9: a location in which neither the strict parse nor the regular
    expression reaches a token is rewritten to ['/api/results'], without
    query. *)
Theorem no_token_bare_path (v : Js.value) :
  reachableToken URL_token v = None ->
  rewriteResultUrl URL_token v = inr (js "/api/results").
Proof.
  unfold reachableToken, rewriteResultUrl, strictPath.
  destruct (URL_token (Js.toString v)) as [[[|c t]|]|]; intros H;
    try discriminate; now rewrite H.
Qed.

(** The empty location, [null] and [undefined] hold no token for the
    regular expression; they are rewritten to the bare path as soon as the
    URL constructor finds no token in them either. *)
Lemma empty_or_null_location (v : Js.value) :
  v = Js.Str [] \/ v = Js.Null \/ v = Js.Undefined ->
  (forall c t, URL_token (Js.toString v) <> Some (Some (c :: t))) ->
  rewriteResultUrl URL_token v = inr (js "/api/results").
Proof.
  intros Hv Hu. unfold rewriteResultUrl.
  rewrite (strictPath_none v Hu).
  destruct Hv as [->|[->| ->]]; reflexivity.
Qed.

End RewriterClaims.

Section RewriterExamples.
Import Shared Claims.

Lemma rewritten_location_witness :
  rewriteResultUrl Whatwg.URL_token
    (Js.Str (js "https://backend.example:8443/results?job=7&token=a%2Fb+c"))
  = inr (js "/api/results?token=a%2Fb%20c").
Proof.
  refine (proj1 (rewritten_location Whatwg.URL_token
                   (Js.Str (js "https://backend.example:8443/results?job=7&token=a%2Fb+c"))
                   _ _) (js "a/b c") (js "a%2Fb%20c") _ _).
  - vm_compute. reflexivity.
  - intros t H. vm_compute in H. injection H as <-. vm_compute. reflexivity.
  - vm_compute. reflexivity.
  - vm_compute. reflexivity.
Defined.

(** The claim as stated fails: a token that spells the scheme, the host and
    the port of the backend is kept, and with it these three texts. *)
Lemma origin_text_survives :
  rewriteResultUrl Whatwg.URL_token (Js.Str echoingLocation)
  = inr (js "/api/results?token=https.backend.example.8443") /\
  includes (js "https") (js "/api/results?token=https.backend.example.8443")
  = true /\
  includes (js "backend.example")
           (js "/api/results?token=https.backend.example.8443") = true /\
  includes (js "8443") (js "/api/results?token=https.backend.example.8443")
  = true.
Proof. vm_compute. repeat split. Qed.

(** The regular expression alone reaches the same token in that location:
    the outcome does not depend on how the URL constructor treats it. *)
Lemma origin_text_survives_regex :
  Builtin.tokenRegexExec echoingLocation
  = Some (js "https.backend.example.8443").
Proof. vm_compute. reflexivity. Qed.

Lemma no_token_bare_path_witness :
  rewriteResultUrl Whatwg.URL_token Js.Null = inr (js "/api/results").
Proof.
  apply (no_token_bare_path Whatwg.URL_token Js.Null).
  vm_compute. reflexivity.
Defined.

(** With the URL class of the platform: the empty string, [null],
    [undefined], and a location without token. *)
Lemma bare_path_examples :
  map (rewriteResultUrl Whatwg.URL_token)
      [Js.Str []; Js.Null; Js.Undefined;
       Js.Str (js "https://backend.example:8443/results");
       Js.Str (js "https://backend.example:8443/results?token=")]
  = repeat (inr (js "/api/results")) 5.
Proof. vm_compute. reflexivity. Qed.

(** What the regular expression captures is encoded as it stands: an
    escape of the location is escaped again, and a fragment is taken into
    the token. *)
Lemma regex_path_examples :
  map (rewriteResultUrl Whatwg.URL_token)
      [Js.Str (js "/results?token=a%2Fb");
       Js.Str (js "/results?x=1&token=abc#frag")]
  = [inr (js "/api/results?token=a%252Fb");
     inr (js "/api/results?token=abc%23frag")].
Proof. vm_compute. reflexivity. Qed.

(** A surrogate without partner in a relative location makes the rewriter
    throw. *)
Lemma lone_surrogate_throws :
  rewriteResultUrl Whatwg.URL_token
    (Js.Str (js "/results?token=" ++ [55357%N]))
  = inl URIError.
Proof. vm_compute. reflexivity. Qed.

End RewriterExamples.

(** ** The handlers without the base-URL setting *)

Section MissingSetting.
Import Http Shared Claims.

Variable URL_token : jsstring -> option (option jsstring).
Variable JSON_parse : jsstring -> option Js.value.
Variable URL_search : jsstring -> option jsstring.






(** The fault is written to the log of the function, with its message. *)
Lemma faultAnswer_logged tag maxAge e :
  console (faultAnswer tag maxAge e) = [(js tag, e)].
Proof. destruct maxAge; vm_compute; reflexivity. Qed.



End MissingSetting.

Section MissingSettingExamples.
Import Http Shared Claims.



End MissingSettingExamples.

(** ** generate_leads.js: the test on [filters] *)

Section Leads.
Import Http Shared Claims GenerateLeads.
Local Open Scope handler_scope.

Variable URL_token : jsstring -> option (option jsstring).
Variable JSON_parse : jsstring -> option Js.value.

(** [filters !== undefined && typeof filters !== 'object'] holds for
    booleans, numbers and strings only. *)
Lemma filters_test v :
  match v with Js.Undefined => false | _ => true end &&
  negb (JsString.eqb (Js.typeof v) (js "object")) = primitive v.
Proof. destruct v; reflexivity. Qed.

(** The validator on an object. *)
Lemma validatePayload_object props :
  validatePayload (Js.Obj props) =
  match Js.lookup (js "seedUserNames") props with
  | Js.Arr (u :: us) =>
      if existsb badSeed (u :: us) then
        Invalid (js "Each seed user name must be a non-empty string.")
                (js "INVALID_SEED_ITEM")
      else if primitive (Js.lookup (js "filters") props) then
        Invalid (js "filters must be an object if provided.")
                (js "INVALID_FILTERS")
      else Valid
  | _ =>
      Invalid (js "seedUserNames must be a non-empty array of strings.")
              (js "INVALID_SEED")
  end.
Proof.
  unfold validatePayload.
  change (negb (JsString.eqb (Js.typeof (Js.Obj props)) (js "object")) ||
          false) with false.
  cbv iota. unfold field, Js.getProp.
  destruct (Js.lookup (js "seedUserNames") props) as [| | | | |[|u us]|];
    try reflexivity.
  now rewrite filters_test.
Qed.

(** On anything that is not an object the validator answers with another
    code than [INVALID_FILTERS]. *)
Lemma validatePayload_other payload :
  (forall props, payload <> Js.Obj props) ->
  exists error code,
    validatePayload payload = Invalid error code /\
    code <> js "INVALID_FILTERS".
Proof.
  intros H.
  destruct payload as [| |b|r|s|items|props];
    try (eexists; eexists; split; [reflexivity | discriminate]).
  now destruct (H props).
Qed.

(** A valid leads submission leads to exactly one call to the backend,
    whose body is the parsed payload, serialized again. *)
Lemma leads_forwards w req base text payload :
  method req = js "POST" ->
  getBackendBase w = inr base ->
  bodyText req = inr text ->
  JSON_parse (orElse (Some text) (js "{}")) = Some payload ->
  validatePayload payload = Valid ->
  calls (handler URL_token JSON_parse w req) =
  [mkUpRequest (base ++ js "/marketing/generate_leads") (js "POST")
               (Some (js "application/json")) (JSON.stringify payload)].
Proof.
  intros Hm Hb Ht Hp Hv.
  unfold handler, handlerBody.
  rewrite Hm, Hb, Ht.
  change (JsString.eqb (js "POST") (js "OPTIONS")) with false.
  change (JsString.eqb (js "POST") (js "POST")) with true.
  cbn [negb]. rewrite !bind_lift. rewrite Hp, Hv.
  set (r := mkUpRequest _ _ _ _).
  unfold tryCatch.
  set (st1 := snd (setCors false initial)).
  assert (E : forall k : unit -> M unit,
             bind (setCors false) k initial = k tt st1) by reflexivity.
  rewrite E. unfold bind, fetch.
  destruct (upstream w r) as [e|up].
  - rewrite keepsCalls_internalError. reflexivity.
  - pose proof (keepsCalls_answerSubmission URL_token up
                  (mkSt (res st1) (calls st1 ++ [r]) (console st1))) as K.
    destruct (answerSubmission URL_token up _) as [[e|[]] st'];
      cbn [snd] in *.
    + rewrite keepsCalls_internalError. exact K.
    + exact K.
Qed.

(** C10: the validator returns [INVALID_FILTERS] only for a payload whose
    [filters] is a boolean, a number or a string, and it does so for every
    such payload that passes the earlier tests; a payload that passes them
    and whose [filters] is [null] or an array is accepted, and the handler
    sends it to the backend as it was parsed. *)
Theorem filters_type_check w req base text payload :
  (forall error,
     validatePayload payload = Invalid error (js "INVALID_FILTERS") ->
     primitive (field "filters" payload) = true) /\
  (seedsValid payload = true ->
   primitive (field "filters" payload) = true ->
   exists error,
     validatePayload payload = Invalid error (js "INVALID_FILTERS")) /\
  (seedsValid payload = true ->
   field "filters" payload = Js.Null \/
   (exists items, field "filters" payload = Js.Arr items) ->
   validatePayload payload = Valid /\
   (method req = js "POST" ->
    getBackendBase w = inr base ->
    bodyText req = inr text ->
    JSON_parse (orElse (Some text) (js "{}")) = Some payload ->
    calls (handler URL_token JSON_parse w req) =
    [mkUpRequest (base ++ js "/marketing/generate_leads") (js "POST")
                 (Some (js "application/json"))
                 (JSON.stringify payload)])).
Proof.
  assert (Hvalid : seedsValid payload = true ->
            primitive (field "filters" payload) = false ->
            validatePayload payload = Valid).
  { unfold seedsValid. destruct payload as [| | | | | |props];
      try discriminate.
    rewrite validatePayload_object. unfold field, Js.getProp.
    destruct (Js.lookup (js "seedUserNames") props) as [| | | | |[|u us]|];
      try discriminate.
    intros Hs Hp. apply negb_true_iff in Hs. now rewrite Hs, Hp. }
  split; [|split].
  - intros error H.
    destruct payload as [| |b|r|s|items|props];
      try (vm_compute in H; discriminate H).
    rewrite validatePayload_object in H. unfold field, Js.getProp.
    destruct (Js.lookup (js "seedUserNames") props) as [| | | | |[|u us]|];
      try (vm_compute in H; discriminate H).
    destruct (existsb badSeed (u :: us));
      [injection H as _ H; vm_compute in H; discriminate H|].
    destruct (primitive (Js.lookup (js "filters") props));
      [reflexivity | discriminate H].
  - unfold seedsValid. destruct payload as [| | | | | |props];
      try discriminate.
    rewrite validatePayload_object. unfold field, Js.getProp.
    destruct (Js.lookup (js "seedUserNames") props) as [| | | | |[|u us]|];
      try discriminate.
    intros Hs Hp. apply negb_true_iff in Hs. rewrite Hs, Hp.
    eexists. reflexivity.
  - intros Hs Hf.
    assert (Hv : validatePayload payload = Valid).
    { apply Hvalid; [exact Hs|].
      destruct Hf as [-> | [items ->]]; reflexivity. }
    split; [exact Hv|].
    intros Hm Hb Ht Hp. now apply (leads_forwards w req base text payload).
Qed.

End Leads.

Section LeadsExamples.
Import Http Shared Claims GenerateLeads.

Lemma filters_type_check_witness :
  validatePayload (leadsPayload Js.Null) = Valid /\
  map upBody
    (calls (handler Whatwg.URL_token
              (parseOnly nullFiltersText (leadsPayload Js.Null))
              configured
              (mkRequest (js "POST") (js "/api/marketing/generate_leads")
                         (inr nullFiltersText))))
  = [Some nullFiltersText].
Proof.
  destruct (filters_type_check Whatwg.URL_token
              (parseOnly nullFiltersText (leadsPayload Js.Null))
              configured
              (mkRequest (js "POST") (js "/api/marketing/generate_leads")
                         (inr nullFiltersText))
              (js "https://backend.example:8443") nullFiltersText
              (leadsPayload Js.Null))
    as (_ & _ & H).
  destruct (H eq_refl (or_introl eq_refl)) as [Hv Hcalls].
  split; [exact Hv|].
  rewrite (Hcalls eq_refl eq_refl eq_refl eq_refl).
  vm_compute. reflexivity.
Defined.

(** Arrays and [null] pass, strings and numbers do not. *)
Lemma filters_examples :
  validatePayload (leadsPayload (Js.Arr [Js.Num (js "1")])) = Valid /\
  validatePayload (leadsPayload Js.Null) = Valid /\
  validatePayload (leadsPayload (Js.Obj [])) = Valid /\
  validatePayload (leadsPayload (Js.Str (js "x"))) =
    Invalid (js "filters must be an object if provided.")
            (js "INVALID_FILTERS") /\
  validatePayload (leadsPayload (Js.Num (js "5"))) =
    Invalid (js "filters must be an object if provided.")
            (js "INVALID_FILTERS").
Proof. vm_compute. repeat split. Qed.

(** The second seed is blank after trimming: [INVALID_SEED_ITEM]. *)
Lemma blank_seed_example :
  validatePayload
    (Js.Obj [(js "seedUserNames", Js.Arr [Js.Str (js "a"); Js.Str (js " ")])])
  = Invalid (js "Each seed user name must be a non-empty string.")
            (js "INVALID_SEED_ITEM").
Proof. vm_compute. reflexivity. Qed.

End LeadsExamples.

(* ================================================================== *)
(** * Part III: further properties of the code                         *)
(* ================================================================== *)

(** ** The backoff generator, for every parameter *)

Section BackoffGeneral.
Import Polling.




End BackoffGeneral.

(** ** Every polling session *)

Section EverySession.
Import Polling PollingText Claims.

Lemma waited_app l1 l2 : waited (l1 ++ l2) = (waited l1 + waited l2)%Z.
Proof.
  induction l1 as [|[] l1 IH]; cbn [app waited]; rewrite ?IH; lia.
Qed.

Lemma ticks_no_time evs : forallb isTick evs = true -> waited evs = 0%Z.
Proof.
  induction evs as [|[] evs IH]; cbn [forallb isTick waited]; intros H;
    try discriminate; auto.
Qed.

(** The counters of one iteration: the fetch call and what it reports. *)
Lemma iteration_counts env url a :
  fetchCalls (EvFetch url :: snd (tryCatch env a)) = 1 /\
  waits (EvFetch url :: snd (tryCatch env a)) = 0 /\
  downloads (EvFetch url :: snd (tryCatch env a)) = 0 /\
  waited (EvFetch url :: snd (tryCatch env a)) = 0%Z.
Proof.
  pose proof (tryCatch_ticks env a) as H.
  unfold fetchCalls, waits, downloads.
  cbn [filter isFetch isWait isDownload waited].
  rewrite (ticks_no_fetch _ H), (ticks_no_wait _ H),
    (ticks_no_download _ H), (ticks_no_time _ H).
  repeat split.
Qed.

(** The shape of the loop's result: the loop either stops in iteration [a]
    (by the entry check, by leaving the [try] block, by exhaustion of the
    delays or by an abort in the wait) or runs the iteration and goes on. *)
Lemma pollLoop_cases env url it a :
  pollLoop env url it a = (Rejected AbortError, []) \/
  (exists o, pollLoop env url it a =
             (o, EvFetch url :: snd (tryCatch env a)) /\
             o <> Resolved false) \/
  (exists d it', it = d :: it' /\
     (pollLoop env url it a =
      (Rejected AbortError,
       (EvFetch url :: snd (tryCatch env a)) ++ [EvWait d]) \/
      pollLoop env url it a =
      (fst (pollLoop env url it' (S a)),
       (EvFetch url :: snd (tryCatch env a)) ++
       EvWait d :: snd (pollLoop env url it' (S a))))).
Proof.
  destruct it as [|d it']; cbn [pollLoop];
    destruct (abortedAtEntry env a); auto; right;
    destruct (tryCatch env a) as [[| |e] evs]; cbn [snd];
    try (left; eexists; split; [reflexivity | discriminate]).
  right. exists d, it'. split; [reflexivity|].
  destruct (abortedInWait env a); [left; reflexivity|].
  right. destruct (pollLoop env url it' (S a)). reflexivity.
Qed.

Lemma total_nonneg it :
  Forall (fun d => (0 <= d)%Z) it -> (0 <= total it)%Z.
Proof. induction 1; cbn [total]; lia. Qed.

(** The loop never resolves with [ready: false], triggers nothing by
    itself, and is bounded by the delays it is given. *)
Lemma pollLoop_bounds env url it : forall a,
  Forall (fun d => (0 <= d)%Z) it ->
  let r := pollLoop env url it a in
  fst r <> Resolved false /\
  downloads (snd r) = 0 /\
  fetchCalls (snd r) <= S (length it) /\
  waits (snd r) <= length it /\
  waits (snd r) <= fetchCalls (snd r) /\
  (0 <= waited (snd r) <= total it)%Z.
Proof.
  induction it as [|d it IH]; intros a Hpos r; subst r.
  - destruct (pollLoop_cases env url [] a)
      as [H|[(o & H & Ho)|(d & it' & E & _)]];
      [| |discriminate E]; rewrite H; cbn [fst snd].
    + repeat split; cbn; try lia. discriminate.
    + destruct (iteration_counts env url a) as (F & W & D & T).
      rewrite F, W, D, T. cbn [length total]. repeat split; auto; lia.
  - inversion Hpos as [|? ? Hd Hit]; subst.
    pose proof (total_nonneg it Hit) as Htot.
    destruct (iteration_counts env url a) as (F & W & D & T).
    destruct (pollLoop_cases env url (d :: it) a)
      as [H|[(o & H & Ho)|(d' & it' & E & [H|H])]];
      try (injection E as <- <-); rewrite H; cbn [fst snd].
    + repeat split; cbn; try lia. discriminate.
    + rewrite F, W, D, T. cbn [length total].
      repeat split; auto; lia.
    + rewrite fetchCalls_app, waits_app, downloads_app, waited_app.
      rewrite F, W, D, T. cbn [length total].
      unfold fetchCalls, waits, downloads.
      cbn [filter isFetch isWait isDownload length waited].
      repeat split; try lia. discriminate.
    + destruct (IH (S a) Hit) as (R & D' & F' & W' & O' & T').
      rewrite fetchCalls_app, waits_app, downloads_app, waited_app.
      rewrite F, W, D, T. cbn [length total].
      change (EvWait d :: snd (pollLoop env url it (S a)))
        with ([EvWait d] ++ snd (pollLoop env url it (S a))).
      rewrite fetchCalls_app, waits_app, downloads_app, waited_app.
      change (fetchCalls [EvWait d]) with 0.
      change (waits [EvWait d]) with 1.
      change (downloads [EvWait d]) with 0.
      change (waited [EvWait d]) with (d + 0)%Z.
      rewrite D'. repeat split; auto; lia.
Qed.

Lemma default_delays_total :
  total (backoffIterator defaultMaxAttempts defaultCapMs) = 856000%Z /\
  forallb (fun d => (0 <=? d)%Z)
          (backoffIterator defaultMaxAttempts defaultCapMs) = true.
Proof. vm_compute. split; reflexivity. Qed.

(** X2: whatever the upstream replies and whenever the signal fires, one
    call of [waitAndDownload] makes at most 61 fetch calls and 60 waits,
    no more waits than fetch calls, spends at most 856000 ms in its waits,
    and triggers at most one download. *)
Theorem session_is_bounded env url :
  let log := snd (waitAndDownload env url) in
  fetchCalls log <= 61 /\ waits log <= 60 /\ waits log <= fetchCalls log /\
  (0 <= waited log <= 856000)%Z /\ downloads log <= 1.
Proof.
  cbv zeta.
  destruct default_delays_total as [Ht Hp].
  assert (Hpos : Forall (fun d => (0 <= d)%Z)
                   (backoffIterator defaultMaxAttempts defaultCapMs)).
  { rewrite Forall_forall. rewrite forallb_forall in Hp.
    intros d Hd. apply Z.leb_le. now apply Hp. }
  destruct (pollLoop_bounds env url _ 0 Hpos) as (R & D & F & W & O & T).
  rewrite backoffIterator_length in F, W. rewrite Ht in T.
  unfold waitAndDownload, pollForReady.
  destruct (pollLoop env url _ 0) as [[[|]|e] log]; cbn [fst snd] in *.
  - rewrite fetchCalls_app, waits_app, downloads_app, waited_app, D.
    change (fetchCalls (triggerBrowserDownload url)) with 0.
    change (waits (triggerBrowserDownload url)) with 0.
    change (downloads (triggerBrowserDownload url)) with 1.
    change (waited (triggerBrowserDownload url)) with 0%Z.
    unfold defaultMaxAttempts in *. repeat split; lia.
  - now destruct R.
  - unfold defaultMaxAttempts in *. repeat split; lia.
Qed.

Lemma retriedLog_waited env url its : forall a,
  waited (retriedLog env url its a) = total its.
Proof.
  induction its as [|d its IH]; intros a; [reflexivity|].
  cbn [retriedLog waited total].
  rewrite waited_app, (ticks_no_time _ (tryCatch_ticks env a)).
  cbn [waited]. now rewrite IH.
Qed.

Lemma tryCatch_return env a evs :
  tryCatch env a = (Return, evs) ->
  exists text, reply env a = Response 200 text.
Proof.
  unfold tryCatch, tryBlock.
  destruct (reply env a) as [status text | e].
  - destruct (N.eqb_spec status 200) as [->|_];
      [intros _; now exists text|].
    repeat match goal with
           | |- context [if ?c then _ else _] => destruct c
           end; cbn [catchClause statusError exnName];
      try discriminate;
      change (JsString.eqb (js "Error") (js "AbortError")) with false;
      cbv iota; discriminate.
  - cbv iota. unfold catchClause.
    destruct (JsString.eqb (exnName e) (js "AbortError")); discriminate.
Qed.

(** The loop resolves only in an iteration whose reply has status 200. *)
Lemma pollLoop_resolved env url it : forall a log,
  pollLoop env url it a = (Resolved true, log) ->
  exists k text,
    a <= k /\ reply env k = Response 200 text /\
    fetchCalls log = S (k - a).
Proof.
  induction it as [|d it IH]; intros a log H; cbn [pollLoop] in H;
    destruct (abortedAtEntry env a); try discriminate;
    pose proof (iteration_counts env url a) as (F & _);
    destruct (tryCatch env a) as [[| |e] evs] eqn:E; try discriminate;
    cbn [snd] in F.
  - injection H as <-. destruct (tryCatch_return env a evs E) as [text Ht].
    exists a, text. rewrite F. repeat split; auto. f_equal. lia.
  - destruct (abortedInWait env a); [discriminate|].
    destruct (pollLoop env url it (S a)) as [o rest] eqn:Er.
    injection H as -> <-.
    destruct (IH (S a) rest Er) as (k & text & Hk & Hr & Hf).
    exists k, text. repeat split; auto; [lia|].
    change (EvFetch url :: evs ++ EvWait d :: rest)
      with ((EvFetch url :: evs) ++ [EvWait d] ++ rest).
    rewrite !fetchCalls_app, F, Hf.
    change (fetchCalls [EvWait d]) with 0. lia.
  - injection H as <-. destruct (tryCatch_return env a evs E) as [text Ht].
    exists a, text. rewrite F. repeat split; auto. f_equal. lia.
Qed.

(** X3: a download happens only at the end of a session that resolved, and
    a session resolves only on a reply with status 200: a resolved session
    ends with its single download, issued after the fetch call that was
    answered with 200, and a rejected session has no download at all. *)
Theorem download_only_after_ready env url :
  match waitAndDownload env url with
  | (Resolved true, log) =>
      exists evs k text,
        log = evs ++ [EvDownload url] /\ downloads evs = 0 /\
        reply env k = Response 200 text /\ fetchCalls evs = S k
  | (Resolved false, _) => False
  | (Rejected e, log) => downloads log = 0
  end.
Proof.
  destruct default_delays_total as [_ Hp].
  assert (Hpos : Forall (fun d => (0 <= d)%Z)
                   (backoffIterator defaultMaxAttempts defaultCapMs)).
  { rewrite Forall_forall. rewrite forallb_forall in Hp.
    intros d Hd. apply Z.leb_le. now apply Hp. }
  destruct (pollLoop_bounds env url _ 0 Hpos) as (R & D & _).
  unfold waitAndDownload, pollForReady.
  destruct (pollLoop env url _ 0) as [[[|]|e] log] eqn:E;
    cbn [fst snd] in *.
  - destruct (pollLoop_resolved env url _ 0 log E) as (k & text & _ & Hr & Hf).
    exists log, k, text. rewrite Nat.sub_0_r in Hf. auto.
  - now apply R.
  - exact D.
Qed.

(** X4: when no cancellation is signalled and none of the 61 replies is the
    result or an abort (pending, client and server errors, network errors
    alike), the session runs through all 60 delays and rejects with the
    timed-out error of status 504 after 61 fetch calls. *)
Theorem exhausted_session_times_out env url :
  signal env = None ->
  (forall j, j <= defaultMaxAttempts -> retried (reply env j) = true) ->
  let its := backoffIterator defaultMaxAttempts defaultCapMs in
  let result := waitAndDownload env url in
  result = (Rejected (statusError (js "Polling timed out") 504),
            retriedLog env url its 0 ++
            EvFetch url :: snd (tryCatch env defaultMaxAttempts)) /\
  fetchCalls (snd result) = 61 /\ waits (snd result) = 60 /\
  waited (snd result) = 856000%Z /\ downloads (snd result) = 0.
Proof.
  intros Hs Hr its result.
  assert (He : forall j, abortedAtEntry env j = false)
    by (intros j; unfold abortedAtEntry; now rewrite Hs).
  assert (Hw : forall j, abortedInWait env j = false)
    by (intros j; unfold abortedInWait; now rewrite Hs).
  assert (Hlen : length its = defaultMaxAttempts)
    by apply backoffIterator_length.
  assert (Hrun : result =
            (Rejected (statusError (js "Polling timed out") 504),
             retriedLog env url its 0 ++
             EvFetch url :: snd (tryCatch env defaultMaxAttempts))).
  { unfold result, waitAndDownload, pollForReady. fold its.
    rewrite <- (app_nil_r its) at 1.
    rewrite pollLoop_prefix.
    - rewrite Hlen. cbn [Nat.add pollLoop]. rewrite He.
      pose proof (tryCatch_retried env defaultMaxAttempts
                    (Hr _ (Nat.le_refl _))) as Hn.
      destruct (tryCatch env defaultMaxAttempts) as [c evs].
      cbn [fst] in Hn. subst c. reflexivity.
    - rewrite Hlen. intros j Hj. repeat split; auto. apply Hr. lia. }
  split; [exact Hrun|]. rewrite Hrun. cbn [snd].
  destruct (iteration_counts env url defaultMaxAttempts) as (F & W & D & T).
  rewrite fetchCalls_app, waits_app, downloads_app, waited_app.
  rewrite F, W, D, T.
  rewrite retriedLog_fetchCalls, retriedLog_waits, retriedLog_downloads.
  rewrite Hlen. unfold defaultMaxAttempts.
  rewrite retriedLog_waited. unfold its.
  destruct default_delays_total as [-> _].
  repeat split; reflexivity.
Qed.

Lemma exhausted_session_times_out_witness :
  fst (waitAndDownload Samples.alwaysPending sampleLocation)
  = Rejected (statusError (js "Polling timed out") 504).
Proof.
  destruct (exhausted_session_times_out Samples.alwaysPending sampleLocation
              eq_refl (fun j _ => eq_refl)) as [H _].
  cbv zeta in H. now rewrite H.
Defined.

(** X5: a fetch that is aborted in flight (it rejects with an error named
    ['AbortError']) ends the session with that error at once: no report
    through [onTick], no wait, no further fetch call, no download. *)
Theorem abort_in_flight_stops_session env url k e :
  k <= defaultMaxAttempts ->
  signal env = None ->
  (forall j, j < k -> retried (reply env j) = true) ->
  reply env k = FetchRejects e ->
  exnName e = js "AbortError" ->
  let its := backoffIterator defaultMaxAttempts defaultCapMs in
  let result := waitAndDownload env url in
  result = (Rejected e, retriedLog env url (firstn k its) 0 ++ [EvFetch url])
  /\ fetchCalls (snd result) = S k /\ waits (snd result) = k /\
  downloads (snd result) = 0.
Proof.
  intros Hk Hs Hr Hk' Hn its result.
  assert (He : forall j, abortedAtEntry env j = false)
    by (intros j; unfold abortedAtEntry; now rewrite Hs).
  assert (Hw : forall j, abortedInWait env j = false)
    by (intros j; unfold abortedInWait; now rewrite Hs).
  assert (Hlen : length (firstn k its) = k).
  { rewrite length_firstn. unfold its.
    rewrite backoffIterator_length. lia. }
  assert (Htc : tryCatch env k = (Throw e, [])).
  { unfold tryCatch, tryBlock. rewrite Hk'. cbv iota.
    unfold catchClause. rewrite Hn.
    change (JsString.eqb (js "AbortError") (js "AbortError")) with true.
    reflexivity. }
  assert (Hrun : result =
            (Rejected e,
             retriedLog env url (firstn k its) 0 ++ [EvFetch url])).
  { unfold result, waitAndDownload, pollForReady. fold its.
    rewrite <- (firstn_skipn k its) at 1.
    rewrite pollLoop_prefix.
    - rewrite Hlen. cbn [Nat.add].
      assert (Hstep : forall it, pollLoop env url it k =
                                 (Rejected e, [EvFetch url])).
      { intros it. destruct it; cbn [pollLoop]; rewrite He, Htc;
          reflexivity. }
      rewrite Hstep. reflexivity.
    - rewrite Hlen. intros j Hj. repeat split; auto. apply Hr. lia. }
  split; [exact Hrun|]. rewrite Hrun. cbn [snd].
  rewrite fetchCalls_app, waits_app, downloads_app.
  rewrite retriedLog_fetchCalls, retriedLog_waits, retriedLog_downloads, Hlen.
  change (fetchCalls [EvFetch url]) with 1.
  change (waits [EvFetch url]) with 0.
  change (downloads [EvFetch url]) with 0.
  repeat split; lia.
Qed.

Lemma abort_in_flight_stops_session_witness :
  waitAndDownload Samples.abortedInFlight sampleLocation =
  (Rejected AbortError,
   [EvFetch sampleLocation; EvWait 2000; EvFetch sampleLocation]).
Proof.
  assert (Hk : 1 <= defaultMaxAttempts) by (unfold defaultMaxAttempts; lia).
  assert (Hr : forall j, j < 1 ->
                 retried (reply Samples.abortedInFlight j) = true).
  { intros j Hj. assert (j = 0) by lia. subst. reflexivity. }
  destruct (abort_in_flight_stops_session Samples.abortedInFlight
              sampleLocation 1 AbortError Hk eq_refl Hr eq_refl eq_refl)
    as [H _].
  cbv zeta in H. rewrite H. vm_compute. reflexivity.
Defined.

(** X6: [waitForCsvText] never triggers a download; it returns a text only
    when the poll resolved and the one further request was answered with
    status 200 and that text, and it then made exactly one fetch call more
    than the poll; when the poll rejects, it rejects with the same error
    without any further fetch call. *)
Theorem csv_text_session env url final :
  let r := waitForCsvText env url final in
  downloads (snd r) = 0 /\
  (forall text, fst r = inr text ->
     fst (pollForReady env url) = Resolved true /\
     final = FinalResponse 200 (inr text) /\
     snd r = snd (pollForReady env url) ++ [EvFetch url]) /\
  (forall e, fst (pollForReady env url) = Rejected e ->
     r = (inl e, snd (pollForReady env url))).
Proof.
  cbv zeta.
  destruct default_delays_total as [_ Hp].
  assert (Hpos : Forall (fun d => (0 <= d)%Z)
                   (backoffIterator defaultMaxAttempts defaultCapMs)).
  { rewrite Forall_forall. rewrite forallb_forall in Hp.
    intros d Hd. apply Z.leb_le. now apply Hp. }
  pose proof (pollLoop_bounds env url _ 0 Hpos) as (_ & D & _).
  clear Hp Hpos.
  unfold waitForCsvText, pollForReady.
  destruct (pollLoop env url _ 0) as [[[|]|e] log]; cbn [fst snd] in *.
  - destruct final as [status text|e].
    + destruct (N.eqb_spec status 200) as [->|Hne]; cbn [negb fst snd];
        rewrite downloads_app, D;
        (split; [reflexivity|]); split;
        try discriminate; try (intros t Ht; discriminate Ht).
      intros t ->. repeat split.
    + cbn [fst snd]. rewrite downloads_app, D.
      (split; [reflexivity|]); split; discriminate.
  - (split; [exact D|]); split; discriminate.
  - (split; [exact D|]); split; [discriminate|].
    intros e' H. now injection H as ->.
Qed.

Lemma csv_text_session_witness :
  waitForCsvText Samples.readyAtOnce sampleLocation
    (FinalResponse 200 (inr (js "userName,userLink")))
  = (inr (js "userName,userLink"),
     [EvFetch sampleLocation; EvFetch sampleLocation]).
Proof.
  destruct (csv_text_session Samples.readyAtOnce sampleLocation
              (FinalResponse 200 (inr (js "userName,userLink"))))
    as (_ & H & _).
  destruct (H (js "userName,userLink")) as (_ & _ & Hlog).
  - vm_compute. reflexivity.
  - vm_compute. reflexivity.
Defined.

End EverySession.

(** ** The handlers: what every answer has *)

Section EveryAnswer.
Import Http Shared Claims Answers.
Local Open Scope handler_scope.

Variable URL_token : jsstring -> option (option jsstring).
Variable JSON_parse : jsstring -> option Js.value.
Variable URL_search : jsstring -> option jsstring.

Lemma bind_run {A B} (m : M A) (k : A -> M B) st :
  bind m k st =
  match m st with
  | (inr a, st') => k a st'
  | (inl e, st') => (inl e, st')
  end.
Proof. reflexivity. Qed.

(** *** Exceptions leave nothing behind *)

Lemma quiet_ret {A} (a : A) : quiet (ret a).
Proof. intros st H. exact H. Qed.

Lemma quiet_lift {A} (r : Exn + A) : quiet (lift r).
Proof. destruct r; intros st H; exact H. Qed.

Lemma quiet_setHeader k v : quiet (setHeader k v).
Proof. intros st H. exact H. Qed.

Lemma quiet_setHeaderValue k v : quiet (setHeaderValue k v).
Proof. intros st H. exact H. Qed.

Lemma quiet_setStatus n : quiet (setStatus n).
Proof. intros st H. exact H. Qed.

Lemma quiet_fetch w r : quiet (fetch w r).
Proof. intros st H. exact H. Qed.

Lemma quiet_bind {A B} (m : M A) (k : A -> M B) :
  quiet m -> (forall a, quiet (k a)) -> quiet (bind m k).
Proof.
  intros Hm Hk st H. rewrite bind_run.
  specialize (Hm st H). destruct (m st) as [[e|a] st']; cbn [snd] in *.
  - exact Hm.
  - now apply Hk.
Qed.

Lemma neverThrows_ret {A} (a : A) : neverThrows (ret a).
Proof. intros st. now exists a. Qed.

Lemma neverThrows_updRes f : neverThrows (updRes f).
Proof. intros st. now exists tt. Qed.

Lemma neverThrows_consoleError tag e : neverThrows (consoleError tag e).
Proof. intros st. now exists tt. Qed.

Lemma neverThrows_bind {A B} (m : M A) (k : A -> M B) :
  neverThrows m -> (forall a, neverThrows (k a)) -> neverThrows (bind m k).
Proof.
  intros Hm Hk st. rewrite bind_run.
  destruct (Hm st) as [a Ha]. destruct (m st) as [[e|a'] st'];
    cbn [fst] in Ha; [discriminate|]. apply Hk.
Qed.

Lemma cleanThrow_never {A} (m : M A) : neverThrows m -> cleanThrow m.
Proof.
  intros H st e _ He. destruct (H st) as [a Ha]. congruence.
Qed.

Lemma cleanThrow_quiet {A} (m : M A) : quiet m -> cleanThrow m.
Proof. intros H st e Hs _. now apply H. Qed.

Lemma cleanThrow_bind {A B} (m : M A) (k : A -> M B) :
  quiet m -> (forall a, cleanThrow (k a)) -> cleanThrow (bind m k).
Proof.
  intros Hm Hk st e Hs. rewrite bind_run.
  specialize (Hm st Hs). destruct (m st) as [[e'|a] st']; cbn [fst snd] in *.
  - intros _. exact Hm.
  - now apply Hk.
Qed.

Create HintDb quiet.
Create HintDb never.

#[local] Hint Resolve quiet_ret quiet_lift quiet_setHeader
  quiet_setHeaderValue quiet_setStatus quiet_fetch : quiet.

Lemma neverThrows_setHeader k v : neverThrows (setHeader k v).
Proof. apply neverThrows_updRes. Qed.

Lemma neverThrows_setHeaderValue k v : neverThrows (setHeaderValue k v).
Proof. apply neverThrows_updRes. Qed.

Lemma neverThrows_setStatus n : neverThrows (setStatus n).
Proof. apply neverThrows_updRes. Qed.

Lemma neverThrows_endWith c : neverThrows (endWith c).
Proof. apply neverThrows_updRes. Qed.

Lemma neverThrows_endJson v : neverThrows (endJson v).
Proof. apply neverThrows_endWith. Qed.

#[local] Hint Resolve neverThrows_ret neverThrows_updRes
  neverThrows_consoleError neverThrows_setHeader neverThrows_setHeaderValue
  neverThrows_setStatus neverThrows_endWith neverThrows_endJson : never.

Ltac never :=
  repeat first
    [ solve [auto with never]
    | apply neverThrows_bind; [|intros ?]
    | match goal with
      | |- neverThrows (if ?c then _ else _) => destruct c
      | |- neverThrows (match ?x with _ => _ end) => destruct x
      end ].

Ltac quiets :=
  repeat first
    [ solve [auto with quiet]
    | apply quiet_bind; [|intros ?]
    | match goal with
      | |- quiet (if ?c then _ else _) => destruct c
      | |- quiet (match ?x with _ => _ end) => destruct x
      end ].

Ltac clean :=
  repeat first
    [ solve [auto]
    | solve [apply cleanThrow_never; never]
    | solve [apply cleanThrow_quiet; quiets]
    | apply cleanThrow_bind; [solve [quiets] | intros ?]
    | match goal with
      | |- cleanThrow (if ?c then _ else _) => destruct c
      | |- cleanThrow (match ?x with _ => _ end) => destruct x
      end ].

Lemma quiet_setCors maxAge : quiet (setCors maxAge).
Proof. unfold setCors. quiets. Qed.

Lemma neverThrows_setCors maxAge : neverThrows (setCors maxAge).
Proof. unfold setCors. never. Qed.

#[local] Hint Resolve quiet_setCors : quiet.
#[local] Hint Resolve neverThrows_setCors : never.

Lemma neverThrows_rejection error code : neverThrows (rejection error code).
Proof. unfold rejection. never. Qed.

Lemma neverThrows_internalError tag maxAge e :
  neverThrows (internalError tag maxAge e).
Proof. unfold internalError. never. Qed.

Lemma neverThrows_pipe t : neverThrows (Results.pipe t).
Proof. unfold Results.pipe. never. Qed.

#[local] Hint Resolve neverThrows_rejection neverThrows_pipe : never.

Lemma cleanThrow_relayBody up : cleanThrow (relayBody up).
Proof. unfold relayBody. clean. Qed.

Lemma cleanThrow_answerSubmission up :
  cleanThrow (answerSubmission URL_token up).
Proof.
  unfold answerSubmission. pose proof cleanThrow_relayBody as K. clean.
Qed.

(** In each handler, an exception of the [try] block is thrown before
    anything is written. *)
Lemma cleanThrow_dm_list w req :
  cleanThrow (GenerateDmList.handlerBody URL_token w req).
Proof.
  unfold GenerateDmList.handlerBody.
  pose proof cleanThrow_answerSubmission as K. clean.
Qed.

Lemma cleanThrow_leads w req :
  cleanThrow (GenerateLeads.handlerBody URL_token JSON_parse w req).
Proof.
  unfold GenerateLeads.handlerBody.
  pose proof cleanThrow_answerSubmission as K. clean.
Qed.

Lemma cleanThrow_results w req :
  cleanThrow (Results.handlerBody URL_search w req).
Proof.
  unfold Results.handlerBody.
  pose proof cleanThrow_relayBody as K. clean.
Qed.

Lemma internalError_run tag maxAge e st :
  let st' := snd (internalError tag maxAge e st) in
  statusCode (res st') = 500%N /\
  written (res st') = written (res st) ++ [Text genericBody] /\
  console st' = console st ++ [(js tag, e)] /\
  calls st' = calls st.
Proof. destruct maxAge; repeat split. Qed.

Lemma caught_fault (body : M unit) tag maxAge e :
  cleanThrow body ->
  fst (body initial) = inl e ->
  let st := snd (tryCatch body (internalError tag maxAge) initial) in
  statusCode (res st) = 500%N /\
  written (res st) = [Text genericBody] /\
  console st = [(js tag, e)].
Proof.
  intros Hc He. cbv zeta. unfold tryCatch.
  assert (Hs : silent initial) by (split; reflexivity).
  specialize (Hc initial e Hs He).
  destruct (body initial) as [[e'|[]] st']; cbn [fst snd] in *;
    [|discriminate].
  injection He as ->. destruct Hc as [Hw Hl].
  destruct (internalError_run tag maxAge e st') as (S1 & S2 & S3 & _).
  rewrite S1, S2, S3, Hw, Hl. repeat split.
Qed.

(** X7: whatever exception the [try] block of a handler throws (the
    missing setting, an unreadable request body, an unreachable backend, a
    body that is not JSON, a result location that cannot be encoded), the
    answer is status 500 with the body [{"error":"Internal Server Error"}]
    and nothing else; the exception goes to the log of the function and
    nothing of it into the answer. *)
Theorem faults_fail_closed w req e :
  (fst (GenerateDmList.handlerBody URL_token w req initial) = inl e ->
   let st := GenerateDmList.handler URL_token w req in
   statusCode (res st) = 500%N /\
   written (res st) = [Text genericBody] /\
   console st = [(js "Proxy error (generate_dm_list):", e)]) /\
  (fst (GenerateLeads.handlerBody URL_token JSON_parse w req initial)
   = inl e ->
   let st := GenerateLeads.handler URL_token JSON_parse w req in
   statusCode (res st) = 500%N /\
   written (res st) = [Text genericBody] /\
   console st = [(js "Proxy error (generate_leads):", e)]) /\
  (fst (Results.handlerBody URL_search w req initial) = inl e ->
   let st := Results.handler URL_search w req in
   statusCode (res st) = 500%N /\
   written (res st) = [Text genericBody] /\
   console st = [(js "Proxy error (results):", e)]).
Proof.
  split; [|split]; intros H.
  - exact (caught_fault _ _ _ _ (cleanThrow_dm_list w req) H).
  - exact (caught_fault _ _ _ _ (cleanThrow_leads w req) H).
  - exact (caught_fault _ _ _ _ (cleanThrow_results w req) H).
Qed.

(** *** The headers of [setCors] stay *)

Lemma assign_cors maxAge k v rest :
  forallb (fun kv => negb (JsString.eqb (fst kv) k)) (corsHeaders true)
  = true ->
  assign k v (corsHeaders maxAge ++ rest)
  = corsHeaders maxAge ++ assign k v rest.
Proof.
  intros H. cbn [corsHeaders forallb app fst] in H.
  repeat (apply andb_true_iff in H; destruct H as [?H H]).
  repeat match goal with
         | K : negb _ = true |- _ => apply negb_true_iff in K
         end.
  destruct maxAge; cbn [corsHeaders app assign];
    repeat match goal with
           | K : JsString.eqb _ k = false |- _ => rewrite K; clear K
           end; reflexivity.
Qed.

Lemma keepsCors_updHeaders maxAge k v :
  forallb (fun kv => negb (JsString.eqb (fst kv) k)) (corsHeaders true)
  = true ->
  keepsCors maxAge
    (updRes (fun r => mkRes (statusCode r) (assign k v (headers r))
                            (written r) (ended r))).
Proof.
  intros H st [rest Hr]. exists (assign k v rest).
  cbn [updRes snd res headers]. rewrite Hr. now apply assign_cors.
Qed.

Lemma keepsCors_setHeader maxAge k v :
  forallb (fun kv => negb (JsString.eqb (fst kv) (js k))) (corsHeaders true)
  = true ->
  keepsCors maxAge (setHeader k v).
Proof. apply keepsCors_updHeaders. Qed.

Lemma keepsCors_setHeaderValue maxAge k v :
  forallb (fun kv => negb (JsString.eqb (fst kv) (js k))) (corsHeaders true)
  = true ->
  keepsCors maxAge (setHeaderValue k v).
Proof. apply keepsCors_updHeaders. Qed.

Lemma keepsCors_same {A} maxAge (m : M A) :
  (forall st, headers (res (snd (m st))) = headers (res st)) ->
  keepsCors maxAge m.
Proof. intros H st [rest Hr]. exists rest. now rewrite H. Qed.

Lemma keepsCors_ret {A} maxAge (a : A) : keepsCors maxAge (ret a).
Proof. now apply keepsCors_same. Qed.

Lemma keepsCors_lift {A} maxAge (r : Exn + A) : keepsCors maxAge (lift r).
Proof. apply keepsCors_same. now destruct r. Qed.

Lemma keepsCors_setStatus maxAge n : keepsCors maxAge (setStatus n).
Proof. now apply keepsCors_same. Qed.

Lemma keepsCors_endWith maxAge c : keepsCors maxAge (endWith c).
Proof. now apply keepsCors_same. Qed.

Lemma keepsCors_endJson maxAge v : keepsCors maxAge (endJson v).
Proof. apply keepsCors_endWith. Qed.

Lemma keepsCors_fetch maxAge w r : keepsCors maxAge (fetch w r).
Proof. now apply keepsCors_same. Qed.

Lemma keepsCors_consoleError maxAge tag e :
  keepsCors maxAge (consoleError tag e).
Proof. now apply keepsCors_same. Qed.

Lemma keepsCors_bind {A B} maxAge (m : M A) (k : A -> M B) :
  keepsCors maxAge m -> (forall a, keepsCors maxAge (k a)) ->
  keepsCors maxAge (bind m k).
Proof.
  intros Hm Hk st H. rewrite bind_run.
  specialize (Hm st H). destruct (m st) as [[e|a] st']; cbn [snd] in *.
  - exact Hm.
  - now apply Hk.
Qed.

(** Setting the headers again changes nothing. *)
Lemma keepsCors_setCors maxAge : keepsCors maxAge (setCors maxAge).
Proof.
  intros [[sc h wr en] cl co] [rest Hr]. cbn [res headers] in Hr. subst h.
  exists rest. destruct maxAge; vm_compute; reflexivity.
Qed.

Lemma setCors_initial maxAge : hasCors maxAge (snd (setCors maxAge initial)).
Proof. exists []. destruct maxAge; vm_compute; reflexivity. Qed.

Create HintDb cors.

#[local] Hint Resolve keepsCors_ret keepsCors_lift keepsCors_setStatus
  keepsCors_endWith keepsCors_endJson keepsCors_fetch
  keepsCors_consoleError keepsCors_setCors : cors.

Ltac cors :=
  repeat first
    [ solve [auto with cors]
    | solve [apply keepsCors_setHeader; reflexivity]
    | solve [apply keepsCors_setHeaderValue; reflexivity]
    | solve [apply keepsCors_updHeaders; reflexivity]
    | solve [apply keepsCors_same; reflexivity]
    | apply keepsCors_bind; [|intros ?]
    | match goal with
      | |- keepsCors _ (if ?c then _ else _) => destruct c
      | |- keepsCors _ (match ?x with _ => _ end) => destruct x
      end ].

Lemma keepsCors_relayBody maxAge up : keepsCors maxAge (relayBody up).
Proof. unfold relayBody. cors. Qed.

#[local] Hint Resolve keepsCors_relayBody : cors.

Lemma keepsCors_answerSubmission maxAge up :
  keepsCors maxAge (answerSubmission URL_token up).
Proof. unfold answerSubmission. cors. Qed.

Lemma keepsCors_internalError tag maxAge e :
  keepsCors maxAge (internalError tag maxAge e).
Proof. unfold internalError. cors. Qed.

Lemma keepsCors_rejection maxAge error code :
  keepsCors maxAge (rejection error code).
Proof. unfold rejection. cors. Qed.

Lemma keepsCors_pipe maxAge t : keepsCors maxAge (Results.pipe t).
Proof. unfold Results.pipe. cors. Qed.

#[local] Hint Resolve keepsCors_answerSubmission keepsCors_rejection
  keepsCors_pipe : cors.

Lemma handler_hasCors maxAge tag (k : unit -> M unit) :
  keepsCors maxAge (k tt) ->
  hasCors maxAge
    (snd (tryCatch (bind (setCors maxAge) k) (internalError tag maxAge)
                   initial)).
Proof.
  intros Hk. unfold tryCatch. rewrite bind_run.
  pose proof (setCors_initial maxAge) as H0.
  destruct (neverThrows_setCors maxAge initial) as [[] Ha].
  destruct (setCors maxAge initial) as [[e|[]] st1]; cbn [fst snd] in *;
    [discriminate|].
  specialize (Hk st1 H0).
  destruct (k tt st1) as [[e|[]] st2]; cbn [snd] in *; [|exact Hk].
  now apply keepsCors_internalError.
Qed.

Lemma hasCors_headers maxAge st :
  hasCors maxAge st ->
  getHeader "Access-Control-Allow-Origin" st = Some (js "*") /\
  getHeader "Access-Control-Allow-Methods" st
  = Some (js "POST, GET, OPTIONS") /\
  getHeader "Access-Control-Allow-Headers" st = Some (js "Content-Type") /\
  (maxAge = true ->
   getHeader "Access-Control-Max-Age" st = Some (js "86400")).
Proof.
  intros [rest Hr]. unfold getHeader. rewrite Hr.
  destruct maxAge; repeat split; try reflexivity; discriminate.
Qed.

(** X8: every answer of every handler, to any request and in any world
    (pre-flight, wrong method, rejection, relayed backend answer, fault),
    carries the cross-origin headers [Access-Control-Allow-Origin: *],
    [Access-Control-Allow-Methods: POST, GET, OPTIONS] and
    [Access-Control-Allow-Headers: Content-Type]; the answers of
    generate_dm_list and results also carry
    [Access-Control-Max-Age: 86400]. *)
Theorem every_answer_has_cors w req :
  let dm := GenerateDmList.handler URL_token w req in
  let leads := GenerateLeads.handler URL_token JSON_parse w req in
  let results := Results.handler URL_search w req in
  (getHeader "Access-Control-Allow-Origin" dm = Some (js "*") /\
   getHeader "Access-Control-Allow-Methods" dm
   = Some (js "POST, GET, OPTIONS") /\
   getHeader "Access-Control-Allow-Headers" dm = Some (js "Content-Type") /\
   getHeader "Access-Control-Max-Age" dm = Some (js "86400")) /\
  (getHeader "Access-Control-Allow-Origin" leads = Some (js "*") /\
   getHeader "Access-Control-Allow-Methods" leads
   = Some (js "POST, GET, OPTIONS") /\
   getHeader "Access-Control-Allow-Headers" leads
   = Some (js "Content-Type")) /\
  (getHeader "Access-Control-Allow-Origin" results = Some (js "*") /\
   getHeader "Access-Control-Allow-Methods" results
   = Some (js "POST, GET, OPTIONS") /\
   getHeader "Access-Control-Allow-Headers" results
   = Some (js "Content-Type") /\
   getHeader "Access-Control-Max-Age" results = Some (js "86400")).
Proof.
  cbv zeta.
  assert (Hdm : hasCors true (GenerateDmList.handler URL_token w req)).
  { unfold GenerateDmList.handler, GenerateDmList.handlerBody.
    apply handler_hasCors. cors. }
  assert (Hl : hasCors false
                 (GenerateLeads.handler URL_token JSON_parse w req)).
  { unfold GenerateLeads.handler, GenerateLeads.handlerBody.
    apply handler_hasCors. cors. }
  assert (Hr : hasCors true (Results.handler URL_search w req)).
  { unfold Results.handler, Results.handlerBody.
    apply handler_hasCors. cors. }
  destruct (hasCors_headers _ _ Hdm) as (A1 & A2 & A3 & A4).
  destruct (hasCors_headers _ _ Hl) as (B1 & B2 & B3 & _).
  destruct (hasCors_headers _ _ Hr) as (C1 & C2 & C3 & C4).
  repeat split; auto.
Qed.

(** *** The method tests *)

(** X9: in any world, with or without the base-URL setting, every handler
    answers the pre-flight probe with status 204, the cross-origin headers
    and no body, and a method it does not serve with status 405, the
    [Allow] header and the text ['Method Not Allowed']; in both cases it
    neither reads the request body nor calls the backend nor logs. *)
Theorem method_gate w req :
  (method req = js "OPTIONS" ->
   GenerateDmList.handler URL_token w req
   = mkSt (mkRes 204 (corsHeaders true) [] true) [] [] /\
   GenerateLeads.handler URL_token JSON_parse w req
   = mkSt (mkRes 204 (corsHeaders false) [] true) [] [] /\
   Results.handler URL_search w req
   = mkSt (mkRes 204 (corsHeaders true) [] true) [] []) /\
  (method req <> js "OPTIONS" -> method req <> js "POST" ->
   GenerateDmList.handler URL_token w req
   = mkSt (mkRes 405
             (corsHeaders true ++ [(js "Allow", js "POST, OPTIONS")])
             [Text (js "Method Not Allowed")] true) [] [] /\
   GenerateLeads.handler URL_token JSON_parse w req
   = mkSt (mkRes 405
             (corsHeaders false ++ [(js "Allow", js "POST, OPTIONS")])
             [Text (js "Method Not Allowed")] true) [] []) /\
  (method req <> js "OPTIONS" -> method req <> js "GET" ->
   Results.handler URL_search w req
   = mkSt (mkRes 405
             (corsHeaders true ++ [(js "Allow", js "GET, OPTIONS")])
             [Text (js "Method Not Allowed")] true) [] []).
Proof.
  unfold GenerateDmList.handler, GenerateDmList.handlerBody,
    GenerateLeads.handler, GenerateLeads.handlerBody,
    Results.handler, Results.handlerBody.
  split; [|split].
  - intros ->.
    change (JsString.eqb (js "OPTIONS") (js "OPTIONS")) with true.
    cbv iota. repeat split; vm_compute; reflexivity.
  - intros H1 H2. apply eqb_neq in H1, H2. rewrite H1, H2.
    cbn [negb]. split; vm_compute; reflexivity.
  - intros H1 H2. apply eqb_neq in H1, H2. rewrite H1, H2.
    cbn [negb]. vm_compute. reflexivity.
Qed.

(** *** Rejections *)

Lemma stringify_rejection error code :
  JSON.stringify
    (Js.Obj [(js "error", Js.Str error); (js "code", Js.Str code)])
  = Some (rejectionBody error code).
Proof.
  unfold rejectionBody.
  cbn [JSON.stringify flat_map fst snd app JsString.join].
  f_equal. rewrite <- !app_assoc. reflexivity.
Qed.

Lemma rejection_run error code st :
  rejection error code st =
  (inr tt,
   mkSt (mkRes 400
           (assign (js "Content-Type")
                   (js "application/json; charset=utf-8") (headers (res st)))
           (written (res st) ++ [Text (rejectionBody error code)]) true)
        (calls st) (console st)).
Proof.
  unfold rejection, endJson. rewrite stringify_rejection. reflexivity.
Qed.

Lemma after_setCors {B} maxAge (k : unit -> M B) :
  bind (setCors maxAge) k initial
  = k tt (mkSt (mkRes 200 (corsHeaders maxAge) [] false) [] []).
Proof. destruct maxAge; reflexivity. Qed.

(** X10: a submission that fails validation is answered with status 400
    and the body [{"error": ..., "code": ...}] of the validator, and the
    backend is not called: a CSV text that [validateCsv] rejects, a leads
    body that is not JSON (code [INVALID_JSON]), a leads payload that
    [validatePayload] rejects. *)
Theorem invalid_submission_rejected w req base body :
  method req = js "POST" ->
  getBackendBase w = inr base ->
  bodyText req = inr body ->
  (forall error code,
     GenerateDmList.validateCsv body = GenerateDmList.Invalid error code ->
     GenerateDmList.handler URL_token w req
     = mkSt (mkRes 400 (corsHeaders true ++ [jsonType])
                   [Text (rejectionBody error code)] true) [] []) /\
  (JSON_parse (orElse (Some body) (js "{}")) = None ->
   GenerateLeads.handler URL_token JSON_parse w req
   = mkSt (mkRes 400 (corsHeaders false ++ [jsonType])
                 [Text (rejectionBody (js "Invalid JSON body")
                                      (js "INVALID_JSON"))] true) [] []) /\
  (forall payload error code,
     JSON_parse (orElse (Some body) (js "{}")) = Some payload ->
     GenerateLeads.validatePayload payload
     = GenerateLeads.Invalid error code ->
     GenerateLeads.handler URL_token JSON_parse w req
     = mkSt (mkRes 400 (corsHeaders false ++ [jsonType])
                   [Text (rejectionBody error code)] true) [] []).
Proof.
  intros Hm Hb Ht.
  unfold GenerateDmList.handler, GenerateDmList.handlerBody,
    GenerateLeads.handler, GenerateLeads.handlerBody.
  rewrite Hm, Hb, Ht.
  change (JsString.eqb (js "POST") (js "OPTIONS")) with false.
  change (JsString.eqb (js "POST") (js "POST")) with true.
  cbn [negb]. rewrite !bind_lift. unfold tryCatch.
  split; [|split].
  - intros error code Hv. rewrite Hv, after_setCors, rejection_run.
    reflexivity.
  - intros Hp. rewrite Hp, after_setCors, rejection_run. reflexivity.
  - intros payload error code Hp Hv.
    rewrite Hp, Hv, after_setCors, rejection_run. reflexivity.
Qed.

(** *** Relaying the backend's answer *)

Lemma endJson_run v st :
  endJson v st =
  (inr tt,
   mkSt (mkRes (statusCode (res st)) (headers (res st))
               (written (res st) ++ jsonChunk v) true)
        (calls st) (console st)).
Proof.
  unfold endJson, endWith, updRes, jsonChunk.
  destruct (JSON.stringify v); reflexivity.
Qed.

Lemma answerSubmission_accepted up st data r :
  status up = 202%N ->
  json up = inr data ->
  rewritten URL_token data = inr r ->
  answerSubmission URL_token up st =
  (inr tt,
   mkSt (mkRes 202 (assign (fst jsonType) (snd jsonType) (headers (res st)))
               (written (res st) ++ jsonChunk r) true)
        (calls st) (console st)).
Proof.
  intros Hs Hj Hr. unfold answerSubmission.
  rewrite Hs, Hj. cbn [N.eqb Pos.eqb negb]. rewrite !bind_lift, Hr.
  rewrite bind_lift.
  unfold endJson, jsonChunk. destruct (JSON.stringify r); reflexivity.
Qed.

Lemma answerSubmission_text up st t :
  status up <> 202%N ->
  includes (js "application/json") (orElse (contentType up) []) = false ->
  text up = inr t ->
  answerSubmission URL_token up st =
  (inr tt,
   mkSt (mkRes (status up)
               (assign (fst textType) (snd textType) (headers (res st)))
               (written (res st) ++ [Text t]) true)
        (calls st) (console st)).
Proof.
  intros Hs Hc Ht. unfold answerSubmission, relayBody.
  apply N.eqb_neq in Hs. rewrite Hs, Hc, Ht. cbn [negb].
  reflexivity.
Qed.

Lemma answerSubmission_json up st j :
  status up <> 202%N ->
  includes (js "application/json") (orElse (contentType up) []) = true ->
  json up = inr j ->
  answerSubmission URL_token up st =
  (inr tt,
   mkSt (mkRes (status up)
               (assign (fst jsonType) (snd jsonType) (headers (res st)))
               (written (res st) ++ jsonChunk j) true)
        (calls st) (console st)).
Proof.
  intros Hs Hc Hj. unfold answerSubmission, relayBody.
  apply N.eqb_neq in Hs. rewrite Hs, Hc, Hj. cbn [negb].
  rewrite bind_run. unfold setStatus at 1, updRes at 1.
  rewrite bind_lift.
  unfold endJson, jsonChunk. destruct (JSON.stringify j); reflexivity.
Qed.

(** Both submit handlers, once the request is valid: one call to the
    backend, then [answerSubmission]. *)
Lemma dm_list_valid w req base csvText n :
  method req = js "POST" ->
  getBackendBase w = inr base ->
  bodyText req = inr csvText ->
  GenerateDmList.validateCsv csvText = GenerateDmList.Valid n ->
  GenerateDmList.handler URL_token w req =
  snd (tryCatch
         (bind (fetch w (dmListCall base csvText))
               (answerSubmission URL_token))
         (internalError "Proxy error (generate_dm_list):" true)
         (mkSt (mkRes 200 (corsHeaders true) [] false) [] [])).
Proof.
  intros Hm Hb Ht Hv.
  unfold GenerateDmList.handler, GenerateDmList.handlerBody.
  rewrite Hm, Hb, Ht.
  change (JsString.eqb (js "POST") (js "OPTIONS")) with false.
  change (JsString.eqb (js "POST") (js "POST")) with true.
  cbn [negb]. rewrite !bind_lift, Hv.
  unfold tryCatch. rewrite after_setCors. reflexivity.
Qed.

Lemma leads_valid w req base text payload :
  method req = js "POST" ->
  getBackendBase w = inr base ->
  bodyText req = inr text ->
  JSON_parse (orElse (Some text) (js "{}")) = Some payload ->
  GenerateLeads.validatePayload payload = GenerateLeads.Valid ->
  GenerateLeads.handler URL_token JSON_parse w req =
  snd (tryCatch
         (bind (fetch w (leadsCall base payload))
               (answerSubmission URL_token))
         (internalError "Proxy error (generate_leads):" false)
         (mkSt (mkRes 200 (corsHeaders false) [] false) [] [])).
Proof.
  intros Hm Hb Ht Hp Hv.
  unfold GenerateLeads.handler, GenerateLeads.handlerBody.
  rewrite Hm, Hb, Ht.
  change (JsString.eqb (js "POST") (js "OPTIONS")) with false.
  change (JsString.eqb (js "POST") (js "POST")) with true.
  cbn [negb]. rewrite !bind_lift, Hp, Hv.
  unfold tryCatch. rewrite after_setCors. reflexivity.
Qed.

Lemma submission_answered tag maxAge w r up st' :
  upstream w r = inr up ->
  answerSubmission URL_token up
    (mkSt (mkRes 200 (corsHeaders maxAge) [] false) [r] []) = (inr tt, st') ->
  snd (tryCatch (bind (fetch w r) (answerSubmission URL_token))
                (internalError tag maxAge)
                (mkSt (mkRes 200 (corsHeaders maxAge) [] false) [] []))
  = st'.
Proof.
  intros Hu Ha. unfold tryCatch. rewrite bind_run.
  unfold fetch. cbn [res calls console app]. rewrite Hu, Ha. reflexivity.
Qed.

Lemma assign_new maxAge k v :
  forallb (fun kv => negb (JsString.eqb (fst kv) k)) (corsHeaders true)
  = true ->
  assign k v (corsHeaders maxAge) = corsHeaders maxAge ++ [(k, v)].
Proof.
  intros H. rewrite <- (app_nil_r (corsHeaders maxAge)) at 1.
  now rewrite assign_cors.
Qed.

(** X11: when the backend accepts a valid submission (status 202 with a
    JSON object), both submit handlers answer with status 202 and that
    object serialized again, in which [resultUrl] holds the rewritten
    location and every other field is as the backend sent it; the backend
    has been called once. *)
Theorem accepted_submission w req base body up props u :
  method req = js "POST" ->
  getBackendBase w = inr base ->
  bodyText req = inr body ->
  status up = 202%N ->
  json up = inr (Js.Obj props) ->
  rewriteResultUrl URL_token (Js.lookup (js "resultUrl") props) = inr u ->
  let answer := Js.Obj (Js.setProp (js "resultUrl") (Js.Str u) props) in
  (forall n,
     GenerateDmList.validateCsv body = GenerateDmList.Valid n ->
     upstream w (dmListCall base body) = inr up ->
     GenerateDmList.handler URL_token w req
     = mkSt (mkRes 202 (corsHeaders true ++ [jsonType]) (jsonChunk answer)
                   true)
            [dmListCall base body] []) /\
  (forall payload,
     JSON_parse (orElse (Some body) (js "{}")) = Some payload ->
     GenerateLeads.validatePayload payload = GenerateLeads.Valid ->
     upstream w (leadsCall base payload) = inr up ->
     GenerateLeads.handler URL_token JSON_parse w req
     = mkSt (mkRes 202 (corsHeaders false ++ [jsonType]) (jsonChunk answer)
                   true)
            [leadsCall base payload] []).
Proof.
  intros Hm Hb Ht Hs Hj Hu answer.
  assert (Hr : rewritten URL_token (Js.Obj props) = inr answer).
  { unfold rewritten. cbn [Js.getProp]. rewrite Hu. reflexivity. }
  split.
  - intros n Hv Hup.
    rewrite (dm_list_valid w req base body n Hm Hb Ht Hv).
    apply (submission_answered _ _ _ _ up); [exact Hup|].
    rewrite (answerSubmission_accepted up _ _ answer Hs Hj Hr).
    cbn [res headers written calls console app].
    unfold jsonType at 1 2. cbn [fst snd].
    rewrite assign_new by reflexivity. reflexivity.
  - intros payload Hp Hv Hup.
    rewrite (leads_valid w req base body payload Hm Hb Ht Hp Hv).
    apply (submission_answered _ _ _ _ up); [exact Hup|].
    rewrite (answerSubmission_accepted up _ _ answer Hs Hj Hr).
    cbn [res headers written calls console app].
    unfold jsonType at 1 2. cbn [fst snd].
    rewrite assign_new by reflexivity. reflexivity.
Qed.

(** X12: an answer of the backend with another status than 202 is relayed
    by both submit handlers with that status: a body that the backend
    declares as JSON is parsed and serialized again, any other body goes
    out as the text it is, as [text/plain]; its result location is not
    rewritten. *)
Theorem other_status_relayed w req base body up :
  method req = js "POST" ->
  getBackendBase w = inr base ->
  bodyText req = inr body ->
  status up <> 202%N ->
  let relayed kind chunks maxAge r :=
    mkSt (mkRes (status up) (corsHeaders maxAge ++ [kind]) chunks true)
         [r] [] in
  (forall n,
     GenerateDmList.validateCsv body = GenerateDmList.Valid n ->
     upstream w (dmListCall base body) = inr up ->
     (forall t,
        includes (js "application/json") (orElse (contentType up) [])
        = false ->
        text up = inr t ->
        GenerateDmList.handler URL_token w req
        = relayed textType [Text t] true (dmListCall base body)) /\
     (forall j,
        includes (js "application/json") (orElse (contentType up) [])
        = true ->
        json up = inr j ->
        GenerateDmList.handler URL_token w req
        = relayed jsonType (jsonChunk j) true (dmListCall base body))) /\
  (forall payload,
     JSON_parse (orElse (Some body) (js "{}")) = Some payload ->
     GenerateLeads.validatePayload payload = GenerateLeads.Valid ->
     upstream w (leadsCall base payload) = inr up ->
     (forall t,
        includes (js "application/json") (orElse (contentType up) [])
        = false ->
        text up = inr t ->
        GenerateLeads.handler URL_token JSON_parse w req
        = relayed textType [Text t] false (leadsCall base payload)) /\
     (forall j,
        includes (js "application/json") (orElse (contentType up) [])
        = true ->
        json up = inr j ->
        GenerateLeads.handler URL_token JSON_parse w req
        = relayed jsonType (jsonChunk j) false (leadsCall base payload))).
Proof.
  intros Hm Hb Ht Hs relayed. subst relayed. cbv beta.
  split.
  - intros n Hv Hup.
    rewrite (dm_list_valid w req base body n Hm Hb Ht Hv).
    split.
    + intros t Hc Htx.
      apply (submission_answered _ _ _ _ up); [exact Hup|].
      rewrite (answerSubmission_text up _ t Hs Hc Htx).
      cbn [res headers written calls console app].
      unfold textType at 1 2. cbn [fst snd].
      rewrite assign_new by reflexivity. reflexivity.
    + intros j Hc Hj.
      apply (submission_answered _ _ _ _ up); [exact Hup|].
      rewrite (answerSubmission_json up _ j Hs Hc Hj).
      cbn [res headers written calls console app].
      unfold jsonType at 1 2. cbn [fst snd].
      rewrite assign_new by reflexivity. reflexivity.
  - intros payload Hp Hv Hup.
    rewrite (leads_valid w req base body payload Hm Hb Ht Hp Hv).
    split.
    + intros t Hc Htx.
      apply (submission_answered _ _ _ _ up); [exact Hup|].
      rewrite (answerSubmission_text up _ t Hs Hc Htx).
      cbn [res headers written calls console app].
      unfold textType at 1 2. cbn [fst snd].
      rewrite assign_new by reflexivity. reflexivity.
    + intros j Hc Hj.
      apply (submission_answered _ _ _ _ up); [exact Hup|].
      rewrite (answerSubmission_json up _ j Hs Hc Hj).
      cbn [res headers written calls console app].
      unfold jsonType at 1 2. cbn [fst snd].
      rewrite assign_new by reflexivity. reflexivity.
Qed.

(** *** The results handler *)

Create HintDb backend.

#[local] Hint Resolve keepsCalls_ret keepsCalls_throw keepsCalls_lift
  keepsCalls_updRes keepsCalls_consoleError keepsCalls_setHeader
  keepsCalls_setHeaderValue keepsCalls_setStatus keepsCalls_endWith
  keepsCalls_endJson keepsCalls_relayBody : backend.

Ltac keepsCalls_steps :=
  repeat first
    [ solve [auto with backend]
    | apply keepsCalls_bind; [|intros ?]
    | match goal with
      | |- keepsCalls (if ?c then _ else _) => destruct c
      | |- keepsCalls (match ?x with _ => _ end) => destruct x
      end ].

Ltac run_steps :=
  repeat (rewrite bind_run;
          cbn [setStatus setHeader setHeaderValue updRes lift ret
               res headers statusCode written ended calls console]).

Lemma keepsCalls_relayResult w up : keepsCalls (relayResult w up).
Proof. unfold relayResult, Results.pipe. keepsCalls_steps. Qed.

Lemma results_valid w req base search :
  method req = js "GET" ->
  getBackendBase w = inr base ->
  URL_search (url req) = Some search ->
  Results.handler URL_search w req =
  snd (tryCatch (bind (fetch w (resultsCall base search)) (relayResult w))
                (internalError "Proxy error (results):" true)
                (mkSt (mkRes 200 (corsHeaders true) [] false) [] [])).
Proof.
  intros Hm Hb Hs.
  unfold Results.handler, Results.handlerBody.
  rewrite Hm, Hb, Hs.
  change (JsString.eqb (js "GET") (js "OPTIONS")) with false.
  change (JsString.eqb (js "GET") (js "GET")) with true.
  cbn [negb]. rewrite !bind_lift.
  unfold tryCatch. rewrite after_setCors. reflexivity.
Qed.

(** X13: the results handler forwards the query string of the request, as
    the URL class gives it, to [<base>/results] with GET, in exactly one
    call, whatever the backend then answers. *)
Theorem results_forwards_query w req base search :
  method req = js "GET" ->
  getBackendBase w = inr base ->
  URL_search (url req) = Some search ->
  calls (Results.handler URL_search w req) = [resultsCall base search].
Proof.
  intros Hm Hb Hs.
  rewrite (results_valid w req base search Hm Hb Hs).
  unfold tryCatch. rewrite bind_run. unfold fetch.
  cbn [res calls console app].
  destruct (upstream w (resultsCall base search)) as [e|up]; cbn [snd].
  - now rewrite keepsCalls_internalError.
  - pose proof (keepsCalls_relayResult w up
                  (mkSt (mkRes 200 (corsHeaders true) [] false)
                        [resultsCall base search] [])) as Hk.
    destruct (relayResult w up _) as [[e|[]] st']; cbn [snd] in *.
    + now rewrite keepsCalls_internalError.
    + exact Hk.
Qed.

Lemma results_answered w req base search up st' :
  method req = js "GET" ->
  getBackendBase w = inr base ->
  URL_search (url req) = Some search ->
  upstream w (resultsCall base search) = inr up ->
  relayResult w up (mkSt (mkRes 200 (corsHeaders true) [] false)
                         [resultsCall base search] []) = (inr tt, st') ->
  Results.handler URL_search w req = st'.
Proof.
  intros Hm Hb Hs Hu Hrun.
  rewrite (results_valid w req base search Hm Hb Hs).
  unfold tryCatch. rewrite bind_run. unfold fetch.
  cbn [res calls console app]. rewrite Hu, Hrun. reflexivity.
Qed.

(** X14: the results handler passes the status of the backend through:
    status 202 with its JSON body serialized again, and every status other
    than 200 and 202 with its body as JSON or as text, as the backend
    declares it. *)
Theorem results_status_relayed w req base search up :
  method req = js "GET" ->
  getBackendBase w = inr base ->
  URL_search (url req) = Some search ->
  upstream w (resultsCall base search) = inr up ->
  let relayed kind chunks :=
    mkSt (mkRes (status up) (corsHeaders true ++ [kind]) chunks true)
         [resultsCall base search] [] in
  (status up = 202%N ->
   forall j, json up = inr j ->
   Results.handler URL_search w req = relayed jsonType (jsonChunk j)) /\
  (status up <> 202%N -> status up <> 200%N ->
   (forall t,
      includes (js "application/json") (orElse (contentType up) []) = false ->
      text up = inr t ->
      Results.handler URL_search w req = relayed textType [Text t]) /\
   (forall j,
      includes (js "application/json") (orElse (contentType up) []) = true ->
      json up = inr j ->
      Results.handler URL_search w req = relayed jsonType (jsonChunk j))).
Proof.
  intros Hm Hb Hs Hu relayed. subst relayed. cbv beta.
  split.
  - intros H202 j Hj.
    apply (results_answered w req base search up _ Hm Hb Hs Hu).
    unfold relayResult. rewrite H202.
    cbn [N.eqb Pos.eqb]. rewrite Hj. run_steps.
    unfold endJson, jsonChunk. destruct (JSON.stringify j); reflexivity.
  - intros H202 H200. apply N.eqb_neq in H202, H200. split.
    + intros t Hc Ht.
      apply (results_answered w req base search up _ Hm Hb Hs Hu).
      unfold relayResult. rewrite H202, H200.
      unfold relayBody. rewrite Hc, Ht. reflexivity.
    + intros j Hc Hj.
      apply (results_answered w req base search up _ Hm Hb Hs Hu).
      unfold relayResult. rewrite H202, H200.
      unfold relayBody. rewrite Hc, Hj.
      rewrite bind_run. unfold setStatus at 1, updRes at 1.
      rewrite bind_lift.
      unfold endJson, jsonChunk. destruct (JSON.stringify j); reflexivity.
Qed.

(** X15: a result (status 200) is relayed with status 200 and the bytes of
    the backend's body; the answer takes the content type of the backend,
    or [text/csv; charset=utf-8] when it has none, and the content
    disposition when the backend gives a non-empty one; when the body is
    not streamed, the answer also states its length. *)
Theorem result_relayed w req base search up :
  method req = js "GET" ->
  getBackendBase w = inr base ->
  URL_search (url req) = Some search ->
  upstream w (resultsCall base search) = inr up ->
  status up = 200%N ->
  (forall bytes,
     canStream w = true ->
     bodyStream up = Some (Complete bytes) ->
     Results.handler URL_search w req
     = mkSt (mkRes 200 (corsHeaders true ++ resultHeaders up)
                   [Bytes bytes] true)
            [resultsCall base search] []) /\
  (forall buf,
     canStream w = false \/ bodyStream up = None ->
     Results.arrayBuffer up = inr buf ->
     Results.handler URL_search w req
     = mkSt (mkRes 200
               (corsHeaders true ++ resultHeaders up ++
                [(js "Content-Length", digits (N.of_nat (length buf)))])
               [Bytes buf] true)
            [resultsCall base search] []).
Proof.
  intros Hm Hb Hs Hu H200.
  split.
  - intros bytes Hc Hbs.
    apply (results_answered w req base search up _ Hm Hb Hs Hu).
    unfold relayResult, resultHeaders.
    rewrite H200, Hbs, Hc. cbn [N.eqb Pos.eqb].
    run_steps. rewrite assign_new by reflexivity.
    destruct (contentDisposition up) as [[|c cd]|];
      cbn [ret setHeaderValue updRes]; cbn [res headers];
      rewrite ?assign_cors by reflexivity; reflexivity.
  - intros buf Hc Hbuf.
    apply (results_answered w req base search up _ Hm Hb Hs Hu).
    unfold relayResult, resultHeaders. rewrite H200. cbn [N.eqb Pos.eqb].
    run_steps. rewrite assign_new by reflexivity.
    assert (Hbr : match bodyStream up, canStream w with
                  | Some t, true => Results.pipe t
                  | _, _ =>
                      bind (lift (Results.arrayBuffer up))
                        (fun buf =>
                           bind (setHeaderValue "Content-Length"
                                   (digits (N.of_nat (length buf))))
                             (fun _ => endWith (Some (Bytes buf))))
                  end =
                  bind (setHeaderValue "Content-Length"
                          (digits (N.of_nat (length buf))))
                    (fun _ => endWith (Some (Bytes buf)))).
    { destruct Hc as [Hc|Hc]; rewrite Hc, Hbuf.
      - destruct (bodyStream up); now rewrite bind_lift.
      - now rewrite bind_lift. }
    rewrite Hbr.
    destruct (contentDisposition up) as [[|c cd]|];
      cbn [ret setHeaderValue updRes]; cbn [res headers];
      rewrite ?assign_cors by reflexivity;
      run_steps; cbn [endWith updRes res headers];
      rewrite ?assign_cors by reflexivity; reflexivity.
Qed.

Lemma stringify_streamError :
  endJson (Js.Obj [(js "error", Js.Str (js "Stream Error"))])
  = endWith (Some (Text streamErrorBody)).
Proof. reflexivity. Qed.

(** X16: when the stream of a result breaks, the fault is logged; if no
    byte has gone out, the answer becomes status 500 with the body
    [{"error":"Stream Error"}] as JSON; if some bytes have gone out, the
    status stays 200 and that JSON text is appended to the bytes already
    delivered. *)
Theorem broken_stream w req base search up delivered e :
  method req = js "GET" ->
  getBackendBase w = inr base ->
  URL_search (url req) = Some search ->
  upstream w (resultsCall base search) = inr up ->
  status up = 200%N ->
  canStream w = true ->
  bodyStream up = Some (Broken delivered e) ->
  Results.handler URL_search w req =
  match delivered with
  | [] =>
      mkSt (mkRes 500 (corsHeaders true ++ jsonType :: tl (resultHeaders up))
                  [Text streamErrorBody] true)
           [resultsCall base search]
           [(js "Streaming error (results):", e)]
  | _ =>
      mkSt (mkRes 200 (corsHeaders true ++ resultHeaders up)
                  [Bytes delivered; Text streamErrorBody] true)
           [resultsCall base search]
           [(js "Streaming error (results):", e)]
  end.
Proof.
  intros Hm Hb Hs Hu H200 Hc Hbs.
  apply (results_answered w req base search up _ Hm Hb Hs Hu).
  unfold relayResult, resultHeaders.
  rewrite H200, Hbs, Hc. cbn [N.eqb Pos.eqb].
  run_steps. rewrite assign_new by reflexivity.
  unfold Results.pipe. rewrite stringify_streamError.
  destruct (contentDisposition up) as [[|c cd]|];
    cbn [ret setHeaderValue updRes]; cbn [res headers];
    rewrite ?assign_cors by reflexivity;
    destruct delivered as [|b bs]; run_steps;
    cbn [consoleError endWith updRes res headers];
    rewrite ?assign_cors by reflexivity; reflexivity.
Qed.

End EveryAnswer.

(** ** generate_dm_list.js: what is forwarded is valid *)

Section Forwarded.
Import GenerateDmList Lines.

Lemma splitLines_single x : ~ In LF x -> splitLines x = [x].
Proof.
  induction x as [|c x IH]; intros H; [reflexivity|].
  assert (Hc : N.eqb c LF = false)
    by (apply N.eqb_neq; intros ->; apply H; now left).
  assert (Hx : ~ In LF x) by (intros K; apply H; now right).
  cbn [splitLines]. rewrite Hc, (IH Hx).
  destruct (N.eqb c CR); [|reflexivity].
  destruct x as [|d x']; [reflexivity|].
  assert (Hd : N.eqb d LF = false)
    by (apply N.eqb_neq; intros ->; apply Hx; now left).
  now rewrite Hd.
Qed.

(** A line feed ends a line; a carriage return just before it goes with
    it. *)
Lemma splitLines_line x t :
  ~ In LF x -> splitLines (x ++ LF :: t) = chopCR x :: splitLines t.
Proof.
  induction x as [|c x IH]; intros H; [reflexivity|].
  assert (Hc : N.eqb c LF = false)
    by (apply N.eqb_neq; intros ->; apply H; now left).
  assert (Hx : ~ In LF x) by (intros K; apply H; now right).
  cbn [app splitLines]. rewrite Hc, (IH Hx).
  destruct x as [|d x'].
  - cbn [app chopCR]. change (N.eqb LF LF) with true.
    destruct (N.eqb c CR); reflexivity.
  - assert (Hd : N.eqb d LF = false)
      by (apply N.eqb_neq; intros ->; apply Hx; now left).
    cbn [app]. rewrite Hd.
    change (chopCR (c :: d :: x')) with (c :: chopCR (d :: x')).
    destruct (N.eqb c CR); reflexivity.
Qed.

Lemma splitLines_join ls :
  ls <> [] -> Forall (fun l => ~ In LF l) ls ->
  splitLines (join [LF] ls) = chopAll ls.
Proof.
  induction ls as [|x ls IH]; intros Hne Hall; [congruence|].
  inversion Hall as [|? ? Hx Hls]; subst.
  destruct ls as [|y ls].
  - cbn [join chopAll]. now apply splitLines_single.
  - change (join [LF] (x :: y :: ls)) with (x ++ LF :: join [LF] (y :: ls)).
    rewrite splitLines_line by assumption.
    rewrite IH; [reflexivity | discriminate | assumption].
Qed.

Lemma chopCR_white x :
  forallb isWhiteSpace (chopCR x) = forallb isWhiteSpace x.
Proof.
  induction x as [|c x IH]; [reflexivity|].
  destruct x as [|d x'].
  - cbn [chopCR]. destruct (N.eqb_spec c CR) as [->|]; reflexivity.
  - change (chopCR (c :: d :: x')) with (c :: chopCR (d :: x')).
    cbn [forallb] in *. now rewrite IH.
Qed.

Lemma chopCR_nonBlank x : nonBlank (chopCR x) = nonBlank x.
Proof. now rewrite !nonBlank_spec, chopCR_white. Qed.

Lemma chopAll_rows ls :
  length (filter nonBlank (chopAll ls)) = length (filter nonBlank ls).
Proof.
  induction ls as [|x ls IH]; [reflexivity|].
  destruct ls as [|y ls]; [reflexivity|].
  change (chopAll (x :: y :: ls)) with (chopCR x :: chopAll (y :: ls)).
  cbn [filter]. rewrite chopCR_nonBlank.
  destruct (nonBlank x); cbn [length]; now rewrite IH.
Qed.

Lemma chopAll_tl x ls : tl (chopAll (x :: ls)) = chopAll ls.
Proof. destruct ls; reflexivity. Qed.

Lemma chopAll_hd x ls :
  ~ In CR x -> hd [] (chopAll (x :: ls)) = x.
Proof.
  intros H. destruct ls as [|y ls]; [reflexivity|].
  change (chopAll (x :: y :: ls)) with (chopCR x :: chopAll (y :: ls)).
  cbn [hd]. induction x as [|c x IH]; [reflexivity|].
  destruct x as [|d x'].
  - cbn [chopCR]. destruct (N.eqb_spec c CR) as [->|]; [|reflexivity].
    exfalso. apply H. now left.
  - change (chopCR (c :: d :: x')) with (c :: chopCR (d :: x')).
    rewrite IH; [reflexivity|]. intros K. apply H. now right.
Qed.

Lemma validateCsv_valid csvText n :
  validateCsv csvText = Valid n ->
  let lines := splitLines (stripBOM csvText) in
  existsb (JsString.eqb (trim (hd [] lines))) ALLOWED_HEADERS = true /\
  n = rowCount lines /\ 1 <= n <= 300.
Proof.
  unfold validateCsv. cbv zeta.
  destruct (existsb _ ALLOWED_HEADERS); cbn [negb]; [|discriminate].
  destruct (Nat.eqb_spec (rowCount (splitLines (stripBOM csvText))) 0);
    [discriminate|].
  unfold MAX_TARGETS.
  destruct (Nat.ltb_spec 300 (rowCount (splitLines (stripBOM csvText))));
    [discriminate|].
  intros Hq. injection Hq as <-. repeat split; auto; lia.
Qed.

(** X17: what the handler forwards for an accepted CSV text passes the
    same validation with the same number of rows; a text with the
    three-column header is forwarded unchanged, byte-order mark and line
    ends included, and the expansion of a two-column text starts with the
    three-column header. *)
Theorem forwarded_text_is_valid csvText n :
  validateCsv csvText = Valid n ->
  validateCsv (csvToSend csvText) = Valid n /\
  (trim (hd [] (splitLines (stripBOM csvText)))
   = js "userName,userLink,directMessage" ->
   csvToSend csvText = csvText) /\
  (trim (hd [] (splitLines (stripBOM csvText))) = js "userName,userLink" ->
   trim (hd [] (splitLines (stripBOM (csvToSend csvText))))
   = js "userName,userLink,directMessage").
Proof.
  intros Hv.
  destruct (validateCsv_valid csvText n Hv) as (Hh & Hn & Hr).
  cbv zeta in *.
  set (lines := splitLines (stripBOM csvText)) in *.
  assert (Hexp : trim (hd [] lines) = js "userName,userLink" ->
            splitLines (stripBOM (csvToSend csvText))
            = chopAll (transformed lines)).
  { intros H2. unfold csvToSend. cbv zeta. fold lines.
    rewrite H2, eqb_refl.
    replace (stripBOM (join [LF] (transformed lines)))
      with (join [LF] (transformed lines))
      by (unfold transformed; destruct (map expandLine (tl lines));
          reflexivity).
    apply splitLines_join; [discriminate|].
    apply transformed_no_LF, splitLines_no_LF. }
  split; [|split].
  - destruct (JsString.eqb (trim (hd [] lines)) (js "userName,userLink"))
      eqn:E2.
    + apply eqb_eq in E2. specialize (Hexp E2).
      assert (Hhd : hd [] (chopAll (transformed lines))
                    = js "userName,userLink,directMessage").
      { unfold transformed. apply chopAll_hd.
        intros K. vm_compute in K. intuition discriminate. }
      assert (Hrows : rowCount (chopAll (transformed lines)) = n).
      { unfold rowCount, transformed. rewrite chopAll_tl, chopAll_rows.
        rewrite filter_expandLine. exact (eq_sym Hn). }
      pose proof (validateCsv_by_count (csvToSend csvText)) as P.
      cbv zeta in P. rewrite Hexp, Hhd, Hrows in P.
      rewrite P by reflexivity.
      destruct (Nat.eqb_spec n 0); [lia|].
      destruct (Nat.ltb_spec 300 n); [lia|]. reflexivity.
    + unfold csvToSend. cbv zeta. fold lines. rewrite E2. exact Hv.
  - intros H3. unfold csvToSend. cbv zeta. fold lines. rewrite H3.
    reflexivity.
  - intros H2. rewrite (Hexp H2). unfold transformed.
    rewrite chopAll_hd
      by (intros K; vm_compute in K; intuition discriminate).
    reflexivity.
Qed.

Lemma forwarded_text_is_valid_witness :
  validateCsv (csvToSend Claims.twoColumnCsv) = Valid 2.
Proof.
  apply (forwarded_text_is_valid Claims.twoColumnCsv 2).
  vm_compute. reflexivity.
Defined.

Lemma trimStart_BOM s : trimStart (BOM :: s) = trimStart s.
Proof. reflexivity. Qed.

(** X18: a byte-order mark in front of the text, even a second one, does
    not change what the validator answers. *)
Theorem validateCsv_ignores_BOM s :
  validateCsv (BOM :: s) = validateCsv s.
Proof.
  unfold validateCsv. cbv zeta.
  replace (stripBOM (BOM :: s)) with s by reflexivity.
  destruct s as [|c s']; [reflexivity|].
  cbn [stripBOM]. destruct (N.eqb_spec c BOM) as [->|Hc]; [|reflexivity].
  assert (E : exists l ls, splitLines s' = l :: ls /\
                           splitLines (BOM :: s') = (BOM :: l) :: ls).
  { pose proof (splitLines_not_nil s') as Hn.
    destruct (splitLines s') as [|l ls] eqn:El; [congruence|].
    exists l, ls. split; [reflexivity|].
    cbn [splitLines]. rewrite El. reflexivity. }
  destruct E as (l & ls & E1 & E2). rewrite E1, E2.
  cbn [hd]. unfold rowCount. cbn [tl].
  replace (trim (BOM :: l)) with (trim l) by reflexivity.
  reflexivity.
Qed.

End Forwarded.

(** ** CsvInput.vue and Twitter.vue: the browser agrees with the proxy *)

Section Browser.
Import Client ClientFacts GenerateDmList GenerateLeads.

Lemma hd_splitLines_incl s c : In c (hd [] (splitLines s)) -> In c s.
Proof.
  revert c. induction s as [|c0 rest IH]; intros c; [intros []|].
  cbn [splitLines].
  assert (K : In c (hd [] match splitLines rest with
                          | l :: ls => (c0 :: l) :: ls
                          | [] => [[c0]]
                          end) -> In c (c0 :: rest)).
  { destruct (splitLines rest) as [|l ls]; cbn [hd] in *.
    - intros [->|[]]. now left.
    - intros [->|H]; [now left | right; now apply IH]. }
  destruct (N.eqb c0 LF); [intros []|].
  destruct (N.eqb c0 CR); [|exact K].
  destruct rest as [|d rest']; [exact K|].
  destruct (N.eqb d LF); [intros [] | exact K].
Qed.

Lemma blank_text_has_no_header t :
  trim t = [] -> trim (hd [] (splitLines t)) = [].
Proof.
  rewrite !trim_nil, !forallb_forall. intros H c Hc.
  apply H. now apply hd_splitLines_incl.
Qed.

(** X19: the component, with the props the page leaves at their defaults,
    and the proxy's validator agree on every text: what the component
    accepts with a count the proxy accepts with the same count, and what
    it refuses the proxy refuses with the same code, the empty text apart,
    which the proxy reports as a wrong header. *)
Theorem browser_and_proxy_agree text :
  match emitted (validate defaultProps text) with
  | Ok count => validateCsv text = GenerateDmList.Valid count
  | NotOk reason =>
      exists error,
        validateCsv text = GenerateDmList.Invalid error (proxyCode reason)
  end.
Proof.
  unfold validate, validateCsv. cbv zeta.
  unfold defaultProps. cbn [allowedHeaders maxRows requiredHeader].
  cbv iota.
  unfold ALLOWED_HEADERS, REQUIRED_HEADER, Client.MAX_TARGETS,
    GenerateDmList.MAX_TARGETS.
  destruct (trim (stripBOM text)) as [|c0 r0] eqn:Et.
  - cbn [emitted]. rewrite (blank_text_has_no_header _ Et).
    eexists. reflexivity.
  - destruct (existsb _ _); cbn [negb emitted].
    + destruct (Nat.eqb (rowCount (splitLines (stripBOM text))) 0);
        cbn [emitted]; [eexists; reflexivity|].
      cbn [Nat.eqb negb andb].
      destruct (Nat.ltb 300 (rowCount (splitLines (stripBOM text))));
        cbn [emitted]; [eexists; reflexivity | reflexivity].
    + eexists. reflexivity.
Qed.

Lemma trimStart_clean s :
  forallb (fun c => negb (isWhiteSpace c)) s = true -> trimStart s = s.
Proof.
  destruct s as [|c s']; [reflexivity|]. cbn [forallb trimStart].
  intros H. apply andb_true_iff in H. destruct H as [H _].
  apply negb_true_iff in H. now rewrite H.
Qed.

Lemma trim_clean s : clean s = true -> trim s = s.
Proof.
  unfold clean. intros H.
  assert (W : forallb (fun c => negb (isWhiteSpace c)) s = true).
  { rewrite forallb_forall in *. intros c Hc. specialize (H c Hc).
    unfold isSeparator in H. apply negb_true_iff in H.
    apply orb_false_iff in H. destruct H as [H _]. now rewrite H. }
  unfold trim. rewrite (trimStart_clean s W).
  rewrite trimStart_clean by now rewrite forallb_rev.
  apply rev_involutive.
Qed.

Lemma splitRuns_clean s : forall inRun,
  Forall (fun p => clean p = true) (splitRuns inRun s).
Proof.
  induction s as [|c rest IH]; intros inRun; cbn [splitRuns].
  - constructor; [reflexivity | constructor].
  - destruct (isSeparator c) eqn:Ec.
    + destruct inRun; [apply IH|]. constructor; [reflexivity | apply IH].
    + specialize (IH false).
      destruct (splitRuns false rest) as [|l ls].
      * constructor; [|constructor]. unfold clean. cbn [forallb].
        now rewrite Ec.
      * inversion IH as [|? ? Hl Hls]; subst. constructor; [|exact Hls].
        unfold clean in *. cbn [forallb]. now rewrite Ec, Hl.
Qed.

Lemma splitRuns_not_nil s : forall inRun, splitRuns inRun s <> [].
Proof.
  destruct s as [|c rest]; intros inRun; cbn [splitRuns]; [discriminate|].
  destruct (isSeparator c).
  - destruct inRun; [|discriminate].
    revert c. induction rest as [|d rest IH]; intros c;
      cbn [splitRuns]; [discriminate|].
    destruct (isSeparator d); [apply (IH d)|].
    destruct (splitRuns false rest); discriminate.
  - destruct (splitRuns false rest); discriminate.
Qed.

(** The trimming of [parseSeedUsernames] finds nothing to trim. *)
Lemma parseSeedUsernames_pieces text :
  parseSeedUsernames text = filter nonEmpty (splitRuns false text).
Proof.
  unfold parseSeedUsernames. fold nonEmpty. f_equal.
  pose proof (splitRuns_clean text false) as H.
  induction H as [|p ps Hp _ IH]; [reflexivity|].
  cbn [map]. now rewrite (trim_clean p Hp), IH.
Qed.

Lemma pieces_after_separator s :
  filter nonEmpty (splitRuns true s) = filter nonEmpty (splitRuns false s).
Proof.
  destruct s as [|c rest]; [reflexivity|]. cbn [splitRuns].
  destruct (isSeparator c); reflexivity.
Qed.

Lemma splitRuns_separated sep b : isSeparator sep = true ->
  forall a l ls l' ls',
    splitRuns false (a ++ sep :: b) = l :: ls ->
    splitRuns false a = l' :: ls' ->
    l = l' /\
    filter nonEmpty ls
    = filter nonEmpty ls' ++ filter nonEmpty (splitRuns false b).
Proof.
  intros Hsep.
  assert (Step : forall a,
            (forall l ls l' ls',
               splitRuns false (a ++ sep :: b) = l :: ls ->
               splitRuns false a = l' :: ls' ->
               l = l' /\
               filter nonEmpty ls
               = filter nonEmpty ls' ++ filter nonEmpty (splitRuns false b)) ->
            filter nonEmpty (splitRuns false (a ++ sep :: b))
            = filter nonEmpty (splitRuns false a)
              ++ filter nonEmpty (splitRuns false b)).
  { intros a H.
    destruct (splitRuns false (a ++ sep :: b)) as [|l ls] eqn:E1;
      [now apply splitRuns_not_nil in E1|].
    destruct (splitRuns false a) as [|l' ls'] eqn:E2;
      [now apply splitRuns_not_nil in E2|].
    destruct (H l ls l' ls' eq_refl eq_refl) as [<- Hls].
    cbn [filter]. rewrite Hls. destruct (nonEmpty l); reflexivity. }
  induction a as [|c a IH]; intros l ls l' ls'.
  - cbn [app splitRuns]. rewrite Hsep. intros E1 E2.
    injection E1 as <- <-. injection E2 as <- <-.
    split; [reflexivity|]. apply pieces_after_separator.
  - cbn [app splitRuns]. destruct (isSeparator c).
    + intros E1 E2. injection E1 as <- <-. injection E2 as <- <-.
      split; [reflexivity|].
      rewrite !pieces_after_separator. now apply Step.
    + destruct (splitRuns false (a ++ sep :: b)) as [|m ms] eqn:E1;
        [now apply splitRuns_not_nil in E1|].
      destruct (splitRuns false a) as [|m' ms'] eqn:E2;
        [now apply splitRuns_not_nil in E2|].
      intros F1 F2. injection F1 as <- <-. injection F2 as <- <-.
      destruct (IH m ms m' ms' eq_refl eq_refl) as [-> Hms].
      split; [reflexivity | exact Hms].
Qed.

Lemma splitRuns_single s : clean s = true -> splitRuns false s = [s].
Proof.
  unfold clean. induction s as [|c s IH]; [reflexivity|].
  cbn [forallb splitRuns]. intros H. apply andb_true_iff in H.
  destruct H as [Hc Hs]. apply negb_true_iff in Hc.
  now rewrite Hc, (IH Hs).
Qed.

Lemma parseSeedUsernames_clean text :
  Forall (fun s => s <> [] /\ clean s = true) (parseSeedUsernames text).
Proof.
  rewrite parseSeedUsernames_pieces.
  apply Forall_forall. intros s Hs. apply filter_In in Hs.
  destruct Hs as [Hin Hne]. split.
  - intros ->. discriminate.
  - pose proof (splitRuns_clean text false) as H.
    rewrite Forall_forall in H. now apply H.
Qed.

(** X20: the seed user names read from the form are the runs of
    characters between white space and commas, in order and with
    repetitions: a name without white space or comma is read as itself, a
    separator between two texts joins what is read from each, the empty
    text gives no name; so every name read is non-empty and free of white
    space and commas. *)
Theorem seed_usernames_are_the_runs :
  parseSeedUsernames [] = [] /\
  (forall s, s <> [] -> clean s = true -> parseSeedUsernames s = [s]) /\
  (forall a sep b, isSeparator sep = true ->
     parseSeedUsernames (a ++ sep :: b)
     = parseSeedUsernames a ++ parseSeedUsernames b) /\
  (forall text,
     Forall (fun s => s <> [] /\ clean s = true) (parseSeedUsernames text)).
Proof.
  split; [reflexivity|]. split; [|split].
  - intros s Hne Hs. rewrite parseSeedUsernames_pieces, splitRuns_single by
      assumption.
    destruct s; [congruence | reflexivity].
  - intros a sep b Hsep. rewrite !parseSeedUsernames_pieces.
    destruct (splitRuns false (a ++ sep :: b)) as [|l ls] eqn:E1;
      [now apply splitRuns_not_nil in E1|].
    destruct (splitRuns false a) as [|l' ls'] eqn:E2;
      [now apply splitRuns_not_nil in E2|].
    destruct (splitRuns_separated sep b Hsep a l ls l' ls' E1 E2)
      as [<- Hls].
    cbn [filter]. rewrite Hls. destruct (nonEmpty l); reflexivity.
  - apply parseSeedUsernames_clean.
Qed.

Lemma clean_seed_is_good s :
  s <> [] -> clean s = true -> badSeed (Js.Str s) = false.
Proof.
  intros Hne Hs. cbn [badSeed]. rewrite (trim_clean s Hs).
  destruct s; [congruence | reflexivity].
Qed.

Section Submission.
Variable JSON_parse : jsstring -> option Js.value.

(** X21: every body that the page submits for a leads job passes the
    proxy's validation, whatever the two text fields hold; the page
    submits nothing when no seed user name can be read. *)
Theorem submitted_leads_pass_validation parseMessage seeds filters payload :
  leadsRequest JSON_parse parseMessage seeds filters = inr payload ->
  validatePayload payload = GenerateLeads.Valid /\
  parseSeedUsernames seeds <> [] /\
  Js.getProp (js "seedUserNames") payload
  = Some (Js.Arr (map Js.Str (parseSeedUsernames seeds))).
Proof.
  unfold leadsRequest.
  pose proof (parseSeedUsernames_clean seeds) as Hclean.
  destruct (parseSeedUsernames seeds) as [|u us] eqn:Es; [discriminate|].
  assert (Hgood : existsb badSeed (map Js.Str (u :: us)) = false).
  { clear Es. induction Hclean as [|x xs [Hne Hx] _ IH]; [reflexivity|].
    cbn [map existsb]. now rewrite (clean_seed_is_good x Hne Hx), IH. }
  assert (Hvalid : forall rest,
            match rest with
            | [] => True
            | [(k, f)] => k = js "filters" /\
                          Js.typeof f = js "object" /\ f <> Js.Null
            | _ => False
            end ->
            validatePayload
              (Js.Obj ((js "seedUserNames", Js.Arr (map Js.Str (u :: us)))
                       :: rest)) = GenerateLeads.Valid).
  { intros rest Hrest. unfold validatePayload. cbv zeta.
    change (Js.typeof (Js.Obj _)) with (js "object").
    change (JsString.eqb (js "object") (js "object")) with true.
    cbn [negb orb].
    unfold field at 1.
    change (Js.getProp (js "seedUserNames") (Js.Obj _))
      with (Some (Js.Arr (map Js.Str (u :: us)))).
    cbv iota. cbn [map] in Hgood |- *. rewrite Hgood.
    destruct rest as [|[k f] [|? ?]]; [reflexivity| |contradiction].
    destruct Hrest as (-> & Hty & Hnn).
    change (field "filters" _) with f. rewrite Hty.
    change (JsString.eqb (js "object") (js "object")) with true.
    cbn [negb]. rewrite andb_false_r. reflexivity. }
  destruct (trim filters) as [|c0 r0].
  - intros H. injection H as <-. split; [|split].
    + apply (Hvalid []). exact I.
    + discriminate.
    + reflexivity.
  - destruct (JSON_parse filters) as [f|]; [|discriminate].
    destruct (negb (JsString.eqb (Js.typeof f) (js "object")) ||
              match f with Js.Null => true | _ => false end) eqn:Ef;
      [discriminate|].
    apply orb_false_iff in Ef. destruct Ef as [Ety Enn].
    apply negb_false_iff, eqb_eq in Ety.
    intros H. injection H as <-. split; [|split].
    + apply (Hvalid [(js "filters", f)]). repeat split; [exact Ety|].
      intros ->. discriminate.
    + discriminate.
    + reflexivity.
Qed.

End Submission.

Lemma submitted_leads_pass_validation_witness :
  validatePayload
    (Js.Obj [(js "seedUserNames",
              Js.Arr [Js.Str (js "alice"); Js.Str (js "bob")]);
             (js "filters", sampleFilters)])
  = GenerateLeads.Valid.
Proof.
  apply (submitted_leads_pass_validation
           (Claims.parseOnly sampleFiltersText sampleFilters) []
           (js "alice, bob") sampleFiltersText).
  vm_compute. reflexivity.
Defined.

End Browser.

(** ** The properties above on sample answers of the backend *)

Section AnswerExamples.
Import Http Shared Answers Claims Samples.


Lemma seed_usernames_are_the_runs_witness :
  Client.parseSeedUsernames (js "alice, bob")
  = Client.parseSeedUsernames (js "alice")
    ++ Client.parseSeedUsernames (js " bob").
Proof.
  destruct seed_usernames_are_the_runs as (_ & _ & H & _).
  apply (H (js "alice") 44%N (js " bob")). reflexivity.
Defined.

Lemma faults_fail_closed_witness :
  let st := GenerateDmList.handler Whatwg.URL_token configured
              (post (csvWithRows 1)) in
  statusCode (res st) = 500%N /\
  written (res st) = [Text genericBody] /\
  console st = [(js "Proxy error (generate_dm_list):",
                 TypeError "fetch failed")].
Proof.
  destruct (faults_fail_closed Whatwg.URL_token
              (parseOnly nullFiltersText (leadsPayload Js.Null))
              (searchOnly sampleLocation tokenSearch)
              configured (post (csvWithRows 1)) (TypeError "fetch failed"))
    as (H & _).
  apply H. vm_compute. reflexivity.
Defined.

Lemma method_gate_witness :
  Results.handler (searchOnly sampleLocation tokenSearch) unconfigured
    deleteRequest
  = mkSt (mkRes 405 (corsHeaders true ++ [(js "Allow", js "GET, OPTIONS")])
                [Text (js "Method Not Allowed")] true) [] [].
Proof.
  destruct (method_gate Whatwg.URL_token
              (parseOnly nullFiltersText (leadsPayload Js.Null))
              (searchOnly sampleLocation tokenSearch)
              unconfigured deleteRequest) as (_ & _ & H).
  apply H; vm_compute; discriminate.
Defined.

Lemma invalid_submission_rejected_witness :
  GenerateDmList.handler Whatwg.URL_token configured (post (csvWithRows 0))
  = mkSt (mkRes 400 (corsHeaders true ++ [jsonType])
                [Text (rejectionBody (js "No rows found after header.")
                                     (js "EMPTY_ROWS"))] true) [] [].
Proof.
  destruct (invalid_submission_rejected Whatwg.URL_token
              (parseOnly nullFiltersText (leadsPayload Js.Null))
              configured (post (csvWithRows 0)) backendBase (csvWithRows 0)
              eq_refl eq_refl eq_refl) as (H & _).
  apply H. vm_compute. reflexivity.
Defined.

Lemma accepted_submission_witness :
  GenerateDmList.handler Whatwg.URL_token (answering false accepted)
    (post (csvWithRows 1))
  = mkSt (mkRes 202 (corsHeaders true ++ [jsonType])
            (jsonChunk
               (Js.Obj [(js "turnId", Js.Str (js "t1"));
                        (js "resultUrl",
                         Js.Str (js "/api/results?token=abc"));
                        (js "count", Js.Num (js "1"))]))
            true)
         [dmListCall backendBase (csvWithRows 1)] [].
Proof.
  assert (Hu : rewriteResultUrl Whatwg.URL_token
                 (Js.lookup (js "resultUrl") jobFields)
               = inr (js "/api/results?token=abc"))
    by (vm_compute; reflexivity).
  destruct (accepted_submission Whatwg.URL_token
              (parseOnly nullFiltersText (leadsPayload Js.Null))
              (answering false accepted) (post (csvWithRows 1))
              backendBase (csvWithRows 1) accepted jobFields
              (js "/api/results?token=abc")
              eq_refl eq_refl eq_refl eq_refl eq_refl Hu) as (H & _).
  apply (H 1); vm_compute; reflexivity.
Defined.

Lemma other_status_relayed_witness :
  GenerateDmList.handler Whatwg.URL_token (answering false refused)
    (post (csvWithRows 1))
  = mkSt (mkRes 422 (corsHeaders true ++ [textType])
                [Text (js "no usable rows")] true)
         [dmListCall backendBase (csvWithRows 1)] [].
Proof.
  assert (Hs : status refused <> 202%N) by (vm_compute; discriminate).
  destruct (other_status_relayed Whatwg.URL_token
              (parseOnly nullFiltersText (leadsPayload Js.Null))
              (answering false refused) (post (csvWithRows 1))
              backendBase (csvWithRows 1) refused
              eq_refl eq_refl eq_refl Hs) as (H & _).
  destruct (H 1) as (Ht & _); [vm_compute; reflexivity | reflexivity |].
  apply Ht; vm_compute; reflexivity.
Defined.

Lemma results_forwards_query_witness :
  calls (Results.handler (searchOnly sampleLocation tokenSearch)
           (answering true readyResult) getResults)
  = [resultsCall backendBase tokenSearch].
Proof.
  apply (results_forwards_query (searchOnly sampleLocation tokenSearch)
           (answering true readyResult) getResults backendBase tokenSearch);
    vm_compute; reflexivity.
Defined.

Lemma results_status_relayed_witness :
  Results.handler (searchOnly sampleLocation tokenSearch)
    (answering true pendingResult) getResults
  = mkSt (mkRes 202 (corsHeaders true ++ [jsonType])
                (jsonChunk (Js.Obj [(js "ready", Js.Bool false)])) true)
         [resultsCall backendBase tokenSearch] [].
Proof.
  assert (Hm : method getResults = js "GET") by reflexivity.
  assert (Hb : getBackendBase (answering true pendingResult)
               = inr backendBase) by (vm_compute; reflexivity).
  assert (Hq : searchOnly sampleLocation tokenSearch (url getResults)
               = Some tokenSearch) by (vm_compute; reflexivity).
  destruct (results_status_relayed (searchOnly sampleLocation tokenSearch)
              (answering true pendingResult) getResults backendBase
              tokenSearch pendingResult Hm Hb Hq eq_refl) as (H & _).
  apply H; reflexivity.
Defined.

Lemma result_relayed_witness :
  Results.handler (searchOnly sampleLocation tokenSearch)
    (answering true readyResult) getResults
  = mkSt (mkRes 200
            (corsHeaders true ++
             [(js "Content-Type", js "text/csv; charset=utf-8");
              (js "Content-Disposition",
               js "attachment; filename=leads.csv")])
            [Bytes csvBytes] true)
         [resultsCall backendBase tokenSearch] [].
Proof.
  assert (Hm : method getResults = js "GET") by reflexivity.
  assert (Hb : getBackendBase (answering true readyResult)
               = inr backendBase) by (vm_compute; reflexivity).
  assert (Hq : searchOnly sampleLocation tokenSearch (url getResults)
               = Some tokenSearch) by (vm_compute; reflexivity).
  destruct (result_relayed (searchOnly sampleLocation tokenSearch)
              (answering true readyResult) getResults backendBase
              tokenSearch readyResult Hm Hb Hq eq_refl eq_refl) as (H & _).
  apply (H csvBytes); reflexivity.
Defined.

Lemma broken_stream_witness :
  Results.handler (searchOnly sampleLocation tokenSearch)
    (answering true brokenResult) getResults
  = mkSt (mkRes 200 (corsHeaders true ++ resultHeaders brokenResult)
                [Bytes [97; 44]%N; Text streamErrorBody] true)
         [resultsCall backendBase tokenSearch]
         [(js "Streaming error (results):", resetByPeer)].
Proof.
  assert (Hm : method getResults = js "GET") by reflexivity.
  assert (Hb : getBackendBase (answering true brokenResult)
               = inr backendBase) by (vm_compute; reflexivity).
  assert (Hq : searchOnly sampleLocation tokenSearch (url getResults)
               = Some tokenSearch) by (vm_compute; reflexivity).
  apply (broken_stream (searchOnly sampleLocation tokenSearch)
           (answering true brokenResult) getResults backendBase
           tokenSearch brokenResult [97; 44]%N resetByPeer
           Hm Hb Hq eq_refl eq_refl eq_refl eq_refl).
Defined.

End AnswerExamples.

(** ** polling.js: how a session can end, and what it reports *)

Section SessionEnds.
Import Polling Claims.

(** Only an exception named ['AbortError'] leaves the [catch] clause. *)
Lemma tryCatch_throw env a e evs :
  tryCatch env a = (Throw e, evs) -> exnName e = js "AbortError".
Proof.
  unfold tryCatch.
  destruct (tryBlock env a) as [[| |e0] evs0]; try discriminate.
  unfold catchClause.
  destruct (JsString.eqb (exnName e0) (js "AbortError")) eqn:E;
    [|discriminate].
  intros H. injection H as <- _. now apply eqb_eq.
Qed.

Lemma pollLoop_ends env url it : forall a,
  match fst (pollLoop env url it a) with
  | Resolved ready => ready = true
  | Rejected e =>
      exnName e = js "AbortError" \/
      e = statusError (js "Polling timed out") 504
  end.
Proof.
  induction it as [|d it IH]; intros a; cbn [pollLoop];
    (destruct (abortedAtEntry env a); [left; reflexivity|]);
    destruct (tryCatch env a) as [[| |e] evs] eqn:E; cbn [fst];
    try reflexivity;
    try (left; exact (tryCatch_throw env a e evs E)).
  - right. reflexivity.
  - destruct (abortedInWait env a); [left; reflexivity|].
    specialize (IH (S a)).
    destruct (pollLoop env url it (S a)) as [o rest]. exact IH.
Qed.

(** X22: a session ends in one of three ways only, whatever the replies
    and the signal: it resolves as ready, it rejects with an exception
    named ['AbortError'], or it rejects with the timed-out error of status
    504.  The errors that the loop creates for the statuses 400, 410 and
    the unexpected ones never reach the caller. *)
Theorem session_ends_three_ways env url :
  match fst (waitAndDownload env url) with
  | Resolved ready => ready = true
  | Rejected e =>
      exnName e = js "AbortError" \/
      e = statusError (js "Polling timed out") 504
  end.
Proof.
  unfold waitAndDownload, pollForReady.
  pose proof (pollLoop_ends env url
                (backoffIterator defaultMaxAttempts defaultCapMs) 0) as H.
  destruct (pollLoop env url _ 0) as [[[|]|e] log]; cbn [fst] in *;
    [reflexivity | discriminate | exact H].
Qed.

(** X23: a reply with another status than 200 and 202 is reported twice
    through [onTick], first with its status and then, by the [catch]
    clause, with status 0 and the same non-empty message; the iteration
    then goes on to its wait like one whose reply is pending. *)
Theorem error_status_reported_twice env k status text :
  reply env k = Response status text ->
  status <> 200%N -> status <> 202%N ->
  exists msg,
    msg <> [] /\
    tryCatch env k = (Normal, tick env k status msg ++ tick env k 0 msg).
Proof.
  intros Hr H200 H202. unfold tryCatch, tryBlock. rewrite Hr.
  apply N.eqb_neq in H200, H202. rewrite H200, H202.
  assert (K : forall msg, msg <> [] ->
            catchClause env k (statusError msg status)
            = (Normal, tick env k 0 msg)).
  { intros msg Hm. unfold catchClause. cbn [statusError exnName exnMessage].
    change (JsString.eqb (js "Error") (js "AbortError")) with false.
    cbv iota. destruct msg; [congruence | reflexivity]. }
  destruct (N.eqb_spec status 400) as [->|_];
    [|destruct (N.eqb_spec status 410) as [->|_]]; cbv zeta.
  - exists (js "Invalid or malformed token."). split; [discriminate|].
    rewrite K by discriminate. reflexivity.
  - exists (js "Result expired. Please start a new job.").
    split; [discriminate|]. rewrite K by discriminate. reflexivity.
  - assert (Hm : forall rest : jsstring,
              js "Unexpected status " ++ rest <> []) by discriminate.
    eexists. split; [apply Hm|]. rewrite K by apply Hm. reflexivity.
Qed.

Lemma error_status_reported_twice_witness :
  exists msg,
    msg <> [] /\
    tryCatch expiredThenReady 0
    = (Normal, [EvTick 0 410 msg; EvTick 0 0 msg]).
Proof.
  apply (error_status_reported_twice expiredThenReady 0 410 []);
    [reflexivity | discriminate | discriminate].
Defined.

End SessionEnds.

(** ** The base URL and the rewritten answer *)

Section BaseAndFields.
Import Http Shared.

Lemma dropLeadingSlashes_spec s :
  exists slashes,
    s = slashes ++ dropLeadingSlashes s /\
    forallb (N.eqb 47) slashes = true /\
    hd 0%N (dropLeadingSlashes s) <> 47%N.
Proof.
  induction s as [|c s (sl & E & Hs & Hh)].
  - exists []. repeat split. discriminate.
  - cbn [dropLeadingSlashes]. destruct (N.eqb_spec c 47) as [->|Hc].
    + exists (47%N :: sl). cbn [app forallb]. rewrite <- E.
      repeat split; assumption.
    + exists []. repeat split. exact Hc.
Qed.

(** X24: the base that the handlers put in front of the backend paths is
    the setting without the slashes that end it: the setting is that base
    followed by slashes only, and the base does not end with a slash. *)
Theorem backend_base_has_no_trailing_slash w base :
  getBackendBase w = inr base ->
  exists slashes,
    MARKETING_BACKEND_URL w = Some (base ++ slashes) /\
    forallb (N.eqb 47) slashes = true /\
    last base 0%N <> 47%N.
Proof.
  unfold getBackendBase.
  destruct (MARKETING_BACKEND_URL w) as [[|c s]|]; try discriminate.
  intros H. injection H as <-. unfold stripTrailingSlashes.
  destruct (dropLeadingSlashes_spec (rev (c :: s))) as (sl & E & Hs & Hh).
  exists (rev sl). split; [|split].
  - f_equal. rewrite <- rev_app_distr, <- E. symmetry. apply rev_involutive.
  - now rewrite forallb_rev.
  - destruct (dropLeadingSlashes (rev (c :: s))) as [|d l]; [discriminate|].
    cbn [rev]. rewrite last_last. exact Hh.
Qed.

Lemma backend_base_has_no_trailing_slash_witness :
  exists slashes,
    MARKETING_BACKEND_URL Claims.configured
    = Some (Samples.backendBase ++ slashes) /\
    forallb (N.eqb 47) slashes = true /\
    last Samples.backendBase 0%N <> 47%N.
Proof.
  apply (backend_base_has_no_trailing_slash Claims.configured
           Samples.backendBase).
  vm_compute. reflexivity.
Defined.

Lemma lookup_setProp key v props k :
  Js.lookup k (Js.setProp key v props)
  = if JsString.eqb key k then v else Js.lookup k props.
Proof.
  induction props as [|[k0 w0] props IH]; cbn [Js.setProp Js.lookup].
  - destruct (JsString.eqb key k); reflexivity.
  - destruct (JsString.eqb k0 key) eqn:E0; cbn [Js.lookup].
    + apply eqb_eq in E0. rewrite E0.
      destruct (JsString.eqb key k); reflexivity.
    + rewrite IH. destruct (JsString.eqb k0 k) eqn:E1; [|reflexivity].
      destruct (JsString.eqb key k) eqn:E2; [|reflexivity].
      apply eqb_eq in E1, E2. rewrite E1, <- E2, eqb_refl in E0.
      discriminate.
Qed.

Lemma setProp_keys key v props :
  map fst (Js.setProp key v props)
  = if existsb (fun k => JsString.eqb k key) (map fst props)
    then map fst props else map fst props ++ [key].
Proof.
  induction props as [|[k0 w0] props IH]; [reflexivity|].
  cbn [Js.setProp map fst existsb].
  destruct (JsString.eqb k0 key) eqn:E0; cbn [orb map fst].
  - reflexivity.
  - rewrite IH. destruct (existsb _ (map fst props)); reflexivity.
Qed.

Section Fields.
Variable URL_token : jsstring -> option (option jsstring).

(** X25: the answer that replaces the backend's accepted-job object has
    the rewritten location under [resultUrl] and, under every other key,
    what the backend sent; the keys keep their order, [resultUrl] coming
    last when the backend sent none.  A backend answer that is [null]
    makes the rewriting throw a [TypeError]. *)
Theorem rewritten_keeps_other_fields :
  (forall props out,
     rewritten URL_token (Js.Obj props) = inr out ->
     exists u props',
       out = Js.Obj props' /\
       rewriteResultUrl URL_token (Js.lookup (js "resultUrl") props)
       = inr u /\
       Js.lookup (js "resultUrl") props' = Js.Str u /\
       (forall k, k <> js "resultUrl" ->
          Js.lookup k props' = Js.lookup k props) /\
       map fst props'
       = (if existsb (fun k => JsString.eqb k (js "resultUrl"))
               (map fst props)
          then map fst props else map fst props ++ [js "resultUrl"])) /\
  (exists e, rewritten URL_token Js.Null = inl e /\
             exnName e = js "TypeError").
Proof.
  split; [|eexists; split; reflexivity].
  intros props out. unfold rewritten. cbn [Js.getProp Js.spread].
  destruct (rewriteResultUrl URL_token (Js.lookup (js "resultUrl") props))
    as [e|u]; [discriminate|].
  intros H. injection H as <-.
  exists u, (Js.setProp (js "resultUrl") (Js.Str u) props).
  split; [reflexivity|]. split; [reflexivity|]. split; [|split].
  - now rewrite lookup_setProp, eqb_refl.
  - intros k Hk. rewrite lookup_setProp.
    destruct (JsString.eqb (js "resultUrl") k) eqn:E; [|reflexivity].
    apply eqb_eq in E. congruence.
  - apply setProp_keys.
Qed.

End Fields.

Lemma rewritten_keeps_other_fields_witness :
  exists u props',
    Js.Obj [(js "turnId", Js.Str (js "t1"));
            (js "resultUrl", Js.Str (js "/api/results?token=abc"));
            (js "count", Js.Num (js "1"))] = Js.Obj props' /\
    rewriteResultUrl Whatwg.URL_token
      (Js.lookup (js "resultUrl") Samples.jobFields) = inr u /\
    Js.lookup (js "resultUrl") props' = Js.Str u /\
    (forall k, k <> js "resultUrl" ->
       Js.lookup k props' = Js.lookup k Samples.jobFields) /\
    map fst props'
    = (if existsb (fun k => JsString.eqb k (js "resultUrl"))
            (map fst Samples.jobFields)
       then map fst Samples.jobFields
       else map fst Samples.jobFields ++ [js "resultUrl"]).
Proof.
  apply (proj1 (rewritten_keeps_other_fields Whatwg.URL_token)
           Samples.jobFields).
  vm_compute. reflexivity.
Defined.

End BaseAndFields.
